(* ===== verification/_CoqProject ===== *)
-Q . S2P
Prelude.v
DateStamp.v
PasswordHash.v
HashMethod.v
Gravatar.v
Schema.v
CredentialStore.v
ContentStore.v
Store.v
PostSpec.v
Session.v
Handlers.v
App.v
Threads.v
Races.v
Config.v
