(* ===== verification/Prelude.v ===== *)
(** * BlogPRJT: a verification development of [src/main.py]

    ** The program
    A Flask blog in one file.  Its parts, and how they interact:
    - the schema (lines 78-118): SQLAlchemy models [User], [BlogPost],
      [Comment] over three SQLite tables; the users table is the
      Credential Store, posts and comments the Content Store;
    - the session (lines 44-51): Flask-Login keeps the logged-in id in the
      client's cookie and resolves [current_user] through [load_user],
      which aborts with 404 when the id names no user;
    - the authorization gate [admin_only] (lines 224-232): [current_user.id
      != 1] aborts with 403;
    - the route handlers (lines 129-294), each reading the client's cookie,
      querying or committing to the database, and returning a redirect, a
      page or an error;
    - two library collaborators: werkzeug's password hashing (lines 147,
      173) and [date.today().strftime("%B %d, %Y")] (line 246);
    - the module-level setup (lines 18-122) and [app.run(debug=True)]
      (lines 297-298), whose development server handles each request on a
      thread of its own, so that requests interleave between their reads
      and their commits.

    ** Files, in the order of [_CoqProject]
    - [Prelude] (this file): the exceptions a request raises ([exc]), the
      [outcome] type, the state/exception monad [St] of the handlers with
      its notation in [blog_scope], the hint database [blog], the tactic
      [decide_it] that discharges a decidable goal by evaluation, and the
      list lemmas shared by the tables: rows in increasing key order
      ([keys_increasing], decidable), lookup by a column ([find_by]), update
      by key ([replace_row]), [str.split] ([split_once]).
    - [DateStamp]: [datetime.date] and [strftime_BdY]; the stamp reads back
      ([parse_strftime_BdY]).
    - [PasswordHash]: the class [PasswordScheme] (what the handlers assume
      of [generate_password_hash]/[check_password_hash]) and its
      implementation [Werkzeug.werkzeug_scheme] by werkzeug's
      ["method$salt$hash"] format, over a key derivation assumed
      collision-free.
    - [HashMethod] (Module [HashMethod]): werkzeug 3's
      [generate_password_hash], [check_password_hash] and [_hash_internal]
      down to hashlib, with Python's [str.split], [int()] and [str()]; the
      method string round trip and the proof that werkzeug meets the laws
      of [PasswordScheme] for the call of line 147.
    - [Gravatar] (Module [Gravatar]): the object of lines 55-62 and the
      avatar link its Jinja filter builds.
    - [Schema]: the records of the three models, the database [Db] as three
      lists of rows in rowid order, SQLite's rowid [next_rowid], the
      relationships as foreign-key queries, the invariant [db_wf]
      (decidable), and [db_core], [db_wf] without the foreign key of
      [comments.post_id], which SQLite does not check.
    - [CredentialStore] (Module [CredentialStore]): the email query and the
      insertion of a user, with the UNIQUE email check at commit.
    - [ContentStore] (Module [ContentStore]): listing, lookup, insertion,
      update and deletion of posts, insertion of comments; each keeps
      [db_wf].
    - [Store] (Module [Store]): [store_step], the effects one request can
      have on the database (nothing, or one of the operations above), and
      what every such effect keeps: [db_wf], users only appended with the
      next rowid, comments never removed, rowids growing by at most one;
      [tstore_step] adds the two effects a commit separated from its read
      can have (a comment on a post deleted meanwhile, the flush of an
      edit), which keep [db_core].
    - [PostSpec] (Module [PostSpec]): the Content Store's contract as a
      [gmap] from post id to contents and the refinement theorems of
      insert, update, delete and lookup against it.
    - [Session] (Module [Session]): the cookie, [current_user], [login_user],
      [logout_user], [flash].
    - [Handlers] (Module [Handlers]): [admin_only], every route, [dispatch]
      from a [Request]; the claims about each route, on every branch.
    - [App] (Module [App]): a [World] (database and a [gmap] of client
      cookies), [serve] running one whole request of one client, and the
      serial schedule [step] where each request runs alone: its reachable
      worlds, their invariants, counted executions ([nsteps]) and
      liveness ([rtc]).
    - [Threads] (Module [Threads]): [register]'s email query and its
      commit as separate steps that other requests can interleave.
    - [Races] (Module [Races]): the threaded server of [app.run], the
      model of the program as it runs: [rstep] serves a whole request, or
      the first half of a registration, a comment, an edit or a deletion
      (the reads), or the second half of a pending one (the commit), in
      any order; an edit commits through SQLAlchemy's flush of the
      changed columns ([ContentStore.flush_post_update]).  The serial
      schedule of [App] is a sub-behaviour ([Races.reachable_rreachable]).
    - [Config] (Module [Config]): the module-level setup (SECRET_KEY, the
      missing database URI, [db.init_app], [db.create_all]) and
      [app.run].

    ** What is proved
    - The admin gate: every admin route answers 403 to a logged-in non-admin
      before anything else; an anonymous client gets a 500 (an
      [AttributeError]), not the 403 the spec promises.
    - Credentials: duplicate email, new user, login with an unknown email,
      and the round trip register-then-login (right password logs in, any
      other password is refused).
    - Content: duplicate titles fail at commit, creation appends one row with
      today's stamp, editing keeps id and date, a resubmitted edit changes
      nothing ([edit_post_idempotent]), deleting a post that has a comment
      fails (the NOT NULL [comments.post_id]), comments need a logged-in
      user, unknown post ids are 404; refinement of the store against its
      map contract.
    - The threaded server ([Races]), on every interleaving: every step
      changes the database by at most one store operation (one commit);
      the constraints SQLite enforces (rowid order, UNIQUE emails and
      titles, authors that exist) hold and every cookie names a registered
      user; a whole request fails only with an exception of its route's
      signature ([App.route_errors]) and a second half only with those of
      its race; a post that exists and has a comment is never deleted.
    - The races: a registration whose email was taken after its query
      gets the 500 of the UNIQUE constraint and changes nothing; a comment
      on a post deleted after it was read is committed as an orphan (the
      foreign key breaks, the request gets a 500, and the next post,
      which reuses the rowid, shows it); an edit of a post deleted
      meanwhile gets a 500 and changes nothing.
    - The serial schedule ([App]): the full invariant [db_wf], so the
      foreign key too; cookies naming registered users, so [load_user]'s
      404 never fires; user ids are 1..n, so the first account registered
      is the admin; a commented post exists in every later world; after
      [n] requests every rowid is at most [n].
    - Liveness: from any world any client can get logged in in one request.
    - The date stamp reads back.
    - Password hashing: the method werkzeug writes into a stored hash parses
      back to the same key derivation; the hash line 147 stores checks
      [True] for its password and [False] for any other, so werkzeug
      implements the interface the handlers are proved against; a stored
      hash with an unknown method makes [login] raise [ValueError].
    - Avatars: with the settings of lines 55-62 every comment's link is
      plain http on the MD5 of the email as registered, not lowercased.
    - Startup: as written, [db.init_app] raises for the missing URI
      whatever the environment; with line 68 restored the invariant holds
      from a new or a well-formed database on.
    - Registrations split in two ([Threads]) keep the full invariant
      [db_wf]: the UNIQUE constraint, not the query, keeps emails unique.

    ** Bounds and inputs
    Nothing here needs fuel: every function is structural.  Ids are [nat]:
    [App.nsteps_rowids_bounded] shows that after [n] requests no rowid
    exceeds [n], so SQLite's largest rowid [2^63 - 1], past which it
    picks rowids at random instead of [next_rowid]'s largest-plus-one,
    is not reached by fewer than [2^63 - 1] requests.  The request's
    external inputs are explicit: today's date ([Env]) and the salt, which
    [step] requires to be one [gen_salt(8)] can draw ([is_salt 8]).  Dates
    are those [datetime.date] accepts (years 1-9999), so [%Y] has at most
    four digits.

    ** Not modelled
    HTML templates (a handler's page is the data it passes to
    [render_template]), and so the consumption of flashed messages by
    [get_flashed_messages] in the templates, which are not in [src/]; the
    validators of [forms.py], which is not in [src/] (a form is [None]
    when [validate_on_submit()] is false); Bootstrap and CKEditor (lines
    40-41), which only add template helpers; the null session Flask uses
    when SECRET_KEY is unset: every session write would raise
    [RuntimeError], and so would Flask-WTF's CSRF token of the forms,
    so which call fails first depends on [forms.py] and the templates,
    which are not in the repository; as written the program never
    serves a request anyway ([Config.startup_fails]), and the server
    model of line 68 restored assumes a secret key; client cookies that survive a restart;
    hashlib's scrypt, pbkdf2 and md5 (parameters: C code the program only
    calls); interleaving inside the routes that
    commit nothing, and inside [add_new_post], whose reads (the session
    and the admin check) only concern the client's own row, which no
    request deletes; for the serial schedule,
    [edit_post] commits through [update_post], which
    [ContentStore.flush_post_update_agrees] shows to be the flush when no
    other request wrote the row.  *)

From stdpp Require Import base list strings.
From Stdlib Require Import Sorted Ascii String.

Declare Scope blog_scope.
Delimit Scope blog_scope with blog.
Create HintDb blog discriminated.

(** ** Exceptions that escape a route handler *)
Inductive exc :=
| HTTPException (code : nat)  (** [abort(code)], [db.get_or_404] *)
| IntegrityError              (** [sqlalchemy.exc.IntegrityError] at commit *)
| AttributeError              (** an attribute the object does not have *)
| UnmappedInstanceError       (** a non-ORM object assigned to a relationship *)
| ObjectDeletedError          (** an expired object whose row is gone *)
| RuntimeError                (** a misconfigured Flask extension *)
| StaleDataError              (** an UPDATE that matched no row *)
| ValueError.                 (** [int()] or werkzeug rejecting its argument *)

#[export] Instance exc_eq_dec : EqDecision exc.
Proof. solve_decision. Defined.

Inductive outcome (A : Type) :=
| Ret (a : A)
| Raise (e : exc).
Arguments Ret {A} a.
Arguments Raise {A} e.

Definition outcome_map {A B} (f : A -> B) (o : outcome A) : outcome B :=
  match o with Ret a => Ret (f a) | Raise e => Raise e end.

Definition of_option {A} (e : exc) (o : option A) : outcome A :=
  match o with Some a => Ret a | None => Raise e end.

(** A decision procedure carried across an equivalence. *)
Definition decide_iff (P Q : Prop) (H : P <-> Q) `{Decision P} : Decision Q :=
  match decide P with
  | left p => left (proj1 H p)
  | right np => right (fun q => np (proj2 H q))
  end.

(** ** A state and exception monad: the request context threaded through
    a handler.  A raised exception keeps the state reached so far; the
    database layer only changes the state in a successful commit, so a
    failed request leaves the database as it was. *)
Definition St (S A : Type) := S -> outcome A * S.

Definition st_ret {S A} (a : A) : St S A := fun s => (Ret a, s).
Definition st_raise {S A} (e : exc) : St S A := fun s => (Raise e, s).
Definition st_bind {S A B} (m : St S A) (k : A -> St S B) : St S B :=
  fun s => match m s with
           | (Ret a, s') => k a s'
           | (Raise e, s') => (Raise e, s')
           end.
Definition st_get {S} : St S S := fun s => (Ret s, s).
Definition st_put {S} (s : S) : St S unit := fun _ => (Ret tt, s).
Definition st_lift {S A} (o : outcome A) : St S A := fun s => (o, s).

Notation "x <- m ;; k" := (st_bind m (fun x => k))
  (at level 95, m at level 94, right associativity) : blog_scope.
Notation "m ;;; k" := (st_bind m (fun _ => k))
  (at level 95, right associativity) : blog_scope.

Lemma st_bind_ret {S A B} (m : St S A) (k : A -> St S B) s a s' :
  m s = (Ret a, s') -> st_bind m k s = k a s'.
Proof. unfold st_bind. by intros ->. Qed.

Lemma st_bind_raise {S A B} (m : St S A) (k : A -> St S B) s e s' :
  m s = (Raise e, s') -> st_bind m k s = (Raise e, s').
Proof. unfold st_bind. by intros ->. Qed.

Lemma st_bind_assoc {S A B C} (m : St S A) (k : A -> St S B) (h : B -> St S C) s :
  st_bind (st_bind m k) h s = st_bind m (fun a => st_bind (k a) h) s.
Proof. unfold st_bind. by destruct (m s) as [[a|e] s']. Qed.

#[export] Hint Resolve st_bind_ret st_bind_raise : blog.

(** ** Generic lemmas on the rowid lists of the tables *)
Section rows.
Context {A : Type} (key : A -> nat).

(** Rows in strictly increasing key order: the rowid order in which
    SQLite returns a table scanned without ORDER BY. *)
Definition keys_increasing (l : list A) : Prop :=
  StronglySorted (fun a b => key a < key b) l.

Lemma keys_increasing_snoc (l : list A) (x : A) :
  keys_increasing l -> (forall y, y ∈ l -> key y < key x) ->
  keys_increasing (l ++ [x]).
Proof.
  unfold keys_increasing. induction l as [|y l IH]; simpl; intros Hs Hlt.
  - repeat constructor.
  - inversion Hs; subst. constructor.
    + apply IH; [done|]. intros z Hz. apply Hlt. by right.
    + apply Forall_app. split; [done|]. constructor; [|done].
      apply Hlt. by left.
Qed.

Lemma keys_increasing_filter (P : A -> Prop) `{forall x, Decision (P x)} (l : list A) :
  keys_increasing l -> keys_increasing (filter P l).
Proof.
  unfold keys_increasing. induction l as [|y l IH]; simpl; intros Hs; [done|].
  inversion Hs as [|? ? Hs' Hf]; subst. rewrite filter_cons. case_decide.
  - constructor; [by apply IH|].
    apply Forall_forall. intros z Hz. apply list_elem_of_filter in Hz as [_ Hz].
    rewrite Forall_forall in Hf. by apply Hf.
  - by apply IH.
Qed.

(** The executable test of [keys_increasing]. *)
Fixpoint keys_increasing_b (l : list A) : bool :=
  match l with
  | [] => true
  | x :: l' => forallb (fun y => Nat.ltb (key x) (key y)) l' && keys_increasing_b l'
  end.

Lemma keys_increasing_b_iff (l : list A) : keys_increasing_b l = true <-> keys_increasing l.
Proof.
  unfold keys_increasing. induction l as [|x l IH]; simpl.
  - split; [constructor|done].
  - rewrite andb_true_iff, forallb_forall, IH. split.
    + intros [Hf Hs]. constructor; [done|]. apply Forall_forall. intros y Hy.
      apply Nat.ltb_lt, Hf. by apply list_elem_of_In.
    + intros Hs. inversion Hs as [|? ? Hs' Hf]; subst. split; [|done].
      intros y Hy. apply Nat.ltb_lt. rewrite Forall_forall in Hf. apply Hf. by apply list_elem_of_In.
Qed.

#[global] Instance keys_increasing_dec (l : list A) : Decision (keys_increasing l) :=
  decide_iff _ _ (keys_increasing_b_iff l).

(** Increasing keys are distinct keys. *)
Lemma keys_increasing_NoDup (l : list A) :
  keys_increasing l -> NoDup (map key l).
Proof.
  unfold keys_increasing. induction l as [|y l IH]; simpl; intros Hs; [constructor|].
  inversion Hs as [|? ? Hs' Hf]; subst. constructor; [|by apply IH].
  intros Hin. apply list_elem_of_fmap in Hin as (z & Hz & Hzl).
  rewrite Forall_forall in Hf. specialize (Hf z Hzl). lia.
Qed.

End rows.

(** ** The first row whose column [key] holds a value: [find] as the
    queries [session.get(Model, id)] and [select(...).where(col == v)
    .scalar()] use it. *)
Section find_by.
Context {A B : Type} `{EqDecision B} (key : A -> B).

Definition find_by (v : B) (l : list A) : option A :=
  find (fun a => bool_decide (key a = v)) l.

Lemma find_by_Some_inv (v : B) (l : list A) (x : A) :
  find_by v l = Some x -> x ∈ l /\ key x = v.
Proof.
  unfold find_by. intros H. apply find_some in H as [Hin Hk].
  split; [by apply list_elem_of_In|]. by apply bool_decide_eq_true in Hk.
Qed.

Lemma find_by_None (v : B) (l : list A) :
  find_by v l = None <-> v ∉ map key l.
Proof.
  unfold find_by. induction l as [|y l IH]; simpl.
  - split; [intros _ Hin; by apply elem_of_nil in Hin|done].
  - rewrite elem_of_cons. case_bool_decide as Hk.
    + split; [done|]. intros Hn. exfalso. apply Hn. by left.
    + rewrite IH. naive_solver.
Qed.

(** With distinct keys, a row is found by its own key. *)
Lemma find_by_elem (l : list A) (x : A) :
  NoDup (map key l) -> x ∈ l -> find_by (key x) l = Some x.
Proof.
  unfold find_by. induction l as [|y l IH]; simpl; intros Hnd Hx.
  - by apply elem_of_nil in Hx.
  - apply NoDup_cons in Hnd as [Hy Hnd]. apply elem_of_cons in Hx as [->|Hx].
    + by rewrite bool_decide_true.
    + rewrite bool_decide_false; [by apply IH|].
      intros He. apply Hy. rewrite He. apply list_elem_of_fmap. eauto.
Qed.

Lemma find_by_app (v : B) (l1 l2 : list A) :
  find_by v (l1 ++ l2) =
    match find_by v l1 with Some x => Some x | None => find_by v l2 end.
Proof.
  unfold find_by. induction l1 as [|y l1 IH]; simpl; [done|].
  by case_bool_decide.
Qed.

Lemma find_by_snoc_other (l : list A) (x : A) (v : B) :
  key x ≠ v -> find_by v (l ++ [x]) = find_by v l.
Proof.
  intros Hx. rewrite find_by_app. destruct (find_by v l); [done|].
  unfold find_by. simpl. by rewrite bool_decide_false.
Qed.

Lemma find_by_snoc_new (l : list A) (x : A) :
  key x ∉ map key l -> find_by (key x) (l ++ [x]) = Some x.
Proof.
  intros Hn. rewrite find_by_app. apply find_by_None in Hn as ->.
  unfold find_by. simpl. by rewrite bool_decide_true.
Qed.
End find_by.


Lemma filter_nil_iff {A} (P : A -> Prop) `{forall x, Decision (P x)} (l : list A) :
  filter P l = [] <-> forall x, x ∈ l -> ~ P x.
Proof.
  induction l as [|y l IH]; simpl.
  - split; [intros _ x Hx; by apply elem_of_nil in Hx|done].
  - rewrite filter_cons. case_decide as Hy.
    + split; [done|]. intros Hn. exfalso. apply (Hn y); [by left|done].
    + rewrite IH. setoid_rewrite elem_of_cons. naive_solver.
Qed.

Lemma NoDup_map_filter {A B} (f : A -> B) (P : A -> Prop) `{forall x, Decision (P x)}
    (l : list A) :
  NoDup (map f l) -> NoDup (map f (filter P l)).
Proof.
  induction l as [|y l IH]; simpl; [done|]. intros Hnd.
  apply NoDup_cons in Hnd as [Hy Hnd]. rewrite filter_cons. case_decide; [|by apply IH].
  simpl. constructor; [|by apply IH]. intros Hin. apply Hy.
  apply list_elem_of_fmap in Hin as (z & Hz & Hzl). apply list_elem_of_filter in Hzl as [_ Hzl].
  rewrite Hz. apply list_elem_of_fmap. eauto.
Qed.

(** ** Replacing the row with key [k] in place: an UPDATE by primary key *)
Section replace_row.
Context {A : Type} (key : A -> nat) (k : nat) (x' : A).

(** Every row with key [k] becomes [x']. *)
Definition replace_row (l : list A) : list A :=
  map (fun q => if decide (key q = k) then x' else q) l.

Lemma map_key_replace (l : list A) :
  key x' = k -> map key (replace_row l) = map key l.
Proof.
  unfold replace_row. intros Hk. induction l as [|y l IH]; simpl; [done|].
  rewrite IH. case_decide; congruence.
Qed.

Lemma keys_increasing_replace (l : list A) :
  key x' = k -> keys_increasing key l -> keys_increasing key (replace_row l).
Proof.
  unfold keys_increasing, replace_row. intros Hk.
  induction l as [|y l IH]; simpl; intros Hs; [constructor|].
  inversion Hs as [|? ? Hs' Hf]; subst. constructor; [by apply IH|].
  apply Forall_forall. intros z Hz. apply list_elem_of_fmap in Hz as (w & -> & Hw).
  rewrite Forall_forall in Hf. specialize (Hf w Hw).
  repeat case_decide; lia.
Qed.

Lemma Forall_replace (P : A -> Prop) (l : list A) :
  P x' -> Forall P l -> Forall P (replace_row l).
Proof.
  unfold replace_row. intros Hx. induction 1; simpl; constructor; [|done].
  by case_decide.
Qed.

(** A column that was UNIQUE stays UNIQUE when the new value differs
    from the values of the other rows. *)
Lemma NoDup_col_replace {B} (col : A -> B) (l : list A) :
  NoDup (map key l) -> NoDup (map col l) ->
  col x' ∉ map col (filter (fun q => key q ≠ k) l) ->
  NoDup (map col (replace_row l)).
Proof.
  unfold replace_row. induction l as [|y l IH]; simpl; intros Hk Hc Hx; [constructor|].
  apply NoDup_cons in Hk as [Hky Hk]. apply NoDup_cons in Hc as [Hcy Hc].
  rewrite filter_cons in Hx.
  assert (Hx' : col x' ∉ map col (filter (fun q => key q ≠ k) l)).
  { case_decide; [|done]. simpl in Hx. rewrite elem_of_cons in Hx. naive_solver. }
  constructor; [|by apply IH].
  intros Hin. apply list_elem_of_fmap in Hin as (z & Hz & Hzl).
  apply list_elem_of_fmap in Hzl as (w & -> & Hw).
  case_decide as Hyk; case_decide as Hwk.
  - apply Hky. rewrite Hyk, <- Hwk. apply list_elem_of_fmap. eauto.
  - apply Hx'. rewrite Hz. apply list_elem_of_fmap. exists w.
    split; [done|]. by apply list_elem_of_filter.
  - apply Hx. rewrite decide_True; [|done]. simpl. rewrite elem_of_cons. by left.
  - apply Hcy. rewrite Hz. apply list_elem_of_fmap. eauto.
Qed.
End replace_row.

Section find_by_nat.
Context {A : Type} (key : A -> nat).

Lemma replace_row_absent (l : list A) (k : nat) (x' : A) :
  k ∉ map key l -> replace_row key k x' l = l.
Proof.
  unfold replace_row. induction l as [|y l IH]; simpl; intros Hk; [done|].
  rewrite elem_of_cons in Hk. rewrite decide_False by naive_solver. f_equal. apply IH. naive_solver.
Qed.

Lemma find_by_cons {B} `{EqDecision B} (f : A -> B) (v : B) (y : A) (l : list A) :
  find_by f v (y :: l) = if bool_decide (f y = v) then Some y else find_by f v l.
Proof. done. Qed.

Lemma replace_row_cons (k : nat) (x' y : A) (l : list A) :
  replace_row key k x' (y :: l) =
    (if decide (key y = k) then x' else y) :: replace_row key k x' l.
Proof. done. Qed.

(** Rewriting the row with key [k] to [x'] a second time changes
    nothing: the UPDATE is idempotent. *)
Lemma replace_row_idem (l : list A) (k : nat) (x' : A) :
  key x' = k -> replace_row key k x' (replace_row key k x' l) = replace_row key k x' l.
Proof.
  intros Hx. induction l as [|y l IH]; [done|]. rewrite !replace_row_cons, IH.
  by destruct (decide (key y = k)); [rewrite decide_True|rewrite decide_False].
Qed.

(** The other rows are untouched. *)
Lemma filter_replace_row_ne (l : list A) (k : nat) (x' : A) :
  key x' = k ->
  filter (fun q => key q ≠ k) (replace_row key k x' l) = filter (fun q => key q ≠ k) l.
Proof.
  intros Hx. induction l as [|y l IH]; [done|]. rewrite replace_row_cons.
  destruct (decide (key y = k)) as [Hy|Hy].
  - rewrite !filter_cons_False by (by intros []). done.
  - rewrite !filter_cons_True by done. by f_equal.
Qed.

(** Once some row had key [k], the lookup of [k] finds [x']. *)
Lemma find_by_replace_self (l : list A) (k : nat) (x' : A) :
  key x' = k -> k ∈ map key l -> find_by key k (replace_row key k x' l) = Some x'.
Proof.
  intros Hx. induction l as [|y l IH]; intros Hk; [by apply elem_of_nil in Hk|].
  rewrite replace_row_cons, find_by_cons. destruct (decide (key y = k)) as [Hy|Hy].
  - by rewrite bool_decide_true.
  - rewrite bool_decide_false by done. apply IH. apply elem_of_cons in Hk as [Hk|Hk]; [|done].
    by destruct Hy.
Qed.

(** Writing a row over itself changes nothing. *)
Lemma replace_row_self (l : list A) (x : A) :
  NoDup (map key l) -> x ∈ l -> replace_row key (key x) x l = l.
Proof.
  induction l as [|y l IH]; intros Hnd Hx; [done|]. simpl in Hnd.
  apply NoDup_cons in Hnd as [Hy Hnd]. rewrite replace_row_cons.
  destruct (decide (key y = key x)) as [Hyx|Hyx].
  - apply elem_of_cons in Hx as [->|Hx].
    + f_equal. apply replace_row_absent. done.
    + destruct Hy. rewrite Hyx. apply list_elem_of_fmap. eauto.
  - apply elem_of_cons in Hx as [->|Hx]; [done|]. f_equal. by apply IH.
Qed.

(** A lookup after the row with key [k] became [x']. *)
Lemma find_by_replace (l : list A) (k i : nat) (x' : A) :
  key x' = k -> NoDup (map key l) -> k ∈ map key l ->
  find_by key i (replace_row key k x' l) = if decide (i = k) then Some x' else find_by key i l.
Proof.
  intros Hx. induction l as [|y l IH]; intros Hnd Hk.
  - by apply elem_of_nil in Hk.
  - apply NoDup_cons in Hnd as [Hy Hnd]. rewrite replace_row_cons, !find_by_cons.
    destruct (decide (key y = k)) as [Hyk|Hyk].
    + rewrite Hx. rewrite replace_row_absent by (by rewrite <- Hyk).
      destruct (decide (i = k)) as [->|Hik].
      * by rewrite bool_decide_true.
      * rewrite !bool_decide_false by congruence. done.
    + assert (Hk' : k ∈ map key l) by (apply elem_of_cons in Hk as [->|Hk]; [done|done]).
      destruct (decide (i = k)) as [->|Hik].
      * rewrite bool_decide_false by congruence. rewrite IH by done. done.
      * case_bool_decide; [done|]. rewrite IH by done. done.
Qed.

(** A lookup after the rows with key [k] were removed. *)
Lemma find_by_filter_ne (l : list A) (k i : nat) :
  find_by key i (filter (fun q => key q ≠ k) l) = if decide (i = k) then None else find_by key i l.
Proof.
  induction l as [|y l IH]; [by case_decide|].
  destruct (decide (key y = k)) as [Hyk|Hyk].
  - rewrite filter_cons_False by (by intros []). rewrite find_by_cons, IH. case_decide as Hik; [done|].
    rewrite bool_decide_false; [done|lia].
  - rewrite filter_cons_True by done. rewrite !find_by_cons, IH. case_bool_decide as Hyi; [|done].
    rewrite decide_False; [done|lia].
Qed.
End find_by_nat.

(** Two rows of a list whose column [f] is UNIQUE and that agree on it
    are the same row. *)
Lemma NoDup_map_eq {A B} (f : A -> B) (l : list A) (x y : A) :
  NoDup (map f l) -> x ∈ l -> y ∈ l -> f x = f y -> x = y.
Proof.
  induction l as [|z l IH]; simpl; intros Hnd Hx Hy Hf; [by apply elem_of_nil in Hx|].
  apply NoDup_cons in Hnd as [Hz Hnd].
  apply elem_of_cons in Hx as [->|Hx]; apply elem_of_cons in Hy as [->|Hy]; [done| | |by apply IH].
  - destruct Hz. rewrite Hf. apply list_elem_of_fmap. eauto.
  - destruct Hz. rewrite <- Hf. apply list_elem_of_fmap. eauto.
Qed.

(** Every key of [l] is below [S (list_max l)], SQLite's next rowid. *)
Lemma list_max_succ_gt (l : list nat) (x : nat) :
  x ∈ l -> x < S (list_max l).
Proof.
  intros Hx. apply Nat.lt_succ_r.
  pose proof (proj1 (list_max_le l (list_max l)) (le_n _)) as Hf.
  rewrite Forall_forall in Hf. by apply Hf.
Qed.

#[export] Hint Resolve keys_increasing_snoc keys_increasing_filter list_max_succ_gt : blog.

(** ** Splitting a string at the first occurrence of a character:
    Python's [s.split(sep, 1)] when [sep] occurs, [None] otherwise. *)
Fixpoint split_once (sep : ascii) (s : string) : option (string * string) :=
  match s with
  | EmptyString => None
  | String c rest =>
      if Ascii.eqb c sep then Some (EmptyString, rest)
      else match split_once sep rest with
           | Some (a, b) => Some (String c a, b)
           | None => None
           end
  end.

(** stdpp makes [String.append] [simpl never]; these are its two
    equations. *)
Lemma string_app_String (c : ascii) (s1 s2 : string) :
  (String c s1 ++ s2)%string = String c (s1 ++ s2)%string.
Proof. done. Qed.

Lemma string_app_nil_l (s : string) : (EmptyString ++ s)%string = s.
Proof. done. Qed.

Lemma string_length_app (s1 s2 : string) :
  String.length (s1 ++ s2)%string = String.length s1 + String.length s2.
Proof. induction s1 as [|c s1 IH]; [done|]. rewrite string_app_String. simpl. by rewrite IH. Qed.

Lemma list_ascii_of_string_app (s1 s2 : string) :
  list_ascii_of_string (s1 ++ s2)%string = list_ascii_of_string s1 ++ list_ascii_of_string s2.
Proof. induction s1 as [|c s1 IH]; [done|]. rewrite string_app_String. simpl. by rewrite IH. Qed.

(** Two strings with the same suffix are equal when their prefixes are. *)
Lemma string_app_inv_r (s1 s2 s : string) : (s1 ++ s)%string = (s2 ++ s)%string -> s1 = s2.
Proof.
  intros H. apply (f_equal list_ascii_of_string) in H. rewrite !list_ascii_of_string_app in H.
  apply app_inv_tail in H. rewrite <- (string_of_list_ascii_of_string s1), H.
  apply string_of_list_ascii_of_string.
Qed.

Lemma string_app_inv_l (s s1 s2 : string) : (s ++ s1)%string = (s ++ s2)%string -> s1 = s2.
Proof. induction s as [|c s IH]; [done|]. rewrite !string_app_String. intros [= H]. by apply IH. Qed.

(** [sep] does not occur in [s]. *)
Definition char_free (sep : ascii) (s : string) : bool :=
  forallb (fun c => negb (Ascii.eqb c sep)) (list_ascii_of_string s).

Lemma split_once_app (sep : ascii) (a b : string) :
  char_free sep a = true -> split_once sep (a ++ String sep EmptyString ++ b)%string = Some (a, b).
Proof.
  induction a as [|c a IH]; simpl.
  - by rewrite Ascii.eqb_refl.
  - intros [Hc Ha]%andb_prop. apply negb_true_iff in Hc. rewrite Hc, IH; done.
Qed.

(** [decide_it]: close a decidable goal about concrete data by evaluating
    its decision procedure. *)
Ltac decide_it := apply (bool_decide_unpack _); vm_compute; exact I.

(** [invc H]: invert a hypothesis and substitute its equations. *)
Ltac invc H := inversion H; subst; clear H.
