(* ===== verification/DateStamp.v ===== *)
(** * DateStamp: [date.today().strftime("%B %d, %Y")] (line 246)

    The date a new post is stamped with.  [Date] is [datetime.date];
    [strftime_BdY] prints it as CPython does through glibc in the C
    locale: [%B] the English month name, [%d] the day on two digits with a
    leading zero, [%Y] the year in decimal without padding.  The stamp is
    stored in [blog_posts.date] and never parsed by the program; the
    theorem here is that it loses nothing: [parse_BdY] reads every stamp
    of a valid date back, so two valid dates never share a stamp. *)
From stdpp Require Import base list strings.
From Stdlib Require Import Ascii String DecimalString DecimalNat.
From S2P Require Import Prelude.

Local Open Scope string_scope.

(** [datetime.date]: year, month, day. *)
Record Date := mkDate { year : nat; month : nat; day : nat }.

(** [calendar.isleap] and the month lengths [datetime] checks. *)
Definition is_leap (y : nat) : bool :=
  (Nat.eqb (y mod 4) 0 && negb (Nat.eqb (y mod 100) 0)) || Nat.eqb (y mod 400) 0.

Definition days_in_month (y m : nat) : nat :=
  match m with
  | 2 => if is_leap y then 29 else 28
  | 4 | 6 | 9 | 11 => 30
  | _ => 31
  end.

(** The dates [datetime.date(y, m, d)] accepts ([MINYEAR] 1, [MAXYEAR] 9999). *)
Definition valid_date (d : Date) : bool :=
  bool_decide (1 <= year d <= 9999) && bool_decide (1 <= month d <= 12) &&
  bool_decide (1 <= day d <= days_in_month (year d) (month d)).

(** [%B] in the C locale. *)
Definition month_name (m : nat) : string :=
  match m with
  | 1 => "January" | 2 => "February" | 3 => "March" | 4 => "April"
  | 5 => "May" | 6 => "June" | 7 => "July" | 8 => "August"
  | 9 => "September" | 10 => "October" | 11 => "November" | 12 => "December"
  | _ => "?"
  end.

Definition digit (n : nat) : ascii := ascii_of_nat (48 + n).

(** [%d]: two decimal digits. *)
Definition fmt_d (n : nat) : string :=
  String (digit (n / 10)) (String (digit (n mod 10)) EmptyString).

(** [%Y]: the year in decimal. *)
Definition fmt_Y (y : nat) : string := NilZero.string_of_uint (Nat.to_uint y).

Definition strftime_BdY (d : Date) : string :=
  month_name (month d) ++ " " ++ fmt_d (day d) ++ ", " ++ fmt_Y (year d).

(** ** Reading a stamp back *)

Definition month_of_name (s : string) : option nat :=
  find (fun m => String.eqb (month_name m) s) (seq 1 12).

Definition digit_val (c : ascii) : nat := nat_of_ascii c - 48.

Definition parse_BdY (s : string) : option Date :=
  match split_once " " s with
  | Some (mn, String d1 (String d2 (String c1 (String c2 ys)))) =>
      if Ascii.eqb c1 "," && Ascii.eqb c2 " " then
        match month_of_name mn, NilZero.uint_of_string ys with
        | Some m, Some u => Some (mkDate (Nat.of_uint u) m (10 * digit_val d1 + digit_val d2))
        | _, _ => None
        end
      else None
  | _ => None
  end.

Lemma month_name_spec (m : nat) :
  1 <= m <= 12 -> char_free " " (month_name m) = true /\ month_of_name (month_name m) = Some m.
Proof.
  intros Hm. do 13 (destruct m as [|m]; [vm_compute; first [done | lia]|]). lia.
Qed.

Lemma digit_val_digit (n : nat) : n < 10 -> digit_val (digit n) = n.
Proof.
  intros Hn. unfold digit_val, digit. rewrite nat_ascii_embedding; lia.
Qed.

Lemma to_uint_not_nil (n : nat) : Nat.to_uint n <> Decimal.Nil.
Proof.
  intros H. pose proof (Unsigned.of_to n) as E. rewrite H in E. simpl in E. subst. done.
Qed.

(** C30: Round trip: the stamp of a valid date reads back as the date. *)
Lemma parse_strftime_BdY (d : Date) :
  valid_date d = true -> parse_BdY (strftime_BdY d) = Some d.
Proof.
  destruct d as [y m dd]. unfold valid_date. simpl.
  intros [[Hy Hm]%andb_prop Hd]%andb_prop.
  apply bool_decide_eq_true in Hy, Hm, Hd.
  destruct (month_name_spec m Hm) as [Hfree Hname].
  unfold parse_BdY, strftime_BdY. cbn [year month day]. rewrite split_once_app; [|done].
  unfold fmt_d. rewrite !string_app_String, string_app_nil_l.
  cbn -[digit fmt_Y month_of_name month_name NilZero.uint_of_string Nat.div Nat.modulo Nat.mul].
  rewrite Hname. unfold fmt_Y. rewrite string_app_nil_l. rewrite NilZero.usu by apply to_uint_not_nil.
  rewrite Unsigned.of_to, !digit_val_digit.
  - do 2 f_equal. pose proof (Nat.div_mod_eq dd 10). lia.
  - apply Nat.mod_upper_bound. lia.
  - assert (days_in_month y m <= 31) by (unfold days_in_month; repeat case_match; lia).
    apply Nat.Div0.div_lt_upper_bound. lia.
Qed.

Lemma parse_strftime_BdY_witness :
  parse_BdY (strftime_BdY (mkDate 2024 3 9)) = Some (mkDate 2024 3 9).
Proof. apply parse_strftime_BdY. reflexivity. Defined.

Example strftime_BdY_sample : strftime_BdY (mkDate 2024 3 9) = "March 09, 2024".
Proof. reflexivity. Qed.
