(* ===== verification/PasswordHash.v ===== *)
(** * Password hashing: werkzeug.security as [register] and [login] call it

    [register] stores [generate_password_hash(form_password, salt_length=8)]
    (line 147) and [login] tests [check_password_hash(user.password,
    form_password)] (line 173).  werkzeug is a library the source only
    calls, so this file states what the handlers rely on as the class
    [PasswordScheme], and implements it by werkzeug's storage format:
    [generate] writes ["<method>$<salt>$<hash>"], where the salt is drawn
    from letters and digits ([gen_salt]), and [check] splits the stored
    string with [pwhash.split("$", 2)] (a string without two ['$'] is
    rejected) and compares the recomputed hash with the stored one.  The
    key derivation function itself ([_hash_internal]: scrypt or pbkdf2) is
    a parameter, assumed injective in the password for a fixed method and
    salt: the idealisation that two passwords never collide.  [HashMethod]
    models [_hash_internal]'s handling of the method string and shows that
    werkzeug's own functions meet the laws of [PasswordScheme]. *)
From stdpp Require Import base list strings.
From Stdlib Require Import Ascii String.
From S2P Require Import Prelude.

Local Open Scope string_scope.

(** [werkzeug.security.SALT_CHARS]: ASCII letters and digits. *)
Definition is_salt_char (c : ascii) : bool :=
  let n := Ascii.nat_of_ascii c in
  (bool_decide (48 <= n <= 57)) || bool_decide (65 <= n <= 90) || bool_decide (97 <= n <= 122).

(** A salt [gen_salt(len)] can return: [len] characters of [SALT_CHARS]. *)
Definition is_salt (len : nat) (s : string) : bool :=
  bool_decide (String.length s = len) && forallb is_salt_char (list_ascii_of_string s).

(** What the handlers rely on.  [generate_password_hash pw salt] stands for
    the call with the salt that [gen_salt] drew. *)
Class PasswordScheme := {
  generate_password_hash : string -> string -> string;
  check_password_hash : string -> string -> bool;
  check_generate : forall pw salt len, is_salt len salt = true ->
    check_password_hash (generate_password_hash pw salt) pw = true;
  check_generate_other : forall pw pw' salt len, is_salt len salt = true -> pw ≠ pw' ->
    check_password_hash (generate_password_hash pw salt) pw' = false;
}.

Module Werkzeug.

(** [method, salt, hashval = pwhash.split("$", 2)]: [None] when the
    unpacking raises [ValueError]. *)
Definition split_pwhash (pwhash : string) : option (string * string * string) :=
  match split_once "$" pwhash with
  | Some (m, rest) =>
      match split_once "$" rest with
      | Some (s, h) => Some (m, s, h)
      | None => None
      end
  | None => None
  end.

Section scheme.
(** The method prefix, e.g. ["scrypt:32768:8:1"], and the key
    derivation [_hash_internal(method, salt, password)]. *)
Context (method : string) (hash_internal : string -> string -> string -> string).

Definition generate (pw salt : string) : string :=
  method ++ "$" ++ salt ++ "$" ++ hash_internal method salt pw.

(** [hmac.compare_digest(_hash_internal(method, salt, password), hashval)]
    after the split. *)
Definition check (pwhash pw : string) : bool :=
  match split_pwhash pwhash with
  | Some (m, s, h) => String.eqb (hash_internal m s pw) h
  | None => false
  end.
End scheme.

Lemma salt_char_free (len : nat) (salt : string) :
  is_salt len salt = true -> char_free "$" salt = true.
Proof.
  unfold is_salt, char_free. intros [_ Hs]%andb_prop.
  induction (list_ascii_of_string salt) as [|c l IH]; simpl in *; [done|].
  apply andb_prop in Hs as [Hc Hl]. rewrite IH; [|done].
  destruct (Ascii.eqb_spec c "$"%char) as [->|]; [done|done].
Qed.

Section laws.
Context (method : string) (hash_internal : string -> string -> string -> string).
Hypothesis method_char_free : char_free "$" method = true.

Lemma split_pwhash_generate (pw salt : string) :
  char_free "$" salt = true ->
  split_pwhash (generate method hash_internal pw salt) =
    Some (method, salt, hash_internal method salt pw).
Proof.
  intros Hs. unfold split_pwhash, generate.
  rewrite split_once_app; [|done]. by rewrite split_once_app.
Qed.

Lemma check_generate_ok (pw salt : string) (len : nat) :
  is_salt len salt = true ->
  check hash_internal (generate method hash_internal pw salt) pw = true.
Proof.
  intros Hs. unfold check. rewrite split_pwhash_generate; [|by eapply salt_char_free].
  apply String.eqb_refl.
Qed.

(** The key derivation does not collide on two passwords. *)
Hypothesis hash_internal_inj : forall m s p p',
  hash_internal m s p = hash_internal m s p' -> p = p'.

Lemma check_generate_wrong (pw pw' salt : string) (len : nat) :
  is_salt len salt = true -> pw ≠ pw' ->
  check hash_internal (generate method hash_internal pw salt) pw' = false.
Proof.
  intros Hs Hne. unfold check. rewrite split_pwhash_generate; [|by eapply salt_char_free].
  apply String.eqb_neq. intros Heq. apply Hne. symmetry. by eapply hash_internal_inj.
Qed.

(** werkzeug's format implements the interface the handlers use. *)
Definition werkzeug_scheme : PasswordScheme := {|
  generate_password_hash := generate method hash_internal;
  check_password_hash := check hash_internal;
  check_generate := check_generate_ok;
  check_generate_other := check_generate_wrong;
|}.
End laws.

(** An executable instance for evaluating examples: werkzeug's format
    with the method ["plain"] and the identity as key derivation. *)
Definition identity_kdf_scheme : PasswordScheme :=
  werkzeug_scheme "plain" (fun _ _ pw => pw) eq_refl (fun _ _ _ _ H => H).

Lemma check_generate_ok_witness :
  check (fun _ _ pw => pw) (generate "plain" (fun _ _ pw => pw) "pw" "abcdefgh") "pw" = true.
Proof. apply (check_generate_ok "plain" _ eq_refl "pw" "abcdefgh" 8). reflexivity. Defined.

Lemma check_generate_wrong_witness :
  check (fun _ _ pw => pw) (generate "plain" (fun _ _ pw => pw) "pw" "abcdefgh") "pW" = false.
Proof.
  apply (check_generate_wrong "plain" _ eq_refl (fun _ _ _ _ H => H) "pw" "pW" "abcdefgh" 8);
    [reflexivity|decide_it].
Defined.

Example generate_sample :
  generate "plain" (fun _ _ pw => pw) "pw" "abcdefgh" = "plain$abcdefgh$pw".
Proof. reflexivity. Qed.

End Werkzeug.
