(* ===== verification/HashMethod.v ===== *)
(** * HashMethod: werkzeug's [_hash_internal] and the strings it stores

    [register] stores [generate_password_hash(form_password, salt_length=8)]
    (line 147), with werkzeug's default method ["scrypt"]; [login] tests
    [check_password_hash(email_query.password, form_password)] (line 173).
    Both go through [werkzeug.security._hash_internal(method, salt,
    password)] (werkzeug 3), which splits the method on [":"], reads its
    parameters with [int()], runs the key derivation, and returns the hash
    together with the method written out in full (["scrypt"] becomes
    ["scrypt:32768:8:1"]).  [generate_password_hash] stores that full
    method before the salt; [check_password_hash] splits the stored string
    on ["$"] and parses the method again.

    This file models that code with Python's [str.split], [int()] and
    [str()] on integers.  hashlib's [scrypt] and [pbkdf2_hmac] are
    parameters, and they may raise [ValueError] on their arguments.
    [DEFAULT_PBKDF2_ITERATIONS] is a parameter too.  The salt is the one
    [gen_salt(8)] drew, as in [PasswordHash].

    The theorems:
    - the written-out method parses back to the same key derivation, so a
      stored hash is checked with the parameters it was made with;
    - a hash that line 147 stores verifies its own password and no other;
    - a stored string with two ["$"] whose method werkzeug does not know
      makes [check_password_hash] raise [ValueError], where a string
      without two ["$"] gives [False]. *)
From stdpp Require Import base list strings.
From Stdlib Require Import Ascii String ZArith DecimalString.
From Stdlib Require DecimalZ.
From S2P Require Import Prelude PasswordHash.

Local Open Scope string_scope.

Module HashMethod.

(** ** Python's [int()] and [str()] on integers *)

(** The characters [int()] strips: the ASCII whitespace of
    [str.isspace], including the separators 28-31. *)
Definition py_space (c : ascii) : bool :=
  let n := nat_of_ascii c in bool_decide (9 <= n <= 13) || bool_decide (28 <= n <= 32).

Fixpoint drop_spaces (l : list ascii) : list ascii :=
  match l with
  | c :: l' => if py_space c then drop_spaces l' else l
  | [] => []
  end.

Definition py_strip (l : list ascii) : list ascii := rev (drop_spaces (rev (drop_spaces l))).

(** The digits after a first digit: a single ["_"] may separate two
    digits. *)
Fixpoint py_digit_tail (l : list ascii) : option Decimal.uint :=
  match l with
  | [] => Some Decimal.Nil
  | c :: l' =>
      if Ascii.eqb c "_" then
        match l' with
        | d :: l'' => uint_of_char d (py_digit_tail l'')
        | [] => None
        end
      else uint_of_char c (py_digit_tail l')
  end.

Definition py_uint (l : list ascii) : option Decimal.uint :=
  match l with
  | d :: l' => uint_of_char d (py_digit_tail l')
  | [] => None
  end.

(** [int(s)] for a string of ASCII characters: [None] is its
    [ValueError]. *)
Definition py_int (s : string) : option Z :=
  match py_strip (list_ascii_of_string s) with
  | c :: l =>
      if Ascii.eqb c "-" then (fun u => Z.of_int (Decimal.Neg u)) <$> py_uint l
      else if Ascii.eqb c "+" then Z.of_uint <$> py_uint l
      else Z.of_uint <$> py_uint (c :: l)
  | [] => None
  end.

(** [str(n)] of an [int]. *)
Definition py_str (z : Z) : string := NilZero.string_of_int (Z.to_int z).

(** [s.split(sep)] with a separator of one character. *)
Fixpoint py_split (sep : ascii) (s : string) : list string :=
  match s with
  | EmptyString => [EmptyString]
  | String c s' =>
      if Ascii.eqb c sep then EmptyString :: py_split sep s'
      else match py_split sep s' with
           | r :: rs => String c r :: rs
           | [] => [String c EmptyString]
           end
  end.

(** ** [_hash_internal] *)

(** The key derivations werkzeug knows, with their parameters. *)
Inductive Kdf :=
| Scrypt (n r p : Z)
| Pbkdf2 (hash_name : string) (iterations : Z).

Section werkzeug.
(** [hashlib.scrypt(password, salt=salt, n=n, r=r, p=p, maxmem=132*n*r*p).hex()]
    and [hashlib.pbkdf2_hmac(hash_name, password, salt, iterations).hex()]. *)
Context (scrypt_hex : string -> string -> Z -> Z -> Z -> outcome string)
        (pbkdf2_hex : string -> string -> string -> Z -> outcome string)
        (DEFAULT_PBKDF2_ITERATIONS : Z).

(** [method, *args = method.split(":")] and the branches on [method]:
    [None] is the [ValueError] of a wrong number of arguments, of an
    argument [int()] rejects, or of an unknown method. *)
Definition parse_method (method : string) : option Kdf :=
  match py_split ":" method with
  | m :: args =>
      if String.eqb m "scrypt" then
        match args with
        | [] => Some (Scrypt (2 ^ 15) 8 1)
        | [a; b; c] => n ← py_int a; r ← py_int b; p ← py_int c; Some (Scrypt n r p)
        | _ => None
        end
      else if String.eqb m "pbkdf2" then
        match args with
        | [] => Some (Pbkdf2 "sha256" DEFAULT_PBKDF2_ITERATIONS)
        | [h] => Some (Pbkdf2 h DEFAULT_PBKDF2_ITERATIONS)
        | [h; i] => iterations ← py_int i; Some (Pbkdf2 h iterations)
        | _ => None
        end
      else None
  | [] => None
  end.

(** [f"scrypt:{n}:{r}:{p}"] and [f"pbkdf2:{hash_name}:{iterations}"]. *)
Definition method_string (k : Kdf) : string :=
  match k with
  | Scrypt n r p => "scrypt:" ++ py_str n ++ ":" ++ py_str r ++ ":" ++ py_str p
  | Pbkdf2 h i => "pbkdf2:" ++ h ++ ":" ++ py_str i
  end.

Definition run_kdf (k : Kdf) (salt password : string) : outcome string :=
  match k with
  | Scrypt n r p => scrypt_hex password salt n r p
  | Pbkdf2 h i => pbkdf2_hex h password salt i
  end.

(** [_hash_internal(method, salt, password)]: the hash and the actual
    method. *)
Definition hash_internal (method salt password : string) : outcome (string * string) :=
  match parse_method method with
  | Some k =>
      match run_kdf k salt password with
      | Ret h => Ret (h, method_string k)
      | Raise e => Raise e
      end
  | None => Raise ValueError
  end.

(** [generate_password_hash(password, method, salt_length)] after
    [salt = gen_salt(salt_length)]. *)
Definition generate_password_hash (password method salt : string) : outcome string :=
  match hash_internal method salt password with
  | Ret (h, actual_method) => Ret (actual_method ++ "$" ++ salt ++ "$" ++ h)
  | Raise e => Raise e
  end.

(** [check_password_hash(pwhash, password)]: only the split is inside
    the [try]; [hmac.compare_digest] compares the two hex strings. *)
Definition check_password_hash (pwhash password : string) : outcome bool :=
  match Werkzeug.split_pwhash pwhash with
  | None => Ret false
  | Some (method, salt, hashval) =>
      match hash_internal method salt password with
      | Ret (h, _) => Ret (String.eqb h hashval)
      | Raise e => Raise e
      end
  end.

(** Line 147: [generate_password_hash(form_password, salt_length=8)],
    with the default [method="scrypt"]; [salt] is what [gen_salt(8)]
    drew. *)
Definition register_hash (form_password salt : string) : outcome string :=
  generate_password_hash form_password "scrypt" salt.

(** Line 173: [check_password_hash(email_query.password, form_password)]. *)
Definition login_check (pwhash form_password : string) : outcome bool :=
  check_password_hash pwhash form_password.

(** Whether a key derivation's hash name is one [method.split(":")] can
    return. *)
Definition kdf_name_ok (k : Kdf) : bool :=
  match k with
  | Scrypt _ _ _ => true
  | Pbkdf2 h _ => char_free ":" h
  end.

(** The characters of [str(n)]. *)
Definition num_char (c : ascii) : bool :=
  Ascii.eqb c "-" || bool_decide (48 <= nat_of_ascii c <= 57).

(** ** Python's strings and integers *)

Lemma char_free_Forall (sep : ascii) (s : string) :
  char_free sep s = true <-> Forall (fun c => Ascii.eqb c sep = false) (list_ascii_of_string s).
Proof.
  unfold char_free. induction (list_ascii_of_string s) as [|c l IH]; simpl; [split; auto|].
  by rewrite andb_true_iff, Forall_cons, IH, negb_true_iff.
Qed.

Lemma char_free_app (sep : ascii) (a b : string) :
  char_free sep (a ++ b) = char_free sep a && char_free sep b.
Proof.
  induction a as [|c a IH]; [done|]. rewrite string_app_String.
  unfold char_free in *. simpl. rewrite IH. by rewrite andb_assoc.
Qed.

Lemma py_split_free (sep : ascii) (a : string) :
  char_free sep a = true -> py_split sep a = [a].
Proof.
  induction a as [|c a IH]; [done|]. unfold char_free. simpl.
  intros [Hc Ha]%andb_prop. apply negb_true_iff in Hc. by rewrite Hc, IH.
Qed.

Lemma py_split_app (sep : ascii) (a b : string) :
  char_free sep a = true -> py_split sep (a ++ String sep b) = a :: py_split sep b.
Proof.
  induction a as [|c a IH]; [simpl; by rewrite Ascii.eqb_refl|].
  rewrite string_app_String. unfold char_free. simpl.
  intros [Hc Ha]%andb_prop. apply negb_true_iff in Hc. by rewrite Hc, IH.
Qed.

(** No piece of [s.split(sep)] contains [sep]. *)
Lemma py_split_char_free (sep : ascii) (s : string) :
  Forall (fun x => char_free sep x = true) (py_split sep s).
Proof.
  induction s as [|c s IH]; simpl; [by repeat constructor|].
  destruct (Ascii.eqb c sep) eqn:E; [by constructor|].
  destruct (py_split sep s) as [|r rs]; [by repeat constructor; unfold char_free; simpl; rewrite E|].
  apply Forall_cons in IH as [Hr Hrs]. constructor; [|done].
  unfold char_free in *. simpl. by rewrite E, Hr.
Qed.

Lemma string_of_uint_num (u : Decimal.uint) :
  Forall (fun c => num_char c = true) (list_ascii_of_string (NilEmpty.string_of_uint u)).
Proof. induction u; simpl; by constructor. Qed.

Lemma py_str_num (z : Z) : Forall (fun c => num_char c = true) (list_ascii_of_string (py_str z)).
Proof.
  unfold py_str, NilZero.string_of_int, NilZero.string_of_uint.
  repeat case_match; simpl; repeat constructor; apply string_of_uint_num.
Qed.

Lemma num_char_not_space (c : ascii) : num_char c = true -> py_space c = false.
Proof. destruct c as [[] [] [] [] [] [] [] []]; by vm_compute. Qed.

Lemma num_char_not_sep (c : ascii) : num_char c = true ->
  Ascii.eqb c ":" = false /\ Ascii.eqb c "$" = false.
Proof. destruct c as [[] [] [] [] [] [] [] []]; by vm_compute. Qed.

Lemma py_str_free (z : Z) : char_free ":" (py_str z) = true /\ char_free "$" (py_str z) = true.
Proof.
  rewrite !char_free_Forall. pose proof (py_str_num z) as H.
  split; (eapply Forall_impl; [exact H|]); intros c Hc; apply (num_char_not_sep c Hc).
Qed.

Lemma drop_spaces_id (l : list ascii) :
  Forall (fun c => py_space c = false) l -> drop_spaces l = l.
Proof. destruct l as [|c l]; [done|]. intros [Hc _]%Forall_cons. simpl. by rewrite Hc. Qed.

Lemma py_strip_id (l : list ascii) :
  Forall (fun c => py_space c = false) l -> py_strip l = l.
Proof.
  intros H. unfold py_strip. rewrite (drop_spaces_id l H), drop_spaces_id, rev_involutive; [done|].
  by apply Forall_rev.
Qed.

Lemma py_digit_tail_uint (u : Decimal.uint) :
  py_digit_tail (list_ascii_of_string (NilEmpty.string_of_uint u)) = Some u.
Proof. induction u; simpl; rewrite ?IHu; reflexivity. Qed.

(** [int(str(n)) == n]. *)
Lemma py_int_py_str (z : Z) : py_int (py_str z) = Some z.
Proof.
  unfold py_int. rewrite py_strip_id.
  2:{ eapply Forall_impl; [apply py_str_num|]. apply num_char_not_space. }
  pose proof (DecimalZ.of_to z) as E. unfold py_str, NilZero.string_of_int.
  destruct (Z.to_int z) as [u|u]; rewrite <- E; destruct u; cbn; rewrite ?py_digit_tail_uint; reflexivity.
Qed.

#[local] Hint Resolve py_int_py_str : core.

(** ** The method string round trip *)

Lemma parse_method_name_ok (m : string) (k : Kdf) :
  parse_method m = Some k -> kdf_name_ok k = true.
Proof.
  unfold parse_method. pose proof (py_split_char_free ":" m) as Hf.
  destruct (py_split ":" m) as [|m0 args]; [done|]. apply Forall_cons in Hf as [_ Hf].
  repeat case_match; intros; simplify_option_eq; try done;
    repeat match goal with H : Forall _ (_ :: _) |- _ => apply Forall_cons in H as [? ?] end; done.
Qed.

Lemma parse_method_string (k : Kdf) :
  kdf_name_ok k = true -> parse_method (method_string k) = Some k.
Proof.
  destruct k as [n r p|h i]; simpl; intros Hk; unfold parse_method.
  - change ("scrypt:" ++ py_str n ++ ":" ++ py_str r ++ ":" ++ py_str p)%string with
      ("scrypt" ++ String ":" (py_str n ++ String ":" (py_str r ++ String ":" (py_str p))))%string.
    rewrite py_split_app, py_split_app, py_split_app, py_split_free by (done || apply py_str_free).
    simpl. by rewrite !py_int_py_str.
  - change ("pbkdf2:" ++ h ++ ":" ++ py_str i)%string with
      ("pbkdf2" ++ String ":" (h ++ String ":" (py_str i)))%string.
    rewrite py_split_app, py_split_app, py_split_free by (done || apply py_str_free).
    simpl. by rewrite !py_int_py_str.
Qed.

(** Round trip: the method [_hash_internal] writes into a stored
    hash ([f"scrypt:{n}:{r}:{p}"] or [f"pbkdf2:{hash_name}:{iterations}"])
    parses back to the key derivation and parameters it was read from,
    for every method werkzeug accepts; in particular ["scrypt"], the
    default of line 147, is stored as ["scrypt:32768:8:1"], which denotes
    the same scrypt. *)
Theorem parse_method_roundtrip (m : string) (k : Kdf) :
  parse_method m = Some k -> parse_method (method_string k) = Some k.
Proof. intros H. by apply parse_method_string, (parse_method_name_ok m). Qed.

(** What [_hash_internal] returns depends on the method only through the
    key derivation it denotes. *)
Lemma hash_internal_normal (m salt pw : string) (h m' : string) :
  hash_internal m salt pw = Ret (h, m') ->
  forall pw', hash_internal m' salt pw' = hash_internal m salt pw'.
Proof.
  unfold hash_internal. destruct (parse_method m) as [k|] eqn:Hk; [|done].
  destruct (run_kdf k salt pw); intros [= _ <-] pw'.
  by rewrite (parse_method_string k (parse_method_name_ok m k Hk)).
Qed.

(** C29: the failures of line 173.  [check_password_hash] only catches
    the [ValueError] of its split: a stored string without two ["$"] is a
    wrong password, but a stored string with two ["$"] whose method
    werkzeug does not know (such as the ["sha256$"] hashes werkzeug before
    2.3 wrote for [method="sha256"]) raises [ValueError], so [login]
    answers 500 instead of flashing "Password incorrect, Please try
    again". *)
Theorem login_check_errors (stored pw : string) :
  (Werkzeug.split_pwhash stored = None -> login_check stored pw = Ret false) /\
  (forall m salt h, Werkzeug.split_pwhash stored = Some (m, salt, h) -> parse_method m = None ->
     login_check stored pw = Raise ValueError).
Proof.
  unfold login_check, check_password_hash. split; [by intros ->|].
  intros m salt h -> Hm. unfold hash_internal. by rewrite Hm.
Qed.
End werkzeug.

(** ** A stored hash and its password *)

Section laws.
Context (scrypt_hex : string -> string -> Z -> Z -> Z -> outcome string)
        (pbkdf2_hex : string -> string -> string -> Z -> outcome string)
        (DEFAULT_PBKDF2_ITERATIONS : Z).
#[local] Abbreviation run := (run_kdf scrypt_hex pbkdf2_hex).
#[local] Abbreviation check := (check_password_hash scrypt_hex pbkdf2_hex DEFAULT_PBKDF2_ITERATIONS).
#[local] Abbreviation generate := (generate_password_hash scrypt_hex pbkdf2_hex DEFAULT_PBKDF2_ITERATIONS).

(** hashlib raises on the parameters it is given, never because of the
    password; and the key derivation does not collide on two passwords. *)
Hypothesis kdf_total : forall k salt pw pw' h,
  run k salt pw = Ret h -> exists h', run k salt pw' = Ret h'.
Hypothesis kdf_inj : forall k salt pw pw' h,
  run k salt pw = Ret h -> run k salt pw' = Ret h -> pw = pw'.

Lemma method_string_sep_free (k : Kdf) :
  (match k with Pbkdf2 h _ => char_free "$" h | _ => true end) = true ->
  char_free "$" (method_string k) = true.
Proof.
  destruct k; simpl; intros Hh; rewrite !char_free_app, ?Hh, !(proj2 (py_str_free _)); reflexivity.
Qed.

(** [check_password_hash] on a string [generate_password_hash] stored
    recomputes the stored key derivation on the candidate password. *)
Lemma check_stored (m salt pw pw' h : string) (k : Kdf) :
  parse_method DEFAULT_PBKDF2_ITERATIONS m = Some k -> char_free "$" salt = true ->
  char_free "$" (method_string k) = true ->
  check (method_string k ++ "$" ++ salt ++ "$" ++ h) pw' =
    outcome_map (fun h' => String.eqb h' h) (run k salt pw').
Proof.
  intros Hk Hs Hm. unfold check_password_hash.
  assert (E : Werkzeug.split_pwhash (method_string k ++ "$" ++ salt ++ "$" ++ h) =
              Some (method_string k, salt, h))
    by exact (Werkzeug.split_pwhash_generate (method_string k) (fun _ _ _ => h) Hm pw salt Hs).
  rewrite E. unfold hash_internal.
  rewrite (parse_method_string _ _ (parse_method_name_ok _ m k Hk)).
  by destruct (run k salt pw').
Qed.

(** What [generate_password_hash] stores: the written-out method, the
    salt and the hash. *)
Lemma generate_stored (pw m salt stored : string) :
  generate pw m salt = Ret stored ->
  exists k h, parse_method DEFAULT_PBKDF2_ITERATIONS m = Some k /\ run k salt pw = Ret h /\
    stored = method_string k ++ "$" ++ salt ++ "$" ++ h.
Proof.
  unfold generate_password_hash, hash_internal.
  destruct (parse_method _ m) as [k|]; [|done]. destruct (run k salt pw) as [h|] eqn:Hh; [|done].
  intros [= <-]. by exists k, h.
Qed.

(** Line 147 with werkzeug's default method: the stored string is
    ["scrypt:32768:8:1$<salt>$<hex>"]. *)
Lemma generate_scrypt (pw salt : string) :
  generate pw "scrypt" salt =
    outcome_map (fun h => "scrypt:32768:8:1$" ++ salt ++ "$" ++ h) (scrypt_hex pw salt (2 ^ 15) 8 1).
Proof. unfold generate_password_hash, hash_internal. simpl. by destruct (scrypt_hex _ _ _ _ _). Qed.

(** C28: the hash [register] stores (line 147: [generate_password_hash]
    with the default method ["scrypt"] and a salt of [gen_salt(8)])
    makes [check_password_hash] at line 173 answer [True] for the
    registered password and [False] for every other one: it never raises
    on such a string, because the method written into it parses again
    to the same scrypt ([parse_method_string]). *)
Theorem register_hash_verifies (pw salt stored : string) :
  is_salt 8 salt = true ->
  register_hash scrypt_hex pbkdf2_hex DEFAULT_PBKDF2_ITERATIONS pw salt = Ret stored ->
  login_check scrypt_hex pbkdf2_hex DEFAULT_PBKDF2_ITERATIONS stored pw = Ret true /\
  forall pw', pw' ≠ pw -> login_check scrypt_hex pbkdf2_hex DEFAULT_PBKDF2_ITERATIONS stored pw' = Ret false.
Proof.
  unfold register_hash, login_check. intros Hs Hg. destruct (generate_stored _ _ _ _ Hg) as (k & h & Hk & Hh & ->).
  assert (Hk' : parse_method DEFAULT_PBKDF2_ITERATIONS "scrypt" = Some (Scrypt (2 ^ 15) 8 1))
    by reflexivity.
  rewrite Hk' in Hk. injection Hk as <-.
  pose proof (Werkzeug.salt_char_free 8 salt Hs) as Hfree.
  assert (Hm : char_free "$" (method_string (Scrypt (2 ^ 15) 8 1)) = true)
    by (by apply method_string_sep_free).
  split; [rewrite (check_stored "scrypt" salt pw pw h _ Hk' Hfree Hm), Hh; cbn; by rewrite String.eqb_refl|].
  intros pw' Hne. rewrite (check_stored "scrypt" salt pw pw' h _ Hk' Hfree Hm). destruct (kdf_total _ salt pw pw' h Hh) as [h' Hh']. rewrite Hh'. cbn.
  f_equal. apply String.eqb_neq. intros ->. by apply Hne, (kdf_inj _ salt pw' pw h Hh').
Qed.
End laws.

(** A stand-in key derivation for evaluating examples: the hex of the
    password is the password. *)
Definition echo_scrypt : string -> string -> Z -> Z -> Z -> outcome string :=
  fun pw _ _ _ _ => Ret pw.
Definition echo_pbkdf2 : string -> string -> string -> Z -> outcome string :=
  fun _ pw _ _ => Ret pw.

Lemma echo_kdf_total k salt pw pw' h :
  run_kdf echo_scrypt echo_pbkdf2 k salt pw = Ret h ->
  exists h', run_kdf echo_scrypt echo_pbkdf2 k salt pw' = Ret h'.
Proof. destruct k; eauto. Qed.

Lemma echo_kdf_inj k salt pw pw' h :
  run_kdf echo_scrypt echo_pbkdf2 k salt pw = Ret h ->
  run_kdf echo_scrypt echo_pbkdf2 k salt pw' = Ret h -> pw = pw'.
Proof. destruct k; simpl; intros [= ->] [= ->]; done. Qed.

Lemma register_hash_verifies_witness :
  register_hash echo_scrypt echo_pbkdf2 600000 "pw" "abcdefgh" = Ret "scrypt:32768:8:1$abcdefgh$pw" /\
  login_check echo_scrypt echo_pbkdf2 600000 "scrypt:32768:8:1$abcdefgh$pw" "pw" = Ret true /\
  login_check echo_scrypt echo_pbkdf2 600000 "scrypt:32768:8:1$abcdefgh$pw" "pW" = Ret false.
Proof.
  destruct (register_hash_verifies echo_scrypt echo_pbkdf2 600000 echo_kdf_total echo_kdf_inj
              "pw" "abcdefgh" "scrypt:32768:8:1$abcdefgh$pw") as [H1 H2];
    [reflexivity|reflexivity|].
  split; [reflexivity|]. split; [exact H1|]. apply H2. done.
Defined.

Lemma login_check_errors_witness :
  login_check echo_scrypt echo_pbkdf2 600000 "secret" "pw" = Ret false /\
  login_check echo_scrypt echo_pbkdf2 600000 "sha256$abcdefgh$9f86d0" "pw" = Raise ValueError.
Proof.
  split.
  - apply (proj1 (login_check_errors echo_scrypt echo_pbkdf2 600000 "secret" "pw")). reflexivity.
  - apply (proj2 (login_check_errors echo_scrypt echo_pbkdf2 600000 "sha256$abcdefgh$9f86d0" "pw")
             "sha256" "abcdefgh" "9f86d0"); reflexivity.
Defined.

Lemma parse_method_roundtrip_witness :
  parse_method 600000 "scrypt" = Some (Scrypt 32768 8 1) /\
  method_string (Scrypt 32768 8 1) = "scrypt:32768:8:1" /\
  parse_method 600000 (method_string (Scrypt 32768 8 1)) = Some (Scrypt 32768 8 1).
Proof.
  split; [reflexivity|]. split; [reflexivity|].
  apply (parse_method_roundtrip 600000 "scrypt"). reflexivity.
Defined.

End HashMethod.
