(* ===== verification/Gravatar.v ===== *)
(** * Gravatar: the avatar links of the comment section (lines 55-62)

    [gravatar = Gravatar(app, size=100, rating='g', default='retro',
    force_default=False, force_lower=False, use_ssl=False, base_url=None)]
    registers flask_gravatar's object as the Jinja filter [gravatar].  The
    templates apply it to a comment author's email; the object builds the
    link.
    - [email.lower()] is taken when [force_lower] is set.
    - The scheme comes from [use_ssl].  When [use_ssl] is [None], it comes
      from the request.
    - [hashlib.md5(email.encode('utf-8')).hexdigest()] is a parameter.
    - The query is [?s={size}&d={default}&r={rating}], with [&f=y] when
      [force_default] is set.

    The theorem is the link every comment gets with the settings of lines
    55-62.  The link is plain [http].  The email is hashed as registered,
    not lowercased as Gravatar asks, so an address registered with capital
    letters shows the [retro] default instead of its owner's picture.  The
    link has no state and changes nothing. *)
From stdpp Require Import base list strings.
From Stdlib Require Import Ascii String ZArith.
From S2P Require Import Prelude HashMethod.

Local Open Scope string_scope.

Module Gravatar.
Import HashMethod.

(** The attributes [Gravatar.__init__] keeps. *)
Record Gravatar := mkGravatar {
  size : Z;
  rating : string;
  default : string;
  force_default : bool;
  force_lower : bool;
  use_ssl : option bool;
  base_url : option string;
}.

(** Lines 55-62. *)
Definition gravatar : Gravatar :=
  mkGravatar 100 "g" "retro" false false (Some false) None.

(** [str.lower()] on ASCII letters. *)
Definition ascii_lower (c : ascii) : ascii :=
  let n := nat_of_ascii c in
  if bool_decide (65 <= n <= 90) then ascii_of_nat (n + 32) else c.

Definition py_lower (s : string) : string :=
  string_of_list_ascii (map ascii_lower (list_ascii_of_string s)).

Section link.
(** [hashlib.md5(s.encode('utf-8')).hexdigest()]. *)
Context (md5_hexdigest : string -> string).

(** The filter applied as [email | gravatar]; [request_https] is
    [request.headers.get('X-Forwarded-Proto', request.scheme) == 'https'],
    which is read only when [use_ssl] is [None]. *)
Definition gravatar_link (g : Gravatar) (request_https : bool) (email : string) : string :=
  let email := if force_lower g then py_lower email else email in
  let ssl := match use_ssl g with Some b => b | None => request_https end in
  let url := match base_url g with
             | Some b => b ++ "avatar/"
             | None => if ssl then "https://secure.gravatar.com/avatar/"
                       else "http://www.gravatar.com/avatar/"
             end in
  let link := url ++ md5_hexdigest email ++ "?s=" ++ py_str (size g) ++ "&d=" ++ default g ++
              "&r=" ++ rating g in
  if force_default g then link ++ "&f=y" else link.
End link.

(** The link of lines 55-62: plain http, size 100, the [retro] default,
    rating [g], whatever the request's scheme. *)
Lemma gravatar_link_settings (md5_hexdigest : string -> string) (request_https : bool) (email : string) :
  gravatar_link md5_hexdigest gravatar request_https email =
    "http://www.gravatar.com/avatar/" ++ md5_hexdigest email ++ "?s=100&d=retro&r=g".
Proof. reflexivity. Qed.

(** Gravatar looks an address up by the MD5 of the address in lower
    case.  With [force_lower=False], an address registered with a capital
    letter gets a link other than the one for its owner's picture (for an
    MD5 without collisions). *)
Theorem gravatar_link_not_lowered (md5_hexdigest : string -> string) (request_https : bool)
    (email : string) :
  (forall a b, md5_hexdigest a = md5_hexdigest b -> a = b) -> py_lower email ≠ email ->
  gravatar_link md5_hexdigest gravatar request_https email ≠
    "http://www.gravatar.com/avatar/" ++ md5_hexdigest (py_lower email) ++ "?s=100&d=retro&r=g".
Proof.
  intros Hinj Hl. rewrite gravatar_link_settings. intros H.
  apply string_app_inv_l, string_app_inv_r, Hinj in H. by apply Hl.
Qed.

Lemma gravatar_link_not_lowered_witness :
  gravatar_link (fun s => s) gravatar false "Alice@example.com" ≠
    "http://www.gravatar.com/avatar/" ++ py_lower "Alice@example.com" ++ "?s=100&d=retro&r=g".
Proof. apply gravatar_link_not_lowered; [done|vm_compute; done]. Defined.

Example gravatar_link_sample :
  gravatar_link (fun s => s) gravatar true "Alice@example.com" =
    "http://www.gravatar.com/avatar/Alice@example.com?s=100&d=retro&r=g".
Proof. reflexivity. Qed.

End Gravatar.
