(* ===== verification/Schema.v ===== *)
(** * Schema: the three tables of [src/main.py] (lines 78-118)

    Each mapped class is a record with the columns of its table; a table
    is the list of its rows in rowid order, the order in which SQLite
    returns [SELECT * FROM t] without ORDER BY.  Every column is declared
    [Mapped[int]] or [Mapped[str]] without [Optional], so under SQLAlchemy
    2.0 it is NOT NULL: the record fields are total, and an operation that
    would store NULL raises [IntegrityError] instead.  The relationships
    ([User.posts], [BlogPost.comments], ...) are the queries on the foreign
    keys defined below.  [db_wf] is the invariant of the database. *)
From stdpp Require Import base list strings.
From Stdlib Require Import Sorted.
From S2P Require Import Prelude.

(** [class User(UserMixin, db.Model)], table [users]. *)
Record User := mkUser {
  user_id : nat;
  email : string;
  password : string;
  name : string;
}.

(** [class BlogPost(db.Model)], table [blog_posts]. *)
Record BlogPost := mkBlogPost {
  post_id : nat;
  title : string;
  subtitle : string;
  date : string;
  body : string;
  img_url : string;
  post_author_id : nat;
}.

(** [class Comment(db.Model)], table [comments]. *)
Record Comment := mkComment {
  comment_id : nat;
  comment_author_id : nat;
  comment_post_id : nat;
  text : string;
}.

#[export] Instance User_eq_dec : EqDecision User.
Proof. solve_decision. Defined.
#[export] Instance BlogPost_eq_dec : EqDecision BlogPost.
Proof. solve_decision. Defined.
#[export] Instance Comment_eq_dec : EqDecision Comment.
Proof. solve_decision. Defined.

(** The database [posts.db]: one list of rows per table. *)
Record Db := mkDb {
  users : list User;
  blog_posts : list BlogPost;
  comments : list Comment;
}.

Definition empty_db : Db := mkDb [] [] [].

(** An [INTEGER PRIMARY KEY] column is SQLite's rowid: a row inserted
    without an explicit key gets one more than the largest rowid in the
    table (1 in an empty table).  A deleted largest rowid is reused. *)
Definition next_rowid (ids : list nat) : nat := S (list_max ids).

(** [db.session.get(User, id)], the lookup behind [db.get_or_404]. *)
Definition get_user (db : Db) (id : nat) : option User :=
  find_by user_id id (users db).

Definition get_post (db : Db) (id : nat) : option BlogPost :=
  find_by post_id id (blog_posts db).

(** The relationship [BlogPost.comments] (back-populated by
    [Comment.parent_post]): the comments whose [post_id] is the post's. *)
Definition post_comments (db : Db) (pid : nat) : list Comment :=
  filter (fun c => comment_post_id c = pid) (comments db).

(** The relationships [User.posts] and [User.comments]. *)
Definition user_posts (db : Db) (uid : nat) : list BlogPost :=
  filter (fun p => post_author_id p = uid) (blog_posts db).

Definition user_comments (db : Db) (uid : nat) : list Comment :=
  filter (fun c => comment_author_id c = uid) (comments db).

(** ** Well-formedness of the database
    Rowids strictly increase in each table (so they are distinct); the
    UNIQUE columns [users.email] and [blog_posts.title] hold distinct
    values; every foreign key names an existing row. *)
Definition user_exists (db : Db) (uid : nat) : Prop :=
  uid ∈ map user_id (users db).

Definition post_exists (db : Db) (pid : nat) : Prop :=
  pid ∈ map post_id (blog_posts db).

#[export] Instance user_exists_dec db uid : Decision (user_exists db uid).
Proof. unfold user_exists. apply _. Defined.
#[export] Instance post_exists_dec db pid : Decision (post_exists db pid).
Proof. unfold post_exists. apply _. Defined.

Record db_wf (db : Db) : Prop := {
  wf_users_sorted : keys_increasing user_id (users db);
  wf_posts_sorted : keys_increasing post_id (blog_posts db);
  wf_comments_sorted : keys_increasing comment_id (comments db);
  wf_email_unique : NoDup (map email (users db));
  wf_title_unique : NoDup (map title (blog_posts db));
  wf_post_author : Forall (fun p => user_exists db (post_author_id p)) (blog_posts db);
  wf_comment_author : Forall (fun c => user_exists db (comment_author_id c)) (comments db);
  wf_comment_post : Forall (fun c => post_exists db (comment_post_id c)) (comments db);
}.

(** [db_wf] is decidable: a witness checks it by evaluation. *)
Lemma db_wf_iff db :
  (keys_increasing user_id (users db) /\ keys_increasing post_id (blog_posts db) /\
   keys_increasing comment_id (comments db) /\
   NoDup (map email (users db)) /\ NoDup (map title (blog_posts db)) /\
   Forall (fun p => user_exists db (post_author_id p)) (blog_posts db) /\
   Forall (fun c => user_exists db (comment_author_id c)) (comments db) /\
   Forall (fun c => post_exists db (comment_post_id c)) (comments db)) <-> db_wf db.
Proof. split; [intros ?; destruct_and!; by constructor|intros []; tauto]. Qed.

#[export] Instance db_wf_dec db : Decision (db_wf db) := decide_iff _ _ (db_wf_iff db).

(** What [db_wf] requires except the foreign key [comments.post_id]:
    SQLite enforces the UNIQUE columns and assigns the rowids, but it
    checks no foreign key unless [PRAGMA foreign_keys=ON], which the
    program never sets.  The threaded server keeps [db_core], not
    [db_wf]. *)
Record db_core (db : Db) : Prop := {
  core_users_sorted : keys_increasing user_id (users db);
  core_posts_sorted : keys_increasing post_id (blog_posts db);
  core_comments_sorted : keys_increasing comment_id (comments db);
  core_email_unique : NoDup (map email (users db));
  core_title_unique : NoDup (map title (blog_posts db));
  core_post_author : Forall (fun p => user_exists db (post_author_id p)) (blog_posts db);
  core_comment_author : Forall (fun c => user_exists db (comment_author_id c)) (comments db);
}.

(** Every comment names an existing post. *)
Definition comments_fk (db : Db) : Prop :=
  Forall (fun c => post_exists db (comment_post_id c)) (comments db).

Lemma db_wf_core db : db_wf db <-> db_core db /\ comments_fk db.
Proof. split; [intros []; by split; [constructor|]|intros [[] ?]; by constructor]. Qed.

Lemma db_core_iff db :
  (keys_increasing user_id (users db) /\ keys_increasing post_id (blog_posts db) /\
   keys_increasing comment_id (comments db) /\
   NoDup (map email (users db)) /\ NoDup (map title (blog_posts db)) /\
   Forall (fun p => user_exists db (post_author_id p)) (blog_posts db) /\
   Forall (fun c => user_exists db (comment_author_id c)) (comments db)) <-> db_core db.
Proof. split; [intros ?; destruct_and!; by constructor|intros []; tauto]. Qed.

#[export] Instance db_core_dec db : Decision (db_core db) := decide_iff _ _ (db_core_iff db).

(** ** Lookups *)

Lemma get_user_Some db id u :
  get_user db id = Some u -> u ∈ users db /\ user_id u = id.
Proof. apply find_by_Some_inv. Qed.

Lemma get_post_Some db id p :
  get_post db id = Some p -> p ∈ blog_posts db /\ post_id p = id.
Proof. apply find_by_Some_inv. Qed.

Lemma get_user_None db id : get_user db id = None <-> ~ user_exists db id.
Proof. apply find_by_None. Qed.

Lemma get_post_None db id : get_post db id = None <-> ~ post_exists db id.
Proof. apply find_by_None. Qed.

Lemma get_user_exists db id :
  user_exists db id -> exists u, get_user db id = Some u.
Proof.
  intros H. destruct (get_user db id) as [u|] eqn:E; [by eauto|].
  by apply get_user_None in E.
Qed.

(** A row of a well-formed table is found by its own key. *)
Lemma get_post_elem db p :
  db_wf db -> p ∈ blog_posts db -> get_post db (post_id p) = Some p.
Proof. intros Hwf. apply find_by_elem, keys_increasing_NoDup, Hwf. Qed.

Lemma get_user_elem db u :
  db_wf db -> u ∈ users db -> get_user db (user_id u) = Some u.
Proof. intros Hwf. apply find_by_elem, keys_increasing_NoDup, Hwf. Qed.

(** The next rowid is not the key of any row. *)
Lemma next_rowid_fresh {A} (key : A -> nat) (l : list A) (x : A) :
  x ∈ l -> key x < next_rowid (map key l).
Proof. intros Hx. apply list_max_succ_gt, list_elem_of_fmap. eauto. Qed.

Lemma next_rowid_not_in (ids : list nat) : next_rowid ids ∉ ids.
Proof. intros Hin. apply list_max_succ_gt in Hin. unfold next_rowid in Hin. lia. Qed.

#[export] Hint Resolve get_user_Some get_post_Some next_rowid_fresh next_rowid_not_in : blog.
