(* ===== verification/CredentialStore.v ===== *)
(** * Credential Store: the [users] table as [register] and [login] use it

    [select_user_by_email] is the query of lines 141 and 170;
    [insert_user] is [db.session.add(new_user); db.session.commit()]
    (lines 149-151): the new row gets the next rowid, and the commit fails
    with [IntegrityError] when the UNIQUE column [users.email] already
    holds the address.  The lemmas show what each returns and that the
    insertion keeps [db_wf]. *)
From stdpp Require Import base list strings.
From S2P Require Import Prelude Schema.

Module CredentialStore.

(** [db.session.execute(db.select(User).where(User.email == e)).scalar()]:
    the first matching row, or [None]. *)
Definition select_user_by_email (db : Db) (e : string) : option User :=
  find_by email e (users db).

(** [User(email=e, password=pw, name=n)], added and committed. *)
Definition insert_user (db : Db) (e pw n : string) : outcome (Db * User) :=
  let u := mkUser (next_rowid (map user_id (users db))) e pw n in
  if bool_decide (e ∈ map email (users db)) then Raise IntegrityError
  else Ret (mkDb (users db ++ [u]) (blog_posts db) (comments db), u).

Lemma select_user_by_email_Some db e u :
  select_user_by_email db e = Some u -> u ∈ users db /\ email u = e.
Proof. apply find_by_Some_inv. Qed.

Lemma select_user_by_email_None db e :
  select_user_by_email db e = None <-> e ∉ map email (users db).
Proof. apply find_by_None. Qed.

Lemma insert_user_dup db e pw n :
  e ∈ map email (users db) -> insert_user db e pw n = Raise IntegrityError.
Proof. intros H. unfold insert_user. by rewrite bool_decide_true. Qed.

Lemma insert_user_fresh db e pw n :
  e ∉ map email (users db) ->
  insert_user db e pw n =
    Ret (mkDb (users db ++ [mkUser (next_rowid (map user_id (users db))) e pw n])
              (blog_posts db) (comments db),
         mkUser (next_rowid (map user_id (users db))) e pw n).
Proof. intros H. unfold insert_user. by rewrite bool_decide_false. Qed.

(** A row appended with an email no other row has is the one the
    email query returns. *)
Lemma select_user_by_email_snoc db e pw n :
  e ∉ map email (users db) ->
  select_user_by_email
    (mkDb (users db ++ [mkUser (next_rowid (map user_id (users db))) e pw n])
          (blog_posts db) (comments db)) e =
    Some (mkUser (next_rowid (map user_id (users db))) e pw n).
Proof. intros He. by apply (find_by_snoc_new email (users db) (mkUser _ e pw n)). Qed.

(** The new user is found by its email after the insertion. *)
Lemma insert_user_select db e pw n db' u :
  insert_user db e pw n = Ret (db', u) ->
  select_user_by_email db' e = Some u.
Proof.
  unfold insert_user. case_bool_decide as He; [done|]. intros [= <- <-].
  by apply select_user_by_email_snoc.
Qed.

Lemma insert_user_core db e pw n db' u :
  db_core db -> insert_user db e pw n = Ret (db', u) -> db_core db'.
Proof.
  unfold insert_user. case_bool_decide as He; [done|]. intros Hwf [= <- <-].
  assert (Hmono : forall x, user_exists db x ->
            user_exists (mkDb (users db ++ [mkUser (next_rowid (map user_id (users db))) e pw n])
                              (blog_posts db) (comments db)) x).
  { unfold user_exists. simpl. intros x Hx. rewrite map_app. apply elem_of_app. by left. }
  destruct Hwf; constructor; simpl; try done.
  - apply keys_increasing_snoc; [done|]. intros y Hy. simpl. by apply next_rowid_fresh.
  - rewrite map_app. apply NoDup_app. split_and!; [done| |by apply NoDup_singleton].
    intros x Hx Hx'. apply list_elem_of_singleton in Hx' as ->. done.
  - eapply Forall_impl; [exact core_post_author|]. intros ??. by apply Hmono.
  - eapply Forall_impl; [exact core_comment_author|]. intros ??. by apply Hmono.
Qed.

Lemma insert_user_wf db e pw n db' u :
  db_wf db -> insert_user db e pw n = Ret (db', u) -> db_wf db'.
Proof.
  rewrite !db_wf_core. intros [Hc Hfk] E. split; [by eapply insert_user_core|].
  revert E. unfold insert_user. case_bool_decide; [done|]. by intros [= <- _].
Qed.

End CredentialStore.
