(* ===== verification/ContentStore.v ===== *)
(** * Content Store: the [blog_posts] and [comments] tables

    One definition per database action of the handlers:
    [all_posts] (lines 197-198), [get_or_404_post] (lines 205, 258, 281),
    [insert_post] (lines 240-249), [update_post] (lines 267-272),
    [delete_post_row] (lines 281-283) and [insert_comment] (lines
    215-217); [flush_post_update] is the edit's commit on a database
    that other requests may have changed since the post was read.  An insertion takes the next rowid; a commit that breaks the
    UNIQUE column [blog_posts.title] raises [IntegrityError] and changes
    nothing.  Deleting a post runs SQLAlchemy's default one-to-many rule
    for [BlogPost.comments] (no delete cascade): the unit of work sets
    [post_id] of every comment of the post to NULL, which the NOT NULL
    column [comments.post_id] ([Mapped[int]]) refuses, so the commit
    raises [IntegrityError] whenever the post has a comment.  The lemmas
    give each operation's result on every branch and show that each keeps
    [db_wf]. *)
From stdpp Require Import base list strings.
From S2P Require Import Prelude Schema.

Module ContentStore.

(** [db.session.execute(db.select(BlogPost)).scalars().all()]. *)
Definition all_posts (db : Db) : list BlogPost := blog_posts db.

(** [db.get_or_404(BlogPost, post_id)]. *)
Definition get_or_404_post (db : Db) (id : nat) : outcome BlogPost :=
  of_option (HTTPException 404) (get_post db id).

(** [BlogPost(title=t, subtitle=st, body=b, img_url=img, author=author,
    date=d)], added and committed. *)
Definition insert_post (db : Db) (t st b img : string) (author : User) (d : string)
    : outcome (Db * BlogPost) :=
  let p := mkBlogPost (next_rowid (map post_id (blog_posts db))) t st d b img
                      (user_id author) in
  if bool_decide (t ∈ map title (blog_posts db)) then Raise IntegrityError
  else Ret (mkDb (users db) (blog_posts db ++ [p]) (comments db), p).

(** The other posts: the rows a new title of [p] must differ from. *)
Definition other_posts (db : Db) (p : BlogPost) : list BlogPost :=
  filter (fun q => post_id q ≠ post_id p) (blog_posts db).

(** [post.title = t; post.subtitle = st; post.img_url = img;
    post.author = author; post.body = b; db.session.commit()]: an UPDATE
    of the row in place; its [date] is left as it was. *)
Definition update_post (db : Db) (p : BlogPost) (t st img : string) (author : User)
    (b : string) : outcome (Db * BlogPost) :=
  let p' := mkBlogPost (post_id p) t st (date p) b img (user_id author) in
  if bool_decide (t ∈ map title (other_posts db p)) then Raise IntegrityError
  else Ret (mkDb (users db)
                 (replace_row post_id (post_id p) p' (blog_posts db))
                 (comments db), p').

(** [db.session.delete(post); db.session.commit()]. *)
Definition delete_post_row (db : Db) (p : BlogPost) : outcome Db :=
  match post_comments db (post_id p) with
  | [] => Ret (mkDb (users db) (other_posts db p) (comments db))
  | _ :: _ => Raise IntegrityError
  end.

(** [Comment(text=txt, comment_author=author, parent_post=p)], added and
    committed; no constraint of [comments] can fail. *)
Definition insert_comment (db : Db) (txt : string) (author : User) (p : BlogPost)
    : Db * Comment :=
  let c := mkComment (next_rowid (map comment_id (comments db))) (user_id author)
                     (post_id p) txt in
  (mkDb (users db) (blog_posts db) (comments db ++ [c]), c).

(** The flush of [post], loaded as [p] and then given the form's values
    (lines 267-272), by SQLAlchemy's unit of work on the database as it is
    at commit time: only the columns whose new value differs from the
    loaded one are SET, and no UPDATE is emitted when none differs; the
    UPDATE selects the row by id, and one that matches no row (the post
    was deleted meanwhile) raises [StaleDataError]; a changed title that
    another row holds breaks the UNIQUE constraint.  [update_post] is the
    case where nothing else wrote the row ([flush_post_update_agrees]). *)
Definition merge_changes (p p' q : BlogPost) : BlogPost :=
  mkBlogPost (post_id q)
    (if decide (title p' = title p) then title q else title p')
    (if decide (subtitle p' = subtitle p) then subtitle q else subtitle p')
    (date q)
    (if decide (body p' = body p) then body q else body p')
    (if decide (img_url p' = img_url p) then img_url q else img_url p')
    (if decide (post_author_id p' = post_author_id p) then post_author_id q else post_author_id p').

Definition flush_post_update (db : Db) (p : BlogPost) (t st img : string) (author : User)
    (b : string) : outcome Db :=
  let p' := mkBlogPost (post_id p) t st (date p) b img (user_id author) in
  if decide (p' = p) then Ret db
  else match get_post db (post_id p) with
       | None => Raise StaleDataError
       | Some q =>
           if bool_decide (t ≠ title p /\ t ∈ map title (other_posts db q)) then Raise IntegrityError
           else Ret (mkDb (users db)
                          (replace_row post_id (post_id q) (merge_changes p p' q) (blog_posts db))
                          (comments db))
       end.

(** ** Lookup *)

Lemma get_or_404_post_Ret db id p :
  get_or_404_post db id = Ret p -> p ∈ blog_posts db /\ post_id p = id.
Proof. unfold get_or_404_post. destruct (get_post db id) eqn:E; intros [= <-]. eauto with blog. Qed.

Lemma get_or_404_post_missing db id :
  ~ post_exists db id -> get_or_404_post db id = Raise (HTTPException 404).
Proof. intros H. unfold get_or_404_post. apply get_post_None in H as ->. done. Qed.

Lemma get_or_404_post_Raise db id e : get_or_404_post db id = Raise e -> e = HTTPException 404.
Proof. unfold get_or_404_post. by destruct (get_post db id); intros [= <-]. Qed.

(** ** Insertion of a post *)

Lemma insert_post_dup db t st b img a d :
  t ∈ map title (blog_posts db) -> insert_post db t st b img a d = Raise IntegrityError.
Proof. intros H. unfold insert_post. by rewrite bool_decide_true. Qed.

Lemma insert_post_fresh db t st b img a d :
  t ∉ map title (blog_posts db) ->
  insert_post db t st b img a d =
    let p := mkBlogPost (next_rowid (map post_id (blog_posts db))) t st d b img (user_id a) in
    Ret (mkDb (users db) (blog_posts db ++ [p]) (comments db), p).
Proof. intros H. unfold insert_post. by rewrite bool_decide_false. Qed.

Lemma post_exists_snoc db p x :
  post_exists db x -> post_exists (mkDb (users db) (blog_posts db ++ [p]) (comments db)) x.
Proof. unfold post_exists. simpl. rewrite map_app, elem_of_app. by left. Qed.

Lemma insert_post_core db t st b img a d db' p :
  db_core db -> user_exists db (user_id a) ->
  insert_post db t st b img a d = Ret (db', p) -> db_core db'.
Proof.
  unfold insert_post. case_bool_decide as Ht; [done|]. intros Hwf Ha [= <- <-].
  destruct Hwf; constructor; simpl; try done.
  - apply keys_increasing_snoc; [done|]. intros y Hy. simpl. by apply next_rowid_fresh.
  - rewrite map_app. apply NoDup_app. split_and!; [done| |by apply NoDup_singleton].
    intros x Hx Hx'. apply list_elem_of_singleton in Hx' as ->. done.
  - apply Forall_app. split; [exact core_post_author|]. by apply Forall_singleton.
Qed.

Lemma insert_post_wf db t st b img a d db' p :
  db_wf db -> user_exists db (user_id a) ->
  insert_post db t st b img a d = Ret (db', p) -> db_wf db'.
Proof.
  rewrite !db_wf_core. intros [Hc Hfk] Ha E. split; [by eapply insert_post_core|].
  revert E. unfold insert_post. case_bool_decide; [done|]. intros [= <- _].
  eapply Forall_impl; [exact Hfk|]. intros x. apply post_exists_snoc.
Qed.

(** A new post has no comment, even when its rowid is one a deleted post
    had: no comment of a well-formed database names a missing post. *)
Lemma insert_post_no_comments db t st b img a d db' p :
  db_wf db -> insert_post db t st b img a d = Ret (db', p) ->
  post_comments db' (post_id p) = [].
Proof.
  unfold insert_post. case_bool_decide as Ht; [done|]. intros Hwf [= <- <-].
  unfold post_comments. simpl. apply filter_nil_iff. intros c Hc Heq.
  pose proof (wf_comment_post _ Hwf) as Hf. rewrite Forall_forall in Hf.
  specialize (Hf c Hc). unfold post_exists in Hf. rewrite Heq in Hf.
  by apply next_rowid_not_in in Hf.
Qed.

(** ** Update of a post *)

Lemma update_post_dup db p t st img a b :
  t ∈ map title (other_posts db p) -> update_post db p t st img a b = Raise IntegrityError.
Proof. intros H. unfold update_post. by rewrite bool_decide_true. Qed.

Lemma update_post_core db p t st img a b db' p' :
  db_core db -> user_exists db (user_id a) ->
  update_post db p t st img a b = Ret (db', p') -> db_core db'.
Proof.
  unfold update_post. case_bool_decide as Ht; [done|]. intros Hwf Ha [= <- <-].
  destruct Hwf; constructor; simpl; try done.
  - by apply keys_increasing_replace.
  - apply NoDup_col_replace; [by apply keys_increasing_NoDup|done|done].
  - by apply Forall_replace.
Qed.

Lemma update_post_wf db p t st img a b db' p' :
  db_wf db -> user_exists db (user_id a) ->
  update_post db p t st img a b = Ret (db', p') -> db_wf db'.
Proof.
  rewrite !db_wf_core. intros [Hc Hfk] Ha E. split; [by eapply update_post_core|].
  revert E. unfold update_post. case_bool_decide; [done|]. intros [= <- _].
  unfold comments_fk, post_exists. simpl. by rewrite map_key_replace.
Qed.

(** After the update, the post's key finds the new row, which keeps the
    post's date and has the new author. *)
Lemma update_post_get db p t st img a b db' p' :
  db_wf db -> p ∈ blog_posts db ->
  update_post db p t st img a b = Ret (db', p') ->
  get_post db' (post_id p) = Some p' /\ date p' = date p /\ post_author_id p' = user_id a.
Proof.
  intros Hwf Hp Hu. pose proof (update_post_wf db p t st img a b db' p' Hwf) as Hwf'.
  unfold update_post in *. case_bool_decide as Ht; [done|]. injection Hu as <- <-.
  split_and!; [|done|done].
  unfold get_post. simpl. apply (find_by_elem post_id _ (mkBlogPost _ _ _ _ _ _ _)).
  - rewrite map_key_replace; [|done]. apply keys_increasing_NoDup, Hwf.
  - apply list_elem_of_fmap. exists p. split; [by rewrite decide_True|done].
Qed.

(** Rerunning an update on its own result: the users are untouched, the
    post's key finds the updated row, and the same update of that row
    leaves the database as it is. *)
Lemma update_post_again db p t st img a b db' p' :
  p ∈ blog_posts db -> update_post db p t st img a b = Ret (db', p') ->
  users db' = users db /\ get_or_404_post db' (post_id p) = Ret p' /\
  update_post db' p' t st img a b = Ret (db', p').
Proof.
  unfold update_post. case_bool_decide as Ht; [done|]. intros Hp [= <- <-].
  split_and!; [done| |].
  - unfold get_or_404_post, get_post. cbn [blog_posts].
    rewrite find_by_replace_self; [done|done|]. apply list_elem_of_fmap. eauto.
  - unfold other_posts. cbn [blog_posts users comments post_id date].
    rewrite filter_replace_row_ne, bool_decide_false by done. by rewrite replace_row_idem.
Qed.

(** Titles being UNIQUE, a post's title is no other post's. *)
Lemma title_not_other db p :
  db_core db -> p ∈ blog_posts db -> title p ∉ map title (other_posts db p).
Proof.
  intros Hwf Hp Hin. apply list_elem_of_fmap in Hin as (q & Hq & Hqin).
  apply list_elem_of_filter in Hqin as [Hne Hqin]. apply Hne. f_equal.
  apply (NoDup_map_eq title (blog_posts db)); [apply Hwf|done|done|done].
Qed.

Lemma merge_changes_self p p' :
  post_id p' = post_id p -> date p' = date p -> merge_changes p p' p = p'.
Proof.
  destruct p, p'; simpl. intros -> ->. unfold merge_changes. simpl.
  by repeat case_decide; subst.
Qed.

(** When nothing else wrote the row since it was loaded, the flush is
    [update_post]'s UPDATE. *)
Lemma flush_post_update_agrees db p t st img a b :
  db_wf db -> p ∈ blog_posts db ->
  flush_post_update db p t st img a b = outcome_map fst (update_post db p t st img a b).
Proof.
  intros Hwf Hp. pose proof (title_not_other db p (proj1 (proj1 (db_wf_core db) Hwf)) Hp) as Ht.
  pose proof (keys_increasing_NoDup _ _ (wf_posts_sorted _ Hwf)) as Hk.
  unfold flush_post_update, update_post. rewrite (get_post_elem db p Hwf Hp).
  case_decide as Heq.
  - rewrite bool_decide_false by (rewrite <- Heq in Ht; exact Ht). simpl. rewrite Heq.
    rewrite replace_row_self by done. by destruct db.
  - rewrite merge_changes_self by done. destruct (decide (t = title p)) as [->|Htp].
    + rewrite !bool_decide_false by naive_solver. done.
    + rewrite (bool_decide_ext _ (t ∈ map title (other_posts db p))) by naive_solver.
      by case_bool_decide.
Qed.

(** ** Deletion of a post *)

Lemma delete_post_row_has_comments db p :
  post_comments db (post_id p) ≠ [] -> delete_post_row db p = Raise IntegrityError.
Proof. unfold delete_post_row. by destruct (post_comments db (post_id p)). Qed.

Lemma delete_post_row_ok db p :
  post_comments db (post_id p) = [] ->
  delete_post_row db p = Ret (mkDb (users db) (other_posts db p) (comments db)).
Proof. unfold delete_post_row. by intros ->. Qed.

Lemma delete_post_row_core db p db' :
  db_core db -> delete_post_row db p = Ret db' -> db_core db'.
Proof.
  unfold delete_post_row. destruct (post_comments db (post_id p)) eqn:Hc; [|done].
  intros Hwf [= <-]. destruct Hwf; constructor; simpl; try done.
  - by apply keys_increasing_filter.
  - by apply NoDup_map_filter.
  - apply Forall_forall. intros q Hq. apply list_elem_of_filter in Hq as [_ Hq].
    rewrite Forall_forall in core_post_author. by apply core_post_author.
Qed.

Lemma delete_post_row_wf db p db' :
  db_wf db -> delete_post_row db p = Ret db' -> db_wf db'.
Proof.
  rewrite !db_wf_core. intros [Hcore Hfk] E. split; [by eapply delete_post_row_core|].
  revert E. unfold delete_post_row. destruct (post_comments db (post_id p)) eqn:Hc; [|done].
  intros [= <-]. unfold post_comments in Hc. rewrite filter_nil_iff in Hc.
  unfold comments_fk in *. apply Forall_forall. intros c Hcin. rewrite Forall_forall in Hfk.
  specialize (Hfk c Hcin). specialize (Hc c Hcin).
  unfold post_exists in *. simpl. apply list_elem_of_fmap in Hfk as (q & Hq & Hql).
  apply list_elem_of_fmap. exists q. split; [done|]. apply list_elem_of_filter. split; [|done].
  congruence.
Qed.

(** ** Insertion of a comment *)

(** A comment whose post is gone keeps [db_core]: no constraint checks
    [comments.post_id]. *)
Lemma insert_comment_core db txt a p :
  db_core db -> user_exists db (user_id a) -> db_core (insert_comment db txt a p).1.
Proof.
  intros Hwf Ha. destruct Hwf; constructor; simpl; try done.
  - apply keys_increasing_snoc; [done|]. intros y Hy. simpl. by apply next_rowid_fresh.
  - apply Forall_app. split; [exact core_comment_author|]. by apply Forall_singleton.
Qed.

Lemma insert_comment_wf db txt a p :
  db_wf db -> user_exists db (user_id a) -> p ∈ blog_posts db ->
  db_wf (insert_comment db txt a p).1.
Proof.
  rewrite !db_wf_core. intros [Hc Hfk] Ha Hp. split; [by apply insert_comment_core|].
  apply Forall_app. split; [exact Hfk|]. apply Forall_singleton.
  unfold post_exists. apply list_elem_of_fmap. eauto.
Qed.

(** The flush of an edit keeps [db_core], whatever happened to the row
    since it was read. *)
Lemma flush_post_update_core db p t st img a b db' :
  db_core db -> user_exists db (user_id a) ->
  flush_post_update db p t st img a b = Ret db' -> db_core db'.
Proof.
  intros Hwf Ha. unfold flush_post_update. case_decide; [by intros [= <-]|].
  destruct (get_post db (post_id p)) as [q|] eqn:Eq; [|done].
  apply get_post_Some in Eq as [Hq _].
  case_bool_decide as Ht; [done|]. intros [= <-].
  pose proof (title_not_other db q Hwf Hq) as Hqt.
  destruct Hwf; constructor; simpl; try done.
  - by apply keys_increasing_replace.
  - apply NoDup_col_replace; [by apply keys_increasing_NoDup|done|]. unfold merge_changes. simpl.
    case_decide; [done|]. intros Hin. apply Ht. split; [done|exact Hin].
  - apply Forall_replace; [|done]. unfold merge_changes, user_exists in *. simpl.
    destruct (decide (user_id a = post_author_id p)); [|exact Ha].
    rewrite Forall_forall in core_post_author. by apply core_post_author.
Qed.

(** The flush changes the posts' ids and the comments in no way. *)
Lemma flush_post_update_keys db p t st img a b db' :
  flush_post_update db p t st img a b = Ret db' ->
  users db' = users db /\ map post_id (blog_posts db') = map post_id (blog_posts db) /\
  comments db' = comments db.
Proof.
  unfold flush_post_update. case_decide; [by intros [= <-]|].
  destruct (get_post db (post_id p)) as [q|]; [|done]. case_bool_decide; [done|].
  intros [= <-]. simpl. split_and!; [done| |done]. by rewrite map_key_replace.
Qed.

(** The post's comments gain exactly the new comment, at the end. *)
Lemma insert_comment_post_comments db txt a p :
  post_comments (insert_comment db txt a p).1 (post_id p) =
    post_comments db (post_id p) ++ [(insert_comment db txt a p).2].
Proof.
  unfold post_comments, insert_comment. simpl. rewrite filter_app, filter_cons_True; [|done].
  by rewrite filter_nil.
Qed.

End ContentStore.
