(* ===== verification/Store.v ===== *)
(** * Store: what one request can do to the database

    A request commits at most once, and each commit is one operation of
    [CredentialStore] or [ContentStore].  [store_step db db'] lists these
    effects: nothing, [insert_user] (line 151), [insert_post] (line 249),
    [update_post] (line 272), [delete_post_row] (line 283) and
    [insert_comment] (line 217), each with the facts the handler has
    established before it commits (the author is a registered user, the
    post was found).  The properties of the database that every request
    keeps are proved here once, on [store_step]: well-formedness, users
    that are only appended with the next rowid, comments that are never
    removed, and rowids that grow by at most one per request. *)
From stdpp Require Import base list strings.
From S2P Require Import Prelude Schema CredentialStore ContentStore.

Module Store.
Import CredentialStore ContentStore.

Inductive store_step : Db -> Db -> Prop :=
| ss_refl db : store_step db db
| ss_insert_user db e pw n db' u :
    insert_user db e pw n = Ret (db', u) -> store_step db db'
| ss_insert_post db t st b img a d db' p :
    user_exists db (user_id a) -> insert_post db t st b img a d = Ret (db', p) ->
    store_step db db'
| ss_update_post db p t st img a b db' p' :
    user_exists db (user_id a) -> update_post db p t st img a b = Ret (db', p') ->
    store_step db db'
| ss_delete_post db p db' :
    delete_post_row db p = Ret db' -> store_step db db'
| ss_insert_comment db txt a p :
    user_exists db (user_id a) -> p ∈ blog_posts db ->
    store_step db (insert_comment db txt a p).1.

(** What a step does to [users]: nothing, or [register]'s insertion of
    one row with the next rowid. *)
Definition users_step (db db' : Db) : Prop :=
  users db' = users db \/
  exists e pw n, users db' = users db ++ [mkUser (next_rowid (map user_id (users db))) e pw n].

(** Users are never deleted: the user ids only grow. *)
Definition users_grow (db db' : Db) : Prop :=
  forall uid, user_exists db uid -> user_exists db' uid.

(** Every rowid of every table is at most [k]. *)
Record ids_le (k : nat) (db : Db) : Prop := {
  ids_users : Forall (fun i => i <= k) (map user_id (users db));
  ids_posts : Forall (fun i => i <= k) (map post_id (blog_posts db));
  ids_comments : Forall (fun i => i <= k) (map comment_id (comments db));
}.

(** ** Generic facts *)

Lemma users_grow_refl db : users_grow db db.
Proof. by intros ?. Qed.

Lemma users_step_grow db db' : users_step db db' -> users_grow db db'.
Proof.
  intros [H|(e & pw & n & H)]; unfold users_grow, user_exists; rewrite H; [done|].
  intros x Hx. rewrite map_app, elem_of_app. by left.
Qed.

Lemma Forall_le_S (k : nat) (l : list nat) :
  Forall (fun i => i <= k) l -> Forall (fun i => i <= S k) l.
Proof. intros Hl. eapply Forall_impl; [exact Hl|]. intros x Hx; simpl in *; lia. Qed.

(** Appending the next rowid raises the bound by one. *)
Lemma Forall_le_next_rowid (k : nat) (l : list nat) :
  Forall (fun i => i <= k) l -> Forall (fun i => i <= S k) (l ++ [next_rowid l]).
Proof.
  intros Hl. apply Forall_app. split; [by apply Forall_le_S|].
  apply Forall_singleton. unfold next_rowid. apply le_n_S, list_max_le, Hl.
Qed.

Lemma Forall_le_map_filter {A} (f : A -> nat) (P : A -> Prop) `{forall x, Decision (P x)}
    (k : nat) (l : list A) :
  Forall (fun i => i <= k) (map f l) -> Forall (fun i => i <= k) (map f (filter P l)).
Proof.
  rewrite !Forall_forall. intros Hl i Hi. apply Hl.
  apply list_elem_of_fmap in Hi as (x & -> & Hx). apply list_elem_of_filter in Hx as [_ Hx].
  apply list_elem_of_fmap. eauto.
Qed.

Lemma ids_le_S k db : ids_le k db -> ids_le (S k) db.
Proof. intros []; constructor; by apply Forall_le_S. Qed.

#[export] Hint Resolve users_grow_refl users_step_grow Forall_le_S Forall_le_next_rowid
  Forall_le_map_filter ids_le_S : blog.

(** ** Each effect of a request *)

Lemma store_step_wf db db' : db_wf db -> store_step db db' -> db_wf db'.
Proof.
  intros Hwf Hs. destruct Hs as [db|db e pw n db' u E|db t st b img a d db' p Ha E|
                                 db p t st img a b db' p' Ha E|db p db' E|db txt a p Ha Hp].
  - done.
  - by eapply insert_user_wf.
  - by eapply insert_post_wf.
  - by eapply update_post_wf.
  - by eapply delete_post_row_wf.
  - by apply insert_comment_wf.
Qed.

Lemma store_step_users db db' : store_step db db' -> users_step db db'.
Proof.
  destruct 1 as [db|db e pw n db' u E|db t st b img a d db' p _ E|db p t st img a b db' p' _ E|
                 db p db' E|db txt a p _ _]; try by left.
  - right. exists e, pw, n. revert E. unfold insert_user. case_bool_decide; [done|]. by intros [= <- _].
  - left. revert E. unfold insert_post. case_bool_decide; [done|]. by intros [= <- _].
  - left. revert E. unfold update_post. case_bool_decide; [done|]. by intros [= <- _].
  - left. revert E. unfold delete_post_row. case_match; [|done]. by intros [= <-].
Qed.

Lemma store_step_grow db db' : store_step db db' -> users_grow db db'.
Proof. intros H. by apply users_step_grow, store_step_users. Qed.

(** No request removes a comment: the comments of [db] are a prefix of
    those of [db']. *)
Lemma store_step_comments db db' :
  store_step db db' -> exists l, comments db' = comments db ++ l.
Proof.
  destruct 1 as [db|db e pw n db' u E|db t st b img a d db' p _ E|db p t st img a b db' p' _ E|
                 db p db' E|db txt a p _ _]; try (exists []; by rewrite app_nil_r).
  - revert E. unfold insert_user. case_bool_decide; [done|]. intros [= <- _]. exists []. by rewrite app_nil_r.
  - revert E. unfold insert_post. case_bool_decide; [done|]. intros [= <- _]. exists []. by rewrite app_nil_r.
  - revert E. unfold update_post. case_bool_decide; [done|]. intros [= <- _]. exists []. by rewrite app_nil_r.
  - revert E. unfold delete_post_row. case_match; [|done]. intros [= <-]. exists []. by rewrite app_nil_r.
  - by eexists.
Qed.

(** A request adds at most one row, with the next rowid of its table:
    the largest rowid grows by at most one. *)
Lemma store_step_ids_le k db db' : ids_le k db -> store_step db db' -> ids_le (S k) db'.
Proof.
  intros [Hu Hp Hc].
  destruct 1 as [db|db e pw n db' u E|db t st b img a d db' p _ E|db p t st img a b db' p' _ E|
                 db p db' E|db txt a p _ _]; [by constructor; auto with blog|..].
  - revert E. unfold insert_user. case_bool_decide; [done|]. intros [= <- _].
    constructor; simpl; [rewrite map_app; by apply Forall_le_next_rowid|auto with blog..].
  - revert E. unfold insert_post. case_bool_decide; [done|]. intros [= <- _].
    constructor; simpl; [auto with blog|rewrite map_app; by apply Forall_le_next_rowid|auto with blog].
  - revert E. unfold update_post. case_bool_decide; [done|]. intros [= <- _].
    constructor; simpl; [auto with blog| |auto with blog].
    rewrite map_key_replace; auto with blog.
  - revert E. unfold delete_post_row. case_match; [|done]. intros [= <-].
    constructor; simpl; [auto with blog| |auto with blog]. unfold other_posts. auto with blog.
  - constructor; simpl; [auto with blog..|rewrite map_app; by apply Forall_le_next_rowid].
Qed.

(** ** The effects of the threaded server

    When a request's read and its commit are separate steps, two more
    effects appear: a comment committed for a post that may be gone
    meanwhile, and the flush of an edit on the row as it is at commit
    time.  [tstore_step] adds them to [store_step]. *)
Inductive tstore_step : Db -> Db -> Prop :=
| ts_store db db' : store_step db db' -> tstore_step db db'
| ts_comment db txt a p :
    user_exists db (user_id a) -> tstore_step db (insert_comment db txt a p).1
| ts_flush db p t st img a b db' :
    user_exists db (user_id a) -> flush_post_update db p t st img a b = Ret db' ->
    tstore_step db db'.

Lemma store_step_core db db' : db_core db -> store_step db db' -> db_core db'.
Proof.
  intros Hc Hs. destruct Hs as [db|db e pw n db' u E|db t st b img a d db' p Ha E|
                                db p t st img a b db' p' Ha E|db p db' E|db txt a p Ha Hp].
  - done.
  - by eapply insert_user_core.
  - by eapply insert_post_core.
  - by eapply update_post_core.
  - by eapply delete_post_row_core.
  - by apply insert_comment_core.
Qed.

Lemma tstore_step_core db db' : db_core db -> tstore_step db db' -> db_core db'.
Proof.
  intros Hc Hs'. destruct Hs' as [db0 db1 Hs|db0 txt a p Ha|db0 p t st img a b db1 Ha E].
  - by eapply store_step_core.
  - by apply insert_comment_core.
  - by eapply flush_post_update_core.
Qed.

Lemma tstore_step_users db db' : tstore_step db db' -> users_step db db'.
Proof.
  intros Hs'. destruct Hs' as [db0 db1 Hs|db0 txt a p _|db0 p t st img a b db1 _ E].
  - by apply store_step_users.
  - by left.
  - left. apply (flush_post_update_keys _ _ _ _ _ _ _ _ E).
Qed.

Lemma tstore_step_grow db db' : tstore_step db db' -> users_grow db db'.
Proof. intros H. by apply users_step_grow, tstore_step_users. Qed.

Lemma tstore_step_comments db db' :
  tstore_step db db' -> exists l, comments db' = comments db ++ l.
Proof.
  intros Hs'. destruct Hs' as [db0 db1 Hs|db0 txt a p _|db0 p t st img a b db1 _ E].
  - by apply store_step_comments.
  - by eexists.
  - exists []. rewrite app_nil_r. apply (flush_post_update_keys _ _ _ _ _ _ _ _ E).
Qed.

Lemma tstore_step_ids_le k db db' : ids_le k db -> tstore_step db db' -> ids_le (S k) db'.
Proof.
  intros Hk Hs'. destruct Hs' as [db0 db1 Hs|db0 txt a p _|db0 p t st img a b db1 _ E].
  - by eapply store_step_ids_le.
  - destruct Hk as [Hu Hp Hc].
    constructor; simpl; [auto with blog..|rewrite map_app; by apply Forall_le_next_rowid].
  - destruct (flush_post_update_keys _ _ _ _ _ _ _ _ E) as (Hu & Hp & Hc).
    apply ids_le_S. destruct Hk. constructor; by rewrite ?Hu, ?Hp, ?Hc.
Qed.

(** No effect removes a post that has a comment: the deletion of such a
    post fails at its commit. *)
Lemma tstore_step_post_kept db db' pid :
  post_exists db pid -> post_comments db pid ≠ [] -> tstore_step db db' -> post_exists db' pid.
Proof.
  unfold post_exists. intros Hp Hc Hs.
  destruct Hs as [db0 db1 Hs|db0 txt a p _|db0 p t st img a b db1 _ E]; [|done|].
  - destruct Hs as [db0|db0 e pw n db1 u E|db0 t st b img a d db1 p _ E|
                    db0 p t st img a b db1 p' _ E|db0 p db1 E|db0 txt a p _ _]; try done.
    + revert E. unfold insert_user. case_bool_decide; [done|]. by intros [= <- _].
    + revert E. unfold insert_post. case_bool_decide; [done|]. intros [= <- _].
      simpl. rewrite map_app, elem_of_app. by left.
    + revert E. unfold update_post. case_bool_decide; [done|]. intros [= <- _].
      simpl. by rewrite map_key_replace.
    + revert E. unfold delete_post_row. destruct (post_comments db0 (post_id p)) eqn:Ep; [|done].
      intros [= <-]. simpl. apply list_elem_of_fmap in Hp as (q & -> & Hq).
      apply list_elem_of_fmap. exists q. split; [done|]. apply list_elem_of_filter. split; [|done].
      intros Heq. apply Hc. by rewrite Heq.
  - destruct (flush_post_update_keys _ _ _ _ _ _ _ _ E) as (_ & -> & _). done.
Qed.

End Store.
