(* ===== verification/PostSpec.v ===== *)
(** * PostSpec: the Content Store's contract on posts, and its refinement

    Section 4.3 of the spec describes the posts as a store keyed by id:
    create with a unique title and a fresh id, update in place keeping the
    date, delete, look up.  [abs_posts] reads the [blog_posts] table of a
    database as that store, a [gmap] from post id to the post's columns;
    each theorem here shows that an operation of [ContentStore] performs
    the corresponding map operation on every branch: success is the
    [insert] or [delete] of the map, failure happens exactly when the
    contract's precondition fails.  The refinement needs [db_wf]: with
    repeated rowids the table would not be a function of the id. *)
From stdpp Require Import base list strings gmap.
From S2P Require Import Prelude Schema ContentStore.

Module PostSpec.
Import ContentStore.

(** A post as its readers see it: its columns without the key. *)
Record PostData := mkPostData {
  pd_title : string; pd_subtitle : string; pd_date : string;
  pd_body : string; pd_img_url : string; pd_author : nat }.

Definition post_data (p : BlogPost) : PostData :=
  mkPostData (title p) (subtitle p) (date p) (body p) (img_url p) (post_author_id p).

(** The abstraction: the table as a map from id to data. *)
Definition abs_posts (db : Db) : gmap nat PostData :=
  list_to_map (map (fun p => (post_id p, post_data p)) (blog_posts db)).

(** No post other than [except] has title [t]: the precondition of
    create ([except = None]) and of update ([except = Some id]). *)
Definition title_free (m : gmap nat PostData) (t : string) (except : option nat) : Prop :=
  forall i d, m !! i = Some d -> except ≠ Some i -> pd_title d ≠ t.

(** ** The abstraction commutes with lookups *)

Lemma abs_posts_lookup db i : abs_posts db !! i = post_data <$> get_post db i.
Proof.
  unfold abs_posts, get_post. induction (blog_posts db) as [|p l IH]; [done|].
  rewrite find_by_cons. cbn [map]. rewrite list_to_map_cons. simpl fst; simpl snd.
  case_bool_decide as Hp.
  - subst. by rewrite lookup_insert_eq.
  - by rewrite lookup_insert_ne.
Qed.

Lemma title_free_iff db t :
  db_wf db -> title_free (abs_posts db) t None <-> t ∉ map title (blog_posts db).
Proof.
  intros Hwf. split.
  - intros Hf Ht. apply list_elem_of_fmap in Ht as (p & -> & Hp).
    apply (Hf (post_id p) (post_data p)); [|done|done].
    by rewrite abs_posts_lookup, get_post_elem.
  - intros Ht i d Hi _ <-. rewrite abs_posts_lookup in Hi.
    destruct (get_post db i) as [p|] eqn:E; [|done]. injection Hi as <-.
    apply get_post_Some in E as [Hp _]. apply Ht. apply list_elem_of_fmap. eauto.
Qed.

Lemma title_free_other_iff db p t :
  db_wf db -> p ∈ blog_posts db ->
  title_free (abs_posts db) t (Some (post_id p)) <-> t ∉ map title (other_posts db p).
Proof.
  intros Hwf Hp. split.
  - intros Hf Ht. apply list_elem_of_fmap in Ht as (q & -> & Hq).
    apply list_elem_of_filter in Hq as [Hne Hq].
    apply (Hf (post_id q) (post_data q)); [|congruence|done].
    by rewrite abs_posts_lookup, get_post_elem.
  - intros Ht i d Hi Hne <-. rewrite abs_posts_lookup in Hi.
    destruct (get_post db i) as [q|] eqn:E; [|done]. injection Hi as <-.
    apply get_post_Some in E as [Hq <-]. apply Ht. apply list_elem_of_fmap.
    exists q. split; [done|]. apply list_elem_of_filter. split; [congruence|done].
Qed.

(** ** Refinement of create, update and delete *)

(** C25: [insert_post] implements create: it fails with [IntegrityError]
    exactly when another post has the title, and otherwise adds the new
    data under an id no post had. *)
Theorem insert_post_refines db t st b img a d :
  db_wf db ->
  match insert_post db t st b img a d with
  | Ret (db', p) =>
      title_free (abs_posts db) t None /\ abs_posts db !! post_id p = None /\
      abs_posts db' = <[post_id p := mkPostData t st d b img (user_id a)]> (abs_posts db)
  | Raise e => e = IntegrityError /\ ~ title_free (abs_posts db) t None
  end.
Proof.
  intros Hwf. unfold insert_post. case_bool_decide as Ht.
  { split; [done|]. rewrite title_free_iff by done. tauto. }
  split_and!; [by apply title_free_iff| |].
  - rewrite abs_posts_lookup. apply fmap_None, get_post_None, next_rowid_not_in.
  - apply map_eq. intros i. rewrite !abs_posts_lookup. unfold get_post. simpl.
    destruct (decide (i = next_rowid (map post_id (blog_posts db)))) as [->|Hi].
    + rewrite lookup_insert_eq.
      pose proof (find_by_snoc_new post_id (blog_posts db)
                    (mkBlogPost (next_rowid (map post_id (blog_posts db))) t st d b img (user_id a))
                    (next_rowid_not_in _)) as E.
      simpl in E. by rewrite E.
    + rewrite lookup_insert_ne by congruence. rewrite abs_posts_lookup.
      by rewrite find_by_snoc_other.
Qed.

(** C26: [update_post] implements update: it fails with [IntegrityError]
    exactly when a post other than [p] has the new title, and otherwise
    overwrites [p]'s entry, keeping its date. *)
Theorem update_post_refines db p t st img a b :
  db_wf db -> p ∈ blog_posts db ->
  match update_post db p t st img a b with
  | Ret (db', p') =>
      title_free (abs_posts db) t (Some (post_id p)) /\
      abs_posts db' = <[post_id p := mkPostData t st (date p) b img (user_id a)]> (abs_posts db)
  | Raise e => e = IntegrityError /\ ~ title_free (abs_posts db) t (Some (post_id p))
  end.
Proof.
  intros Hwf Hp. unfold update_post. case_bool_decide as Ht.
  { split; [done|]. rewrite title_free_other_iff by done. tauto. }
  split; [by apply title_free_other_iff|].
  apply map_eq. intros i. rewrite !abs_posts_lookup. unfold get_post. simpl.
  rewrite find_by_replace; [| done | apply keys_increasing_NoDup, Hwf | ].
  - destruct (decide (i = post_id p)) as [->|Hi].
    + by rewrite lookup_insert_eq.
    + by rewrite lookup_insert_ne, abs_posts_lookup by congruence.
  - apply list_elem_of_fmap. eauto.
Qed.

(** C27: [delete_post_row] implements delete only for a post without
    comments: it removes the post's entry when the post has none, and
    fails with [IntegrityError] exactly when it has one. *)
Theorem delete_post_row_refines db p :
  match delete_post_row db p with
  | Ret db' => post_comments db (post_id p) = [] /\
               abs_posts db' = delete (post_id p) (abs_posts db)
  | Raise e => e = IntegrityError /\ post_comments db (post_id p) ≠ []
  end.
Proof.
  unfold delete_post_row. destruct (post_comments db (post_id p)) eqn:Hc; [|done].
  split; [done|]. apply map_eq. intros i. rewrite !abs_posts_lookup. unfold get_post, other_posts.
  simpl. rewrite find_by_filter_ne. destruct (decide (i = post_id p)) as [->|Hi].
  - by rewrite lookup_delete_eq.
  - by rewrite lookup_delete_ne, abs_posts_lookup by congruence.
Qed.

(** Lookups: [get_or_404_post] is the map lookup, 404 when absent. *)
Lemma get_or_404_post_refines db id :
  outcome_map post_data (get_or_404_post db id) =
    of_option (HTTPException 404) (abs_posts db !! id).
Proof.
  rewrite abs_posts_lookup. unfold get_or_404_post. by destruct (get_post db id).
Qed.

Definition spec_db : Db :=
  mkDb [mkUser 1 "admin@blog.io" "h" "Admin"]
       [mkBlogPost 1 "Hello" "World" "March 07, 2024" "Body" "img" 1;
        mkBlogPost 2 "Quiet" "Post" "March 08, 2024" "Body" "img" 1]
       [mkComment 1 1 1 "Nice post"].

Lemma insert_post_refines_witness :
  match insert_post spec_db "News" "s" "b" "img" (mkUser 1 "admin@blog.io" "h" "Admin") "d" with
  | Ret (db', p) =>
      title_free (abs_posts spec_db) "News" None /\ abs_posts spec_db !! post_id p = None /\
      abs_posts db' = <[post_id p := mkPostData "News" "s" "d" "b" "img" 1]> (abs_posts spec_db)
  | Raise e => e = IntegrityError /\ ~ title_free (abs_posts spec_db) "News" None
  end.
Proof. apply insert_post_refines. decide_it. Defined.

Lemma update_post_refines_witness :
  match update_post spec_db (mkBlogPost 2 "Quiet" "Post" "March 08, 2024" "Body" "img" 1)
          "Hello" "s" "img" (mkUser 1 "admin@blog.io" "h" "Admin") "b" with
  | Ret (db', p') =>
      title_free (abs_posts spec_db) "Hello" (Some 2) /\
      abs_posts db' = <[2 := mkPostData "Hello" "s" "March 08, 2024" "b" "img" 1]> (abs_posts spec_db)
  | Raise e => e = IntegrityError /\ ~ title_free (abs_posts spec_db) "Hello" (Some 2)
  end.
Proof. apply update_post_refines; [decide_it|decide_it]. Defined.

End PostSpec.
