(* ===== verification/Session.v ===== *)
(** * Session: Flask-Login on the client's session cookie (lines 44-51)

    The session is a signed cookie; Flask-Login keeps the logged-in id
    in [session["_user_id"]] and [flash] appends to
    [session["_flashes"]].  [current_user] is resolved on first access
    by [_load_user]: no id gives the anonymous user, an id is handed to
    the [load_user] callback, which calls [db.get_or_404(User, user_id)]
    and so aborts the request with 404 when the id names no user.
    [login_user] binds the cookie to the user's id, [logout_user] first
    resolves the current user (as Flask-Login's [_get_user] does) and then
    removes the id. *)
From stdpp Require Import base list strings.
From S2P Require Import Prelude Schema.

Module Session.

Record Cookie := mkCookie {
  session_user_id : option nat;
  session_flashes : list string;
}.

Definition empty_cookie : Cookie := mkCookie None [].

(** [flash(message)]. *)
Definition flash (m : string) (c : Cookie) : Cookie :=
  mkCookie (session_user_id c) (session_flashes c ++ [m]).

(** The value of the proxy [current_user]: an [AnonymousUserMixin] or a
    [User] row. *)
Inductive Actor :=
| Anonymous
| Authenticated (u : User).

(** [load_user(user_id)]: [db.get_or_404(User, user_id)]. *)
Definition load_user (db : Db) (uid : nat) : outcome User :=
  of_option (HTTPException 404) (get_user db uid).

(** [current_user], through [LoginManager._load_user]. *)
Definition current_user (db : Db) (c : Cookie) : outcome Actor :=
  match session_user_id c with
  | None => Ret Anonymous
  | Some uid =>
      match load_user db uid with
      | Ret u => Ret (Authenticated u)
      | Raise e => Raise e
      end
  end.

(** [current_user.is_authenticated]: [UserMixin] answers [is_active],
    which is [True]; [AnonymousUserMixin] answers [False]. *)
Definition is_authenticated (a : Actor) : bool :=
  match a with Anonymous => false | Authenticated _ => true end.

(** [current_user.id]: [AnonymousUserMixin] has no attribute [id]. *)
Definition actor_id (a : Actor) : outcome nat :=
  match a with
  | Anonymous => Raise AttributeError
  | Authenticated u => Ret (user_id u)
  end.

(** [login_user(user)]: [session["_user_id"] = user.get_id()]. *)
Definition login_user (u : User) (c : Cookie) : Cookie :=
  mkCookie (Some (user_id u)) (session_flashes c).

(** [logout_user()]: [_get_user()], then [session.pop("_user_id")]. *)
Definition logout_user (db : Db) (c : Cookie) : outcome Cookie :=
  match current_user db c with
  | Ret _ => Ret (mkCookie None (session_flashes c))
  | Raise e => Raise e
  end.

(** ** Lemmas *)

Lemma current_user_anonymous db c :
  session_user_id c = None -> current_user db c = Ret Anonymous.
Proof. unfold current_user. by intros ->. Qed.

(** [current_user] only reads the users table. *)
Lemma current_user_same_users db db' c :
  users db' = users db -> current_user db' c = current_user db c.
Proof. intros H. unfold current_user, load_user, get_user. by rewrite H. Qed.

(** In a cookie bound to an existing user, [current_user] is that user. *)
Lemma current_user_bound db c uid :
  session_user_id c = Some uid -> user_exists db uid ->
  exists u, get_user db uid = Some u /\ current_user db c = Ret (Authenticated u).
Proof.
  unfold current_user, load_user. intros -> Hex.
  destruct (get_user_exists db uid Hex) as [u Hu]. exists u. by rewrite Hu.
Qed.

(** A cookie bound to an id that names no user fails every access to
    [current_user] with 404. *)
Lemma current_user_dangling db c uid :
  session_user_id c = Some uid -> ~ user_exists db uid ->
  current_user db c = Raise (HTTPException 404).
Proof.
  unfold current_user, load_user. intros -> Hn. apply get_user_None in Hn. by rewrite Hn.
Qed.

Lemma current_user_Ret_user db c u :
  current_user db c = Ret (Authenticated u) ->
  session_user_id c = Some (user_id u) /\ u ∈ users db.
Proof.
  unfold current_user, load_user.
  destruct (session_user_id c) as [uid|]; [|done].
  destruct (get_user db uid) as [v|] eqn:E; simpl; [|done]. intros [= <-].
  apply get_user_Some in E as [Hin <-]. done.
Qed.

End Session.
