(* ===== verification/Handlers.v ===== *)
(** * Handlers: the routes of [src/main.py] (lines 129-294)

    A request runs against a context [Ctx]: the database and the
    requesting client's cookie.  Each handler is a computation of the
    prelude's monad [St Ctx Page]; a raised exception becomes the error
    response (403/404 for [abort], 500 for the others).  The database
    only changes inside [st_commit], which applies a store operation of
    [CredentialStore] or [ContentStore] and, when the commit raises, leaves
    the database as it was (Flask-SQLAlchemy rolls the session back at the
    end of the request).  [admin_only] is the decorator of lines 224-232.
    The form classes of [forms.py] are not in [src/]: each is a record of
    the fields the handlers read, and a form argument [None] stands for
    [validate_on_submit()] returning [False] (a GET, or a POST the
    validators reject).  [dispatch] maps a request to its route. *)
From stdpp Require Import base list strings.
From S2P Require Import Prelude DateStamp PasswordHash Schema CredentialStore ContentStore Session.

Module Handlers.
Import CredentialStore ContentStore Session.
Local Open Scope string_scope.
Local Open Scope list_scope.
Local Open Scope blog_scope.

Record Ctx := mkCtx { ctx_db : Db; ctx_cookie : Cookie }.

(** [RegisterForm], [LoginForm], [CreatePostForm], [CommentForm]. *)
Record RegisterForm := mkRegisterForm {
  reg_email : string; reg_password : string; reg_name : string }.
Record LoginForm := mkLoginForm { login_email : string; login_password : string }.
Record CreatePostForm := mkCreatePostForm {
  form_title : string; form_subtitle : string; form_img_url : string; form_body : string }.
Record CommentForm := mkCommentForm { form_comment : string }.

(** The targets of [redirect(url_for(...))]. *)
Inductive Endpoint :=
| EP_get_all_posts
| EP_login
| EP_show_post (post_id : nat).

(** What a handler returns: a redirect, or a template with the data it
    is given. *)
Inductive Page :=
| Redirect (e : Endpoint)
| RenderRegister
| RenderLogin
| RenderIndex (all_posts : list BlogPost) (logged_in : bool)
| RenderPost (post : BlogPost) (comments : list Comment)
| RenderMakePost (is_edit : bool)
| RenderAbout
| RenderContact.

(** ** The request context *)

Definition st_db : St Ctx Db := fun ctx => (Ret (ctx_db ctx), ctx).

Definition st_flash (m : string) : St Ctx unit :=
  fun ctx => (Ret tt, mkCtx (ctx_db ctx) (flash m (ctx_cookie ctx))).

Definition st_current_user : St Ctx Actor :=
  fun ctx => (current_user (ctx_db ctx) (ctx_cookie ctx), ctx).

(** [current_user] used as the ORM object of a relationship. *)
Definition st_current_user_row : St Ctx User :=
  a <- st_current_user ;;
  match a with
  | Authenticated u => st_ret u
  | Anonymous => st_raise UnmappedInstanceError
  end.

Definition st_login_user (u : User) : St Ctx unit :=
  fun ctx => (Ret tt, mkCtx (ctx_db ctx) (login_user u (ctx_cookie ctx))).

Definition st_logout_user : St Ctx unit :=
  fun ctx => match logout_user (ctx_db ctx) (ctx_cookie ctx) with
             | Ret c => (Ret tt, mkCtx (ctx_db ctx) c)
             | Raise e => (Raise e, ctx)
             end.

(** [db.session.commit()] of the pending change [f]. *)
Definition st_commit {A} (f : Db -> outcome (Db * A)) : St Ctx A :=
  fun ctx => match f (ctx_db ctx) with
             | Ret (db', a) => (Ret a, mkCtx db' (ctx_cookie ctx))
             | Raise e => (Raise e, ctx)
             end.

(** ** The admin gate, lines 224-232 *)
Definition admin_only {A} (f : St Ctx A) : St Ctx A :=
  a <- st_current_user ;;
  i <- st_lift (actor_id a) ;;
  if decide (i ≠ 1) then st_raise (HTTPException 403) else f.

Section handlers.
Context `{PS : PasswordScheme}.

(** [register], lines 129-157; [salt] is what [gen_salt(8)] drew. *)
Definition register (salt : string) (form : option RegisterForm) : St Ctx Page :=
  match form with
  | None => st_ret RenderRegister
  | Some f =>
      db <- st_db ;;
      match select_user_by_email db (reg_email f) with
      | Some _ =>
          st_flash "Email is already registered. Please login." ;;;
          st_ret (Redirect EP_login)
      | None =>
          let hash_password := generate_password_hash (reg_password f) salt in
          new_user <- st_commit (fun db => insert_user db (reg_email f) hash_password (reg_name f)) ;;
          st_login_user new_user ;;;
          st_ret (Redirect EP_get_all_posts)
      end
  end.

(** [login], lines 161-186. *)
Definition login (form : option LoginForm) : St Ctx Page :=
  match form with
  | None => st_ret RenderLogin
  | Some f =>
      db <- st_db ;;
      match select_user_by_email db (login_email f) with
      | Some u =>
          if check_password_hash (password u) (login_password f) then
            st_login_user u ;;; st_ret (Redirect EP_get_all_posts)
          else
            st_flash "Password incorrect, Please try again" ;;; st_ret RenderLogin
      | None =>
          st_flash "The email does not exist. Please try again." ;;; st_ret RenderLogin
      end
  end.
End handlers.

(** [logout], lines 189-192. *)
Definition logout : St Ctx Page :=
  st_logout_user ;;; st_ret (Redirect EP_get_all_posts).

(** [get_all_posts], lines 195-199. *)
Definition get_all_posts : St Ctx Page :=
  db <- st_db ;;
  a <- st_current_user ;;
  st_ret (RenderIndex (all_posts db) (is_authenticated a)).

(** [render_template("post.html", post=requested_post, ...)]: the template
    reads [post.comments]. *)
Definition render_post (p : BlogPost) : St Ctx Page :=
  db <- st_db ;; st_ret (RenderPost p (post_comments db (post_id p))).

(** [show_post], lines 203-219. *)
Definition show_post (post_id : nat) (form : option CommentForm) : St Ctx Page :=
  db <- st_db ;;
  requested_post <- st_lift (get_or_404_post db post_id) ;;
  match form with
  | None => render_post requested_post
  | Some f =>
      a <- st_current_user ;;
      if negb (is_authenticated a) then
        st_flash "You need to login or register to comment." ;;;
        st_ret (Redirect EP_login)
      else
        author <- st_current_user_row ;;
        st_commit (fun db => Ret (insert_comment db (form_comment f) author requested_post)) ;;;
        render_post requested_post
  end.

(** [add_new_post], lines 235-251, under [admin_only]. *)
Definition add_new_post (today : Date) (form : option CreatePostForm) : St Ctx Page :=
  admin_only (
    match form with
    | None => st_ret (RenderMakePost false)
    | Some f =>
        author <- st_current_user_row ;;
        st_commit (fun db => insert_post db (form_title f) (form_subtitle f) (form_body f)
                                (form_img_url f) author (strftime_BdY today)) ;;;
        st_ret (Redirect EP_get_all_posts)
    end).

(** [edit_post], lines 255-274, under [admin_only]. *)
Definition edit_post (post_id : nat) (form : option CreatePostForm) : St Ctx Page :=
  admin_only (
    db <- st_db ;;
    post <- st_lift (get_or_404_post db post_id) ;;
    match form with
    | None => st_ret (RenderMakePost true)
    | Some f =>
        author <- st_current_user_row ;;
        post' <- st_commit (fun db => update_post db post (form_title f) (form_subtitle f)
                                        (form_img_url f) author (form_body f)) ;;
        st_ret (Redirect (EP_show_post (Schema.post_id post')))
    end).

(** [delete_post], lines 278-284, under [admin_only]. *)
Definition delete_post (post_id : nat) : St Ctx Page :=
  admin_only (
    db <- st_db ;;
    post_to_delete <- st_lift (get_or_404_post db post_id) ;;
    st_commit (fun db => outcome_map (fun db' => (db', tt)) (delete_post_row db post_to_delete)) ;;;
    st_ret (Redirect EP_get_all_posts)).

(** [about] and [contact], lines 287-294. *)
Definition about : St Ctx Page := st_ret RenderAbout.
Definition contact : St Ctx Page := st_ret RenderContact.

(** What a request reads from outside the program: today's date and the
    salt [gen_salt(8)] draws. *)
Record Env := mkEnv { env_today : Date; env_salt : string }.

(** The routes of [@app.route]. *)
Inductive Request :=
| RegisterReq (form : option RegisterForm)
| LoginReq (form : option LoginForm)
| LogoutReq
| IndexReq
| ShowPostReq (post_id : nat) (form : option CommentForm)
| NewPostReq (form : option CreatePostForm)
| EditPostReq (post_id : nat) (form : option CreatePostForm)
| DeleteReq (post_id : nat)
| AboutReq
| ContactReq.

Definition dispatch `{PS : PasswordScheme} (env : Env) (r : Request) : St Ctx Page :=
  match r with
  | RegisterReq f => register (env_salt env) f
  | LoginReq f => login f
  | LogoutReq => logout
  | IndexReq => get_all_posts
  | ShowPostReq id f => show_post id f
  | NewPostReq f => add_new_post (env_today env) f
  | EditPostReq id f => edit_post id f
  | DeleteReq id => delete_post id
  | AboutReq => about
  | ContactReq => contact
  end.

(** The routes decorated with [@admin_only]. *)
Definition is_admin_route (r : Request) : bool :=
  match r with
  | NewPostReq _ | EditPostReq _ _ | DeleteReq _ => true
  | _ => false
  end.

(** The status code of the response: a redirect is 302, a page 200, an
    [abort(code)] its code, an unhandled exception 500. *)
Definition status (o : outcome Page) : nat :=
  match o with
  | Ret (Redirect _) => 302
  | Ret _ => 200
  | Raise (HTTPException c) => c
  | Raise _ => 500
  end.

(** Unfold the request-context primitives of a handler. *)
Ltac st_unfold :=
  unfold st_current_user_row, st_bind, st_db, st_flash, st_current_user, st_login_user,
    st_logout_user, st_commit, st_ret, st_raise, st_lift;
  cbn [ctx_db ctx_cookie reg_email reg_password reg_name login_email login_password
       form_title form_subtitle form_img_url form_body form_comment].

(** ** The admin gate *)

Definition actor_of (ctx : Ctx) : outcome Actor := current_user (ctx_db ctx) (ctx_cookie ctx).

Lemma admin_only_forbidden {A} (f : St Ctx A) ctx u :
  actor_of ctx = Ret (Authenticated u) -> user_id u ≠ 1 ->
  admin_only f ctx = (Raise (HTTPException 403), ctx).
Proof.
  unfold admin_only, actor_of, st_bind, st_current_user. intros -> Hu. simpl.
  by rewrite decide_True.
Qed.

Lemma admin_only_admin {A} (f : St Ctx A) ctx u :
  actor_of ctx = Ret (Authenticated u) -> user_id u = 1 -> admin_only f ctx = f ctx.
Proof.
  unfold admin_only, actor_of, st_bind, st_current_user. intros -> Hu. simpl.
  rewrite decide_False; [done|]. lia.
Qed.

Lemma admin_only_anonymous {A} (f : St Ctx A) ctx :
  actor_of ctx = Ret Anonymous -> admin_only f ctx = (Raise AttributeError, ctx).
Proof. unfold admin_only, actor_of, st_bind, st_current_user. by intros ->. Qed.

Lemma admin_route_gate `{PasswordScheme} env r :
  is_admin_route r = true -> exists body : St Ctx Page, dispatch env r = admin_only body.
Proof. destruct r; simpl; try done; eauto. Qed.

(** ** Claims: the admin gate *)

(** C1: every admin route (new, edit, delete post) answers 403 to an
    authenticated user whose id is not 1, before it looks at the post id
    or the form, and changes neither the database nor the cookie. *)
Theorem admin_routes_forbid_non_admin `{PasswordScheme} env r ctx u :
  is_admin_route r = true -> actor_of ctx = Ret (Authenticated u) -> user_id u ≠ 1 ->
  dispatch env r ctx = (Raise (HTTPException 403), ctx).
Proof.
  intros Hr Hu Hid. destruct (admin_route_gate env r Hr) as [body ->].
  by apply (admin_only_forbidden _ _ u).
Qed.

(** C2: on an admin route, an anonymous client does not get the 403 the
    spec promises: [current_user.id] raises [AttributeError] on the
    anonymous user, and the request fails with a 500. *)
Theorem admin_routes_anonymous_error `{PasswordScheme} env r ctx :
  is_admin_route r = true -> session_user_id (ctx_cookie ctx) = None ->
  dispatch env r ctx = (Raise AttributeError, ctx) /\ status (Raise AttributeError) = 500.
Proof.
  intros Hr Hc. split; [|done]. destruct (admin_route_gate env r Hr) as [body ->].
  apply admin_only_anonymous. unfold actor_of. by apply current_user_anonymous.
Qed.

(** ** Claims: registration and login *)

Section credentials.
Context `{PS : PasswordScheme}.

Lemma select_user_by_email_registered db e :
  e ∈ map email (users db) -> exists u, select_user_by_email db e = Some u.
Proof.
  intros He. destruct (select_user_by_email db e) as [u|] eqn:E; [by eauto|].
  by apply select_user_by_email_None in E.
Qed.

(** C5: registering an email that is already registered flashes
    "Email is already registered. Please login.", redirects to the
    login page and leaves the database (the first user's row included)
    unchanged. *)
Theorem register_duplicate_email salt f ctx :
  reg_email f ∈ map email (users (ctx_db ctx)) ->
  register salt (Some f) ctx =
    (Ret (Redirect EP_login),
     mkCtx (ctx_db ctx) (flash "Email is already registered. Please login." (ctx_cookie ctx))).
Proof.
  intros He. destruct (select_user_by_email_registered _ _ He) as [u Hu].
  unfold register. st_unfold. by rewrite Hu.
Qed.

(** [register] with an email no user has: one insertion, then the login. *)
Lemma register_fresh salt f ctx :
  reg_email f ∉ map email (users (ctx_db ctx)) ->
  let db := ctx_db ctx in
  let u := mkUser (next_rowid (map user_id (users db))) (reg_email f)
                  (generate_password_hash (reg_password f) salt) (reg_name f) in
  register salt (Some f) ctx =
    (Ret (Redirect EP_get_all_posts),
     mkCtx (mkDb (users db ++ [u]) (blog_posts db) (comments db))
           (login_user u (ctx_cookie ctx))).
Proof.
  intros He. unfold register. st_unfold.
  rewrite (proj2 (select_user_by_email_None _ _) He). simpl.
  by rewrite insert_user_fresh.
Qed.

(** C6: registering a new email inserts exactly one row, with the next
    rowid, the salted hash of the password (never the password itself)
    and the name, logs the new user in and redirects to the listing. *)
Theorem register_new_user salt f ctx :
  reg_email f ∉ map email (users (ctx_db ctx)) ->
  let db := ctx_db ctx in
  let u := mkUser (next_rowid (map user_id (users db))) (reg_email f)
                  (generate_password_hash (reg_password f) salt) (reg_name f) in
  register salt (Some f) ctx =
    (Ret (Redirect EP_get_all_posts),
     mkCtx (mkDb (users db ++ [u]) (blog_posts db) (comments db))
           (login_user u (ctx_cookie ctx))).
Proof. apply register_fresh. Qed.

(** C4: round trip.  After a successful registration with a salt
    [gen_salt(8)] can draw, logging in with the same email and password
    (from any client) binds that client to the new user, and logging in
    with any other password flashes "Password incorrect, Please try
    again" and leaves the client's login state as it was. *)
Theorem register_then_login salt f ctx ctx' c :
  is_salt 8 salt = true ->
  register salt (Some f) ctx = (Ret (Redirect EP_get_all_posts), ctx') ->
  exists u, session_user_id (ctx_cookie ctx') = Some (user_id u) /\
    login (Some (mkLoginForm (reg_email f) (reg_password f))) (mkCtx (ctx_db ctx') c) =
      (Ret (Redirect EP_get_all_posts), mkCtx (ctx_db ctx') (login_user u c)) /\
    forall pw', pw' ≠ reg_password f ->
      login (Some (mkLoginForm (reg_email f) pw')) (mkCtx (ctx_db ctx') c) =
        (Ret RenderLogin, mkCtx (ctx_db ctx') (flash "Password incorrect, Please try again" c)).
Proof.
  intros Hs. unfold register. st_unfold.
  destruct (select_user_by_email (ctx_db ctx) (reg_email f)) eqn:Hsel; [done|].
  destruct (insert_user _ _ _ _) as [[db' u]|e] eqn:Hins; [|done]. intros [= <-].
  apply select_user_by_email_None in Hsel.
  rewrite insert_user_fresh in Hins by done. injection Hins as <- <-.
  pose proof (select_user_by_email_snoc _ _ (generate_password_hash (reg_password f) salt)
                (reg_name f) Hsel) as Hsel'.
  eexists; split_and!; [done| |].
  - unfold login. st_unfold. rewrite Hsel'. simpl. by rewrite (check_generate _ _ 8).
  - intros pw' Hne. unfold login. st_unfold. rewrite Hsel'. simpl.
    by rewrite (check_generate_other _ _ _ 8).
Qed.

(** C7: a login with an email no user has flashes "The email does not
    exist. Please try again.", renders the login page again, and does
    not bind the session. *)
Theorem login_unknown_email f ctx :
  login_email f ∉ map email (users (ctx_db ctx)) ->
  login (Some f) ctx =
    (Ret RenderLogin,
     mkCtx (ctx_db ctx) (flash "The email does not exist. Please try again." (ctx_cookie ctx))) /\
  session_user_id (flash "The email does not exist. Please try again." (ctx_cookie ctx)) =
    session_user_id (ctx_cookie ctx).
Proof.
  intros He. split; [|done]. unfold login. st_unfold.
  by rewrite (proj2 (select_user_by_email_None _ _) He).
Qed.
End credentials.

(** ** Claims: posts and comments *)

(** The admin's own row, as [current_user] is used for [author]. *)
Lemma st_current_user_row_admin ctx u :
  actor_of ctx = Ret (Authenticated u) -> st_current_user_row ctx = (Ret u, ctx).
Proof. unfold actor_of. intros Hu. unfold st_current_user_row, st_bind, st_current_user. by rewrite Hu. Qed.

Lemma get_or_404_post_found db id p :
  get_post db id = Some p -> get_or_404_post db id = Ret p.
Proof. unfold get_or_404_post. by intros ->. Qed.

(** C8: the admin creating a post whose title another post has gets the
    [IntegrityError] of the UNIQUE column [blog_posts.title] (a 500): no
    row is added. *)
Theorem add_new_post_duplicate_title today f ctx u :
  actor_of ctx = Ret (Authenticated u) -> user_id u = 1 ->
  form_title f ∈ map title (blog_posts (ctx_db ctx)) ->
  add_new_post today (Some f) ctx = (Raise IntegrityError, ctx).
Proof.
  intros Hu Hid Ht. unfold add_new_post. rewrite (admin_only_admin _ _ u) by done.
  unfold st_bind. rewrite (st_current_user_row_admin _ _ Hu). unfold st_commit.
  by rewrite insert_post_dup.
Qed.

(** C9: the admin creating a post with a new title appends exactly one
    row to the listing: the next rowid, the form's fields, today's
    "%B %d, %Y" stamp and author 1; the client is redirected to the
    listing. *)
Theorem add_new_post_creates today f ctx u :
  actor_of ctx = Ret (Authenticated u) -> user_id u = 1 ->
  form_title f ∉ map title (blog_posts (ctx_db ctx)) ->
  let db := ctx_db ctx in
  let p := mkBlogPost (next_rowid (map post_id (blog_posts db))) (form_title f)
             (form_subtitle f) (strftime_BdY today) (form_body f) (form_img_url f) 1 in
  add_new_post today (Some f) ctx =
    (Ret (Redirect EP_get_all_posts),
     mkCtx (mkDb (users db) (all_posts db ++ [p]) (comments db)) (ctx_cookie ctx)).
Proof.
  intros Hu Hid Ht. unfold add_new_post. rewrite (admin_only_admin _ _ u) by done.
  unfold st_bind. rewrite (st_current_user_row_admin _ _ Hu). unfold st_commit.
  rewrite insert_post_fresh by done. simpl. by rewrite Hid.
Qed.

(** C12: the admin editing an existing post with a title no other post
    has rewrites its title, subtitle, body and image in place, makes the
    admin its author, keeps its id and its date, and redirects to it. *)
Theorem edit_post_updates id f ctx u p :
  actor_of ctx = Ret (Authenticated u) -> user_id u = 1 ->
  get_post (ctx_db ctx) id = Some p ->
  form_title f ∉ map title (other_posts (ctx_db ctx) p) ->
  let db := ctx_db ctx in
  let p' := mkBlogPost id (form_title f) (form_subtitle f) (date p) (form_body f)
              (form_img_url f) 1 in
  edit_post id (Some f) ctx =
    (Ret (Redirect (EP_show_post id)),
     mkCtx (mkDb (users db) (replace_row post_id id p' (blog_posts db)) (comments db))
           (ctx_cookie ctx)).
Proof.
  intros Hu Hid Hp Ht. pose proof (get_post_Some _ _ _ Hp) as [_ Hpid].
  unfold edit_post. rewrite (admin_only_admin _ _ u) by done.
  unfold st_bind, st_db, st_lift. rewrite (get_or_404_post_found _ _ _ Hp).
  rewrite (st_current_user_row_admin _ _ Hu). unfold st_commit, update_post.
  rewrite bool_decide_false by done. simpl. by rewrite Hid, Hpid.
Qed.

(** C35: resubmitting the edit form is harmless: running [edit_post]
    twice with the same form, the second time on the context the first
    left, answers and leaves the database and the cookie exactly as
    running it once, whatever the first run did (403, 404, 500 or the
    update). *)
Theorem edit_post_idempotent id f ctx :
  (edit_post id (Some f) ;;; edit_post id (Some f)) ctx = edit_post id (Some f) ctx.
Proof.
  unfold edit_post, admin_only. st_unfold.
  destruct (current_user (ctx_db ctx) (ctx_cookie ctx)) as [a|e] eqn:Ea; [|done].
  destruct a as [|u]; [done|]. cbn [actor_id]. case_decide as Hid; [done|].
  destruct (get_or_404_post (ctx_db ctx) id) as [p|e] eqn:Ep; [|done]. rewrite Ea.
  destruct (update_post (ctx_db ctx) p (form_title f) (form_subtitle f) (form_img_url f) u
              (form_body f)) as [[db' p']|e] eqn:Eu; [|done].
  apply get_or_404_post_Ret in Ep as [Hp <-].
  destruct (update_post_again _ _ _ _ _ _ _ _ _ Hp Eu) as (Hu & Hg & Hu').
  cbn [ctx_db ctx_cookie]. rewrite (current_user_same_users _ _ _ Hu), Ea. cbn [actor_id].
  case_decide; [done|]. cbn [ctx_db ctx_cookie].
  rewrite Hg, (current_user_same_users _ _ _ Hu), Ea. cbn [ctx_db ctx_cookie]. by rewrite Hu'.
Qed.

(** C10: the admin deleting a post that has a comment gets an
    [IntegrityError] (a 500) and the post stays: SQLAlchemy sets the
    comments' [post_id] to NULL, which the NOT NULL column refuses. *)
Theorem delete_post_with_comments id ctx u p :
  actor_of ctx = Ret (Authenticated u) -> user_id u = 1 ->
  get_post (ctx_db ctx) id = Some p -> post_comments (ctx_db ctx) id ≠ [] ->
  delete_post id ctx = (Raise IntegrityError, ctx).
Proof.
  intros Hu Hid Hp Hc. pose proof (get_post_Some _ _ _ Hp) as [_ Hpid].
  unfold delete_post. rewrite (admin_only_admin _ _ u) by done.
  unfold st_bind, st_db, st_lift. rewrite (get_or_404_post_found _ _ _ Hp).
  unfold st_commit. rewrite delete_post_row_has_comments by (by rewrite Hpid). done.
Qed.

(** C11: the admin deleting a post without comments removes exactly that
    row and redirects to the listing. *)
Theorem delete_post_removes id ctx u p :
  actor_of ctx = Ret (Authenticated u) -> user_id u = 1 ->
  get_post (ctx_db ctx) id = Some p -> post_comments (ctx_db ctx) id = [] ->
  delete_post id ctx =
    (Ret (Redirect EP_get_all_posts),
     mkCtx (mkDb (users (ctx_db ctx)) (other_posts (ctx_db ctx) p) (comments (ctx_db ctx)))
           (ctx_cookie ctx)).
Proof.
  intros Hu Hid Hp Hc. pose proof (get_post_Some _ _ _ Hp) as [_ Hpid].
  unfold delete_post. rewrite (admin_only_admin _ _ u) by done.
  unfold st_bind, st_db, st_lift. rewrite (get_or_404_post_found _ _ _ Hp).
  unfold st_commit. rewrite delete_post_row_ok by (by rewrite Hpid). done.
Qed.

(** C13: an anonymous comment on an existing post creates no comment:
    the client gets "You need to login or register to comment." and a
    redirect to the login page. *)
Theorem show_post_anonymous_comment id f ctx :
  post_exists (ctx_db ctx) id -> session_user_id (ctx_cookie ctx) = None ->
  show_post id (Some f) ctx =
    (Ret (Redirect EP_login),
     mkCtx (ctx_db ctx) (flash "You need to login or register to comment." (ctx_cookie ctx))).
Proof.
  intros Hp Hc. destruct (get_post (ctx_db ctx) id) as [p|] eqn:E;
    [|by apply get_post_None in E].
  unfold show_post. st_unfold. rewrite (get_or_404_post_found _ _ _ E). simpl.
  by rewrite current_user_anonymous.
Qed.

(** C14: a logged-in user's comment on a post adds exactly one comment,
    authored by that user, at the end of the post's comments, and the
    post page shows them. *)
Theorem show_post_comment id f ctx u p :
  get_post (ctx_db ctx) id = Some p -> actor_of ctx = Ret (Authenticated u) ->
  let db := ctx_db ctx in
  let c := mkComment (next_rowid (map comment_id (comments db))) (user_id u) id (form_comment f) in
  let db' := mkDb (users db) (blog_posts db) (comments db ++ [c]) in
  show_post id (Some f) ctx =
    (Ret (RenderPost p (post_comments db id ++ [c])), mkCtx db' (ctx_cookie ctx)) /\
  post_comments db' id = post_comments db id ++ [c].
Proof.
  intros Hp Hu. pose proof (get_post_Some _ _ _ Hp) as [_ Hpid].
  pose proof (insert_comment_post_comments (ctx_db ctx) (form_comment f) u p) as Hc.
  simpl in Hc. rewrite Hpid in Hc. split; [|exact Hc].
  unfold show_post. unfold actor_of in Hu. st_unfold.
  rewrite (get_or_404_post_found _ _ _ Hp). cbn beta iota. rewrite Hu.
  cbn [negb is_authenticated]. unfold st_bind, st_current_user. rewrite Hu. cbn beta iota.
  unfold insert_comment, render_post, st_bind, st_db, st_ret. cbn [ctx_db ctx_cookie].
  rewrite Hpid in *. by rewrite Hc.
Qed.

(** C15: a post id that names no post is a 404 on every route that
    takes one, and nothing changes: viewing or commenting, whoever asks
    and whatever the form holds, and, for the admin (past the gate),
    editing and deleting. *)
Theorem missing_post_404 id form f ctx :
  ~ post_exists (ctx_db ctx) id ->
  show_post id form ctx = (Raise (HTTPException 404), ctx) /\
  forall u, actor_of ctx = Ret (Authenticated u) -> user_id u = 1 ->
    edit_post id f ctx = (Raise (HTTPException 404), ctx) /\
    delete_post id ctx = (Raise (HTTPException 404), ctx).
Proof.
  intros Hn. split.
  - unfold show_post. st_unfold. by rewrite get_or_404_post_missing.
  - intros u Hu Hid. unfold edit_post, delete_post. rewrite !(admin_only_admin _ _ u) by done.
    unfold st_bind, st_db, st_lift. by rewrite get_or_404_post_missing.
Qed.

(** C16: the admin renaming a post to a title another post has gets the
    [IntegrityError] of the UNIQUE column (a 500) and nothing changes. *)
Theorem edit_post_title_collision id f ctx u p :
  actor_of ctx = Ret (Authenticated u) -> user_id u = 1 ->
  get_post (ctx_db ctx) id = Some p ->
  form_title f ∈ map title (other_posts (ctx_db ctx) p) ->
  edit_post id (Some f) ctx = (Raise IntegrityError, ctx).
Proof.
  intros Hu Hid Hp Ht. unfold edit_post. rewrite (admin_only_admin _ _ u) by done.
  unfold st_bind, st_db, st_lift. rewrite (get_or_404_post_found _ _ _ Hp).
  rewrite (st_current_user_row_admin _ _ Hu). unfold st_commit. by rewrite update_post_dup.
Qed.

Section sessions.
Context `{PS : PasswordScheme}.

(** C18: a login with the right password binds the session to that user
    whatever it was bound to before: a client logged in as another user
    is switched without a logout, a transition the spec's two-state
    session machine does not list. *)
Theorem login_rebinds f ctx u :
  select_user_by_email (ctx_db ctx) (login_email f) = Some u ->
  check_password_hash (password u) (login_password f) = true ->
  login (Some f) ctx =
    (Ret (Redirect EP_get_all_posts),
     mkCtx (ctx_db ctx) (mkCookie (Some (user_id u)) (session_flashes (ctx_cookie ctx)))).
Proof. intros Hs Hc. unfold login. st_unfold. rewrite Hs. cbn beta iota. by rewrite Hc. Qed.
End sessions.

(** C19: logging out of a session bound to a registered user clears the
    binding and redirects to the listing. *)
Theorem logout_clears ctx uid :
  session_user_id (ctx_cookie ctx) = Some uid -> user_exists (ctx_db ctx) uid ->
  logout ctx =
    (Ret (Redirect EP_get_all_posts),
     mkCtx (ctx_db ctx) (mkCookie None (session_flashes (ctx_cookie ctx)))).
Proof.
  intros Hc He. destruct (current_user_bound _ _ _ Hc He) as (u & _ & Hu).
  unfold logout, st_bind, st_logout_user, logout_user. by rewrite Hu.
Qed.

(** ** Concrete inputs for the witnesses *)

Definition test_scheme : PasswordScheme := Werkzeug.identity_kdf_scheme.

Definition sample_db : Db :=
  mkDb [mkUser 1 "admin@blog.io" "plain$abcdefgh$adminpw" "Admin";
        mkUser 2 "reader@blog.io" "plain$abcdefgh$readerpw" "Reader"]
       [mkBlogPost 1 "Hello" "World" "March 07, 2024" "Body" "http://x/y.png" 1;
        mkBlogPost 2 "Quiet" "Post" "March 08, 2024" "Body" "http://x/z.png" 1]
       [mkComment 1 2 1 "Nice post"].

Definition sample_env : Env := mkEnv (mkDate 2024 3 9) "abcdefgh".

Definition as_client (uid : option nat) : Ctx := mkCtx sample_db (mkCookie uid []).

Definition admin_row : User := mkUser 1 "admin@blog.io" "plain$abcdefgh$adminpw" "Admin".
Definition reader_row : User := mkUser 2 "reader@blog.io" "plain$abcdefgh$readerpw" "Reader".

Lemma admin_routes_forbid_non_admin_witness :
  dispatch (PS := test_scheme) sample_env (EditPostReq 7 None) (as_client (Some 2)) =
    (Raise (HTTPException 403), as_client (Some 2)).
Proof. apply (admin_routes_forbid_non_admin _ _ _ reader_row); [reflexivity|reflexivity|simpl; lia]. Defined.

Lemma admin_routes_anonymous_error_witness :
  dispatch (PS := test_scheme) sample_env (DeleteReq 1) (as_client None) =
    (Raise AttributeError, as_client None) /\ status (Raise AttributeError) = 500.
Proof. apply admin_routes_anonymous_error; reflexivity. Defined.

Lemma register_duplicate_email_witness :
  register (PS := test_scheme) "abcdefgh" (Some (mkRegisterForm "reader@blog.io" "x" "Eve"))
    (as_client None) =
    (Ret (Redirect EP_login),
     mkCtx sample_db (flash "Email is already registered. Please login." empty_cookie)).
Proof. apply register_duplicate_email. decide_it. Defined.

Lemma register_new_user_witness :
  let f := mkRegisterForm "new@blog.io" "pw" "New" in
  register (PS := test_scheme) "abcdefgh" (Some f) (as_client None) =
    (Ret (Redirect EP_get_all_posts),
     mkCtx (mkDb (users sample_db ++ [mkUser 3 "new@blog.io" "plain$abcdefgh$pw" "New"])
                 (blog_posts sample_db) (comments sample_db))
           (login_user (mkUser 3 "new@blog.io" "plain$abcdefgh$pw" "New") empty_cookie)).
Proof.
  apply (register_new_user (PS := test_scheme) "abcdefgh" (mkRegisterForm "new@blog.io" "pw" "New")).
  decide_it.
Defined.

Lemma register_then_login_witness :
  exists u, session_user_id (ctx_cookie (register (PS := test_scheme) "abcdefgh"
      (Some (mkRegisterForm "new@blog.io" "pw" "New")) (as_client None)).2) = Some (user_id u) /\
    login (PS := test_scheme) (Some (mkLoginForm "new@blog.io" "pw"))
      (mkCtx (ctx_db (register (PS := test_scheme) "abcdefgh"
          (Some (mkRegisterForm "new@blog.io" "pw" "New")) (as_client None)).2) empty_cookie) =
      (Ret (Redirect EP_get_all_posts),
       mkCtx (ctx_db (register (PS := test_scheme) "abcdefgh"
          (Some (mkRegisterForm "new@blog.io" "pw" "New")) (as_client None)).2)
         (login_user u empty_cookie)) /\
    forall pw', pw' ≠ "pw" ->
      login (PS := test_scheme) (Some (mkLoginForm "new@blog.io" pw'))
        (mkCtx (ctx_db (register (PS := test_scheme) "abcdefgh"
            (Some (mkRegisterForm "new@blog.io" "pw" "New")) (as_client None)).2) empty_cookie) =
        (Ret RenderLogin,
         mkCtx (ctx_db (register (PS := test_scheme) "abcdefgh"
            (Some (mkRegisterForm "new@blog.io" "pw" "New")) (as_client None)).2)
           (flash "Password incorrect, Please try again" empty_cookie)).
Proof.
  apply (register_then_login (PS := test_scheme) "abcdefgh"
           (mkRegisterForm "new@blog.io" "pw" "New") (as_client None)); [reflexivity|].
  vm_compute. reflexivity.
Defined.

Lemma login_unknown_email_witness :
  login (PS := test_scheme) (Some (mkLoginForm "ghost@blog.io" "pw")) (as_client None) =
    (Ret RenderLogin,
     mkCtx sample_db (flash "The email does not exist. Please try again." empty_cookie)) /\
  session_user_id (flash "The email does not exist. Please try again." empty_cookie) =
    session_user_id empty_cookie.
Proof.
  apply (login_unknown_email (PS := test_scheme) (mkLoginForm "ghost@blog.io" "pw") (as_client None)).
  decide_it.
Defined.

Definition hello_post : BlogPost :=
  mkBlogPost 1 "Hello" "World" "March 07, 2024" "Body" "http://x/y.png" 1.
Definition quiet_post : BlogPost :=
  mkBlogPost 2 "Quiet" "Post" "March 08, 2024" "Body" "http://x/z.png" 1.

Lemma add_new_post_duplicate_title_witness :
  add_new_post (mkDate 2024 3 9) (Some (mkCreatePostForm "Hello" "Again" "img" "text"))
    (as_client (Some 1)) = (Raise IntegrityError, as_client (Some 1)).
Proof. apply (add_new_post_duplicate_title _ _ _ admin_row); [reflexivity|reflexivity|decide_it]. Defined.

Lemma add_new_post_creates_witness :
  add_new_post (mkDate 2024 3 9) (Some (mkCreatePostForm "News" "Sub" "img" "text"))
    (as_client (Some 1)) =
    (Ret (Redirect EP_get_all_posts),
     mkCtx (mkDb (users sample_db)
                 (all_posts sample_db ++
                  [mkBlogPost (next_rowid (map post_id (blog_posts sample_db))) "News" "Sub"
                     (strftime_BdY (mkDate 2024 3 9)) "text" "img" 1])
                 (comments sample_db))
           (mkCookie (Some 1) [])).
Proof.
  refine (add_new_post_creates (mkDate 2024 3 9) (mkCreatePostForm "News" "Sub" "img" "text")
            (as_client (Some 1)) admin_row eq_refl eq_refl _).
  decide_it.
Defined.

Lemma edit_post_updates_witness :
  edit_post 1 (Some (mkCreatePostForm "Hello again" "Sub" "img" "text")) (as_client (Some 1)) =
    (Ret (Redirect (EP_show_post 1)),
     mkCtx (mkDb (users sample_db)
                 (replace_row post_id 1
                    (mkBlogPost 1 "Hello again" "Sub" "March 07, 2024" "text" "img" 1)
                    (blog_posts sample_db))
                 (comments sample_db))
           (mkCookie (Some 1) [])).
Proof.
  refine (edit_post_updates 1 (mkCreatePostForm "Hello again" "Sub" "img" "text")
            (as_client (Some 1)) admin_row hello_post eq_refl eq_refl eq_refl _).
  decide_it.
Defined.

Lemma delete_post_with_comments_witness :
  delete_post 1 (as_client (Some 1)) = (Raise IntegrityError, as_client (Some 1)).
Proof.
  apply (delete_post_with_comments _ _ admin_row hello_post); [reflexivity|reflexivity|reflexivity|decide_it].
Defined.

Lemma delete_post_removes_witness :
  delete_post 2 (as_client (Some 1)) =
    (Ret (Redirect EP_get_all_posts),
     mkCtx (mkDb (users sample_db) (other_posts sample_db quiet_post) (comments sample_db))
           (mkCookie (Some 1) [])).
Proof.
  exact (delete_post_removes 2 (as_client (Some 1)) admin_row quiet_post
           eq_refl eq_refl eq_refl eq_refl).
Defined.

Lemma show_post_anonymous_comment_witness :
  show_post 1 (Some (mkCommentForm "hi")) (as_client None) =
    (Ret (Redirect EP_login),
     mkCtx sample_db (flash "You need to login or register to comment." (mkCookie None []))).
Proof. apply show_post_anonymous_comment; [decide_it|reflexivity]. Defined.

Lemma show_post_comment_witness :
  let c := mkComment (next_rowid (map comment_id (comments sample_db))) 2 1 "hi" in
  show_post 1 (Some (mkCommentForm "hi")) (as_client (Some 2)) =
    (Ret (RenderPost hello_post (post_comments sample_db 1 ++ [c])),
     mkCtx (mkDb (users sample_db) (blog_posts sample_db) (comments sample_db ++ [c]))
           (mkCookie (Some 2) [])) /\
  post_comments (mkDb (users sample_db) (blog_posts sample_db) (comments sample_db ++ [c])) 1 =
    post_comments sample_db 1 ++ [c].
Proof.
  exact (show_post_comment 1 (mkCommentForm "hi") (as_client (Some 2)) reader_row hello_post
           eq_refl eq_refl).
Defined.

Lemma missing_post_404_witness :
  show_post 9 None (as_client (Some 1)) = (Raise (HTTPException 404), as_client (Some 1)) /\
  edit_post 9 None (as_client (Some 1)) = (Raise (HTTPException 404), as_client (Some 1)) /\
  delete_post 9 (as_client (Some 1)) = (Raise (HTTPException 404), as_client (Some 1)).
Proof.
  destruct (missing_post_404 9 None None (as_client (Some 1))) as [H1 H2]; [decide_it|].
  split; [exact H1|]. apply (H2 admin_row); reflexivity.
Defined.

Lemma edit_post_title_collision_witness :
  edit_post 2 (Some (mkCreatePostForm "Hello" "Sub" "img" "text")) (as_client (Some 1)) =
    (Raise IntegrityError, as_client (Some 1)).
Proof.
  refine (edit_post_title_collision 2 (mkCreatePostForm "Hello" "Sub" "img" "text")
            (as_client (Some 1)) admin_row quiet_post eq_refl eq_refl eq_refl _).
  decide_it.
Defined.

Lemma login_rebinds_witness :
  login (PS := test_scheme) (Some (mkLoginForm "admin@blog.io" "adminpw")) (as_client (Some 2)) =
    (Ret (Redirect EP_get_all_posts), mkCtx sample_db (mkCookie (Some 1) [])).
Proof.
  exact (login_rebinds (PS := test_scheme) (mkLoginForm "admin@blog.io" "adminpw")
           (as_client (Some 2)) admin_row eq_refl eq_refl).
Defined.

Lemma logout_clears_witness :
  logout (as_client (Some 2)) = (Ret (Redirect EP_get_all_posts), mkCtx sample_db (mkCookie None [])).
Proof. refine (logout_clears (as_client (Some 2)) 2 eq_refl _). decide_it. Defined.

End Handlers.
