(* ===== verification/App.v ===== *)
(** * App: whole requests, and the serial schedule of the server

    The world is the database and the session cookie of each client
    (a [gmap] from client ids).  [serve] runs one whole request of one
    client: [dispatch] on the database and that client's cookie, with the
    response's cookie stored back.  The threaded server of [Races] has
    [serve] as one of its steps, for the routes whose read and commit
    cannot be separated by another request, and for every route when no
    other request overlaps it.  [step] is that serial schedule, in which
    each request runs alone: any interleaving of the clients' requests at
    request granularity is a sequence of steps, and every world [step]
    reaches the threaded server reaches too
    ([Races.reachable_rreachable]).  [serve_keeps] is shared by both
    servers: a request keeps any property of the database that the store
    operations keep, and the cookies bound to registered users.
    [world_inv] is the invariant of the serial schedule: the database is
    well formed ([db_wf]) and every cookie's [_user_id] names a registered
    user.  The foreign key of [comments] is part of [db_wf]; the threaded
    server breaks it ([Races.comment_end_deleted]). *)
From stdpp Require Import base list strings gmap relations.
From Stdlib Require Import ZArith Ascii.
From S2P Require Import Prelude DateStamp PasswordHash Schema CredentialStore ContentStore Store Session Handlers.

Module App.
Import CredentialStore ContentStore Store Session Handlers.

Record World := mkWorld { w_db : Db; w_cookies : gmap nat Cookie }.

Definition init_world : World := mkWorld empty_db ∅.

(** A client that never sent a cookie starts with an empty session. *)
Definition cookie_of (w : World) (client : nat) : Cookie :=
  default empty_cookie (w_cookies w !! client).

Definition serve `{PS : PasswordScheme} (env : Env) (client : nat) (r : Request) (w : World)
    : outcome Page * World :=
  let '(o, ctx') := dispatch env r (mkCtx (w_db w) (cookie_of w client)) in
  (o, mkWorld (ctx_db ctx') (<[client := ctx_cookie ctx']> (w_cookies w))).

(** One request of one client; the salt is one [gen_salt(8)] can draw. *)
Inductive step `{PS : PasswordScheme} : World -> World -> Prop :=
| step_serve env client r w :
    is_salt 8 (env_salt env) = true -> step w (serve env client r w).2.

Inductive reachable `{PS : PasswordScheme} : World -> Prop :=
| reachable_init : reachable init_world
| reachable_step w w' : reachable w -> step w w' -> reachable w'.

(** ** The invariant *)

Definition cookie_ok (db : Db) (c : Cookie) : Prop :=
  forall uid, session_user_id c = Some uid -> user_exists db uid.

(** The session of a request names a registered user, if any. *)
Definition ctx_cookie_ok (ctx : Ctx) : Prop := cookie_ok (ctx_db ctx) (ctx_cookie ctx).

Record world_inv (w : World) : Prop := {
  inv_db : db_wf (w_db w);
  inv_cookies : map_Forall (fun _ c => cookie_ok (w_db w) c) (w_cookies w);
}.

Lemma empty_db_wf : db_wf empty_db.
Proof. constructor; simpl; constructor. Qed.

Lemma users_grow_snoc db u : users_grow db (mkDb (users db ++ [u]) (blog_posts db) (comments db)).
Proof.
  unfold users_grow, user_exists. simpl. intros x Hx. rewrite map_app, elem_of_app. by left.
Qed.

Lemma cookie_ok_grow db db' c : users_grow db db' -> cookie_ok db c -> cookie_ok db' c.
Proof. unfold cookie_ok. intros Hg Hc uid Hu. by apply Hg, Hc. Qed.

Lemma cookie_ok_flash db m c : cookie_ok db c -> cookie_ok db (flash m c).
Proof. done. Qed.

Lemma cookie_ok_login db u c : u ∈ users db -> cookie_ok db (login_user u c).
Proof.
  unfold cookie_ok, user_exists. simpl. intros Hu uid [= <-]. apply list_elem_of_fmap. eauto.
Qed.

#[export] Hint Resolve users_grow_snoc cookie_ok_grow cookie_ok_flash cookie_ok_login
  store_step_grow : blog.
#[export] Hint Constructors store_step : blog.

(** ** Every route keeps the invariant of its context *)

Section invariant.
(** An invariant [P] of the database that every store operation keeps:
    [db_wf] for whole requests on a well-formed database, [db_core] for
    the threaded server ([Races]). *)
Context (P : Db -> Prop) (HP : forall db db', P db -> store_step db db' -> P db').

Definition ctx_inv (ctx : Ctx) : Prop := P (ctx_db ctx) /\ cookie_ok (ctx_db ctx) (ctx_cookie ctx).

Definition preserves {A} (m : St Ctx A) : Prop :=
  forall ctx, ctx_inv ctx -> ctx_inv (m ctx).2 /\ store_step (ctx_db ctx) (ctx_db (m ctx).2).

(** A commit whose effect is a step of the store keeps the invariant. *)
Lemma st_commit_preserves {A} (f : Db -> outcome (Db * A)) ctx :
  ctx_inv ctx ->
  (forall db' a, f (ctx_db ctx) = Ret (db', a) -> store_step (ctx_db ctx) db') ->
  ctx_inv (st_commit f ctx).2 /\ store_step (ctx_db ctx) (ctx_db (st_commit f ctx).2).
Proof.
  intros [Hwf Hc] Hf. unfold st_commit. destruct (f (ctx_db ctx)) as [[db' a]|e] eqn:E.
  - pose proof (Hf db' a eq_refl) as Hs. split; [split|]; simpl; eauto using HP with blog.
  - split; [split|]; simpl; eauto with blog.
Qed.

(** A request that raised keeps its context. *)
Lemma preserves_same_ctx ctx : ctx_inv ctx -> ctx_inv ctx /\ store_step (ctx_db ctx) (ctx_db ctx).
Proof. split; [done|constructor]. Qed.

Section routes.
Context `{PS : PasswordScheme}.

Lemma register_preserves salt f : preserves (register salt f).
Proof.
  intros [db c] [Hwf Hc]. destruct f as [f|]; [|split; [split|]; simpl; eauto with blog].
  unfold register. st_unfold. destruct (select_user_by_email db (reg_email f)) eqn:E.
  { split; [split|]; simpl; eauto with blog. }
  apply select_user_by_email_None in E.
  rewrite insert_user_fresh by done. cbn.
  assert (Hs : store_step db (mkDb (users db ++ [mkUser (next_rowid (map user_id (users db)))
                 (reg_email f) (generate_password_hash (reg_password f) salt) (reg_name f)])
                 (blog_posts db) (comments db))).
  { eapply ss_insert_user. by apply insert_user_fresh. }
  split; [split|]; simpl; [by eapply HP| |done].
  apply cookie_ok_login. simpl. apply elem_of_app. right. by apply list_elem_of_singleton.
Qed.

Lemma login_preserves f : preserves (login f).
Proof.
  intros [db c] [Hwf Hc]. destruct f as [f|]; [|split; [split|]; simpl; eauto with blog].
  unfold login. st_unfold. destruct (select_user_by_email db (login_email f)) as [u|] eqn:E.
  - apply select_user_by_email_Some in E as [Hu _].
    destruct (check_password_hash _ _); split; [split| |split|]; simpl; eauto with blog.
  - split; [split|]; simpl; eauto with blog.
Qed.
End routes.

(** A continuation that does not change the state leaves the state [m]
    produced. *)
Lemma st_bind_readonly_snd {A B} (m : St Ctx A) (k : A -> St Ctx B) ctx :
  (forall a c, (k a c).2 = c) -> (st_bind m k ctx).2 = (m ctx).2.
Proof. intros Hk. unfold st_bind. destruct (m ctx) as [[a|e] ctx']; [apply Hk|done]. Qed.

Lemma st_db_bind {A} (k : Db -> St Ctx A) ctx : st_bind st_db k ctx = k (ctx_db ctx) ctx.
Proof. done. Qed.

Lemma st_current_user_bind {A} (k : Actor -> St Ctx A) ctx :
  st_bind st_current_user k ctx =
    match current_user (ctx_db ctx) (ctx_cookie ctx) with
    | Ret a => k a ctx
    | Raise e => (Raise e, ctx)
    end.
Proof. unfold st_bind, st_current_user. by destruct (current_user _ _). Qed.

Lemma st_lift_bind {A B} (o : outcome A) (k : A -> St Ctx B) ctx :
  st_bind (st_lift o) k ctx = match o with Ret a => k a ctx | Raise e => (Raise e, ctx) end.
Proof. by destruct o. Qed.

Lemma st_current_user_row_Ret ctx u ctx' :
  st_current_user_row ctx = (Ret u, ctx') -> ctx' = ctx /\ u ∈ users (ctx_db ctx).
Proof.
  unfold st_current_user_row, st_bind, st_current_user.
  destruct (current_user (ctx_db ctx) (ctx_cookie ctx)) as [[|v]|e] eqn:E; try done.
  unfold st_ret. intros [= <- <-]. apply current_user_Ret_user in E as [_ Hv]. done.
Qed.

(** Running [st_current_user_row] then [k]: the state [k] starts from is
    the request's, and the row is a user of the database. *)
Lemma st_current_user_row_then {A} (k : User -> St Ctx A) ctx :
  (exists e, (st_bind st_current_user_row k ctx) = (Raise e, ctx)) \/
  (exists u, u ∈ users (ctx_db ctx) /\ st_bind st_current_user_row k ctx = k u ctx).
Proof.
  destruct (st_current_user_row ctx) as [[u|e] ctx'] eqn:E.
  - pose proof E as E'. apply st_current_user_row_Ret in E' as [-> Hu]. right.
    exists u. split; [done|]. unfold st_bind. by rewrite E.
  - left. exists e. unfold st_bind. rewrite E. do 2 f_equal. revert E.
    unfold st_current_user_row, st_bind, st_current_user.
    destruct (current_user _ _) as [[|v]|e']; unfold st_raise, st_ret; by intros [= _ ->].
Qed.

Lemma admin_only_preserves {A} (body : St Ctx A) : preserves body -> preserves (admin_only body).
Proof.
  intros Hb ctx Hok. unfold admin_only. rewrite st_current_user_bind.
  destruct (current_user (ctx_db ctx) (ctx_cookie ctx)) as [a|e]; [|split; [done|apply ss_refl]].
  rewrite st_lift_bind. destruct (actor_id a) as [i|e]; [|split; [done|apply ss_refl]].
  case_decide; [split; [done|apply ss_refl]|]. by apply Hb.
Qed.

Lemma add_new_post_preserves today f : preserves (add_new_post today f).
Proof.
  unfold add_new_post. apply admin_only_preserves. intros ctx Hok.
  destruct f as [f|]; [|split; [done|apply ss_refl]].
  destruct (st_current_user_row_then
              (fun author => st_bind (st_commit (fun db => insert_post db (form_title f)
                 (form_subtitle f) (form_body f) (form_img_url f) author (strftime_BdY today)))
                 (fun _ => st_ret (Redirect EP_get_all_posts))) ctx) as [[e ->]|(u & Hu & ->)].
  { split; [done|apply ss_refl]. }
  rewrite st_bind_readonly_snd by done. apply st_commit_preserves; [done|].
  intros db' p Hi. eapply ss_insert_post; [|exact Hi]. unfold user_exists. apply list_elem_of_fmap. eauto.
Qed.

Lemma edit_post_preserves id f : preserves (edit_post id f).
Proof.
  unfold edit_post. apply admin_only_preserves. intros ctx Hok.
  rewrite st_db_bind, st_lift_bind.
  destruct (get_or_404_post (ctx_db ctx) id) as [p|e]; [|split; [done|apply ss_refl]].
  destruct f as [f|]; [|split; [done|apply ss_refl]].
  destruct (st_current_user_row_then
              (fun author => st_bind (st_commit (fun db => update_post db p (form_title f)
                 (form_subtitle f) (form_img_url f) author (form_body f)))
                 (fun post' => st_ret (Redirect (EP_show_post (post_id post'))))) ctx)
    as [[e ->]|(u & Hu & ->)].
  { split; [done|apply ss_refl]. }
  rewrite st_bind_readonly_snd by done. apply st_commit_preserves; [done|].
  intros db' p' Hi. eapply ss_update_post; [|exact Hi]. unfold user_exists. apply list_elem_of_fmap. eauto.
Qed.

Lemma delete_post_preserves id : preserves (delete_post id).
Proof.
  unfold delete_post. apply admin_only_preserves. intros ctx Hok.
  rewrite st_db_bind, st_lift_bind.
  destruct (get_or_404_post (ctx_db ctx) id) as [p|e]; [|split; [done|apply ss_refl]].
  rewrite st_bind_readonly_snd by done. apply st_commit_preserves; [done|].
  intros db' [] Hd. destruct (delete_post_row (ctx_db ctx) p) as [db''|] eqn:E; [|done].
  injection Hd as <-. by eapply ss_delete_post.
Qed.

Lemma show_post_preserves id form : preserves (show_post id form).
Proof.
  intros ctx Hok. unfold show_post. rewrite st_db_bind, st_lift_bind.
  destruct (get_or_404_post (ctx_db ctx) id) as [p|e] eqn:Ep; [|split; [done|apply ss_refl]].
  apply get_or_404_post_Ret in Ep as [Hp _].
  destruct form as [f|]; [|split; [done|apply ss_refl]].
  rewrite st_current_user_bind.
  destruct (current_user (ctx_db ctx) (ctx_cookie ctx)) as [a|e]; [|split; [done|apply ss_refl]].
  destruct (negb (is_authenticated a)).
  { destruct Hok. split; [split|]; simpl; eauto with blog. }
  destruct (st_current_user_row_then
              (fun author => st_bind (st_commit (fun db => Ret (insert_comment db (form_comment f) author p)))
                 (fun _ => render_post p)) ctx)
    as [[e ->]|(u & Hu & ->)].
  { split; [done|apply ss_refl]. }
  rewrite st_bind_readonly_snd by done. apply st_commit_preserves; [done|].
  intros db' c [= <- _]. apply ss_insert_comment; [|done]. unfold user_exists. apply list_elem_of_fmap. eauto.
Qed.

Lemma logout_preserves : preserves logout.
Proof.
  intros ctx Hok. unfold logout. rewrite st_bind_readonly_snd by done.
  unfold st_logout_user. destruct (logout_user (ctx_db ctx) (ctx_cookie ctx)) as [c|e] eqn:E;
    [|split; [done|apply ss_refl]].
  revert E. unfold logout_user. case_match; [|done]. intros [= <-].
  split; [split; [apply Hok|done]|apply ss_refl].
Qed.

Lemma get_all_posts_preserves : preserves get_all_posts.
Proof.
  intros ctx Hok. unfold get_all_posts. rewrite st_db_bind, st_current_user_bind.
  destruct (current_user _ _); split; (done || apply ss_refl).
Qed.

Theorem dispatch_preserves `{PS : PasswordScheme} env r : preserves (dispatch env r).
Proof.
  destruct r; simpl.
  - apply register_preserves.
  - apply login_preserves.
  - apply logout_preserves.
  - apply get_all_posts_preserves.
  - apply show_post_preserves.
  - apply add_new_post_preserves.
  - apply edit_post_preserves.
  - apply delete_post_preserves.
  - intros ctx Hok. split; [done|apply ss_refl].
  - intros ctx Hok. split; [done|apply ss_refl].
Qed.
End invariant.

(** ** Every reachable world satisfies the invariant *)

Lemma cookie_of_ok w client :
  map_Forall (fun _ c => cookie_ok (w_db w) c) (w_cookies w) -> cookie_ok (w_db w) (cookie_of w client).
Proof.
  intros Hc. unfold cookie_of. destruct (w_cookies w !! client) as [c|] eqn:E; simpl.
  - by apply (Hc client c).
  - by intros uid.
Qed.

(** Every client's cookie names a registered user. *)
Definition cookies_ok (w : World) : Prop :=
  map_Forall (fun _ c => cookie_ok (w_db w) c) (w_cookies w).

(** Serving a whole request keeps any invariant of the database that the
    store operations keep, and the cookies bound to registered users. *)
Lemma serve_keeps `{PS : PasswordScheme} (P : Db -> Prop)
    (HP : forall db db', P db -> store_step db db' -> P db') env client r w :
  P (w_db w) -> cookies_ok w ->
  P (w_db (serve env client r w).2) /\ cookies_ok (serve env client r w).2 /\
  store_step (w_db w) (w_db (serve env client r w).2).
Proof.
  intros HPw Hcs. unfold serve.
  pose proof (dispatch_preserves P HP env r (mkCtx (w_db w) (cookie_of w client))) as Hd.
  destruct (dispatch env r (mkCtx (w_db w) (cookie_of w client))) as [o ctx'] eqn:E.
  destruct (Hd (conj HPw (cookie_of_ok w client Hcs))) as [[Hwf Hc] Hs].
  simpl in *. split_and!; [done| |done].
  apply map_Forall_insert_2; [done|]. intros i c Hi.
  eapply cookie_ok_grow; [by apply store_step_grow|]. by apply (Hcs i).
Qed.

Lemma serve_inv `{PS : PasswordScheme} env client r w :
  world_inv w ->
  world_inv (serve env client r w).2 /\ store_step (w_db w) (w_db (serve env client r w).2).
Proof.
  intros [Hwf Hcs]. destruct (serve_keeps db_wf store_step_wf env client r w Hwf Hcs) as (? & ? & ?).
  split; [by constructor|done].
Qed.

Lemma init_world_inv : world_inv init_world.
Proof. constructor; [apply empty_db_wf|apply map_Forall_empty]. Qed.

Lemma reachable_inv `{PS : PasswordScheme} w : reachable w -> world_inv w.
Proof.
  induction 1 as [|w w' _ IH Hstep]; [apply init_world_inv|].
  destruct Hstep. by apply serve_inv.
Qed.

(** ** What a request can raise *)

Lemma ctx_ok_actor ctx : ctx_cookie_ok ctx -> exists a, actor_of ctx = Ret a.
Proof.
  intros Hc. unfold actor_of. destruct (session_user_id (ctx_cookie ctx)) as [uid|] eqn:E.
  - destruct (current_user_bound _ _ uid E (Hc uid E)) as (u & _ & Hu). eauto.
  - exists Anonymous. by apply current_user_anonymous.
Qed.

Lemma admin_only_raise {A} (body : St Ctx A) ctx e ctx' :
  ctx_cookie_ok ctx -> admin_only body ctx = (Raise e, ctx') ->
  e = AttributeError \/ e = HTTPException 403 \/
  exists u, actor_of ctx = Ret (Authenticated u) /\ user_id u = 1 /\ body ctx = (Raise e, ctx').
Proof.
  intros Hok. destruct (ctx_ok_actor ctx Hok) as [[|u] Ha].
  - rewrite admin_only_anonymous by done. intros [= <- _]. by left.
  - destruct (decide (user_id u = 1)) as [Hid|Hid].
    + rewrite (admin_only_admin _ _ u) by done. intros H. right; right. eauto.
    + rewrite (admin_only_forbidden _ _ u) by done. intros [= <- _]. by right; left.
Qed.

(** The exceptions each route can let escape, as the code is written:
    [abort(404)] of [db.get_or_404], [abort(403)] of [admin_only], the
    [AttributeError] of an anonymous [current_user.id], the
    [IntegrityError] of a commit. *)
Definition route_errors (r : Request) : list exc :=
  match r with
  | ShowPostReq _ _ => [HTTPException 404]
  | NewPostReq _ => [AttributeError; HTTPException 403; IntegrityError]
  | EditPostReq _ _ | DeleteReq _ =>
      [AttributeError; HTTPException 403; HTTPException 404; IntegrityError]
  | _ => []
  end.

Lemma add_new_post_raise today f ctx e ctx' :
  ctx_cookie_ok ctx -> add_new_post today f ctx = (Raise e, ctx') ->
  e ∈ [AttributeError; HTTPException 403; IntegrityError].
Proof.
  intros Hok H. destruct (admin_only_raise _ ctx e ctx' Hok H) as [->|[->|(u & Hu & Hid & H')]];
    [decide_it|decide_it|]. clear H. rename H' into H.
  destruct f as [f|]; [|done]. revert H. unfold st_bind. rewrite (st_current_user_row_admin _ _ Hu).
  unfold st_commit. unfold insert_post. case_bool_decide; [intros [= <- _]; decide_it|done].
Qed.

Lemma edit_post_raise id f ctx e ctx' :
  ctx_cookie_ok ctx -> edit_post id f ctx = (Raise e, ctx') ->
  e ∈ [AttributeError; HTTPException 403; HTTPException 404; IntegrityError].
Proof.
  intros Hok H. destruct (admin_only_raise _ ctx e ctx' Hok H) as [->|[->|(u & Hu & Hid & H')]];
    [decide_it|decide_it|]. clear H. revert H'.
  unfold st_bind, st_db, st_lift. destruct (get_or_404_post (ctx_db ctx) id) as [p|e'] eqn:Ep.
  2:{ apply get_or_404_post_Raise in Ep as ->. intros [= <- _]. decide_it. }
  destruct f as [f|]; [|done]. rewrite (st_current_user_row_admin _ _ Hu).
  unfold st_commit, update_post. case_bool_decide; [intros [= <- _]; decide_it|done].
Qed.

Lemma delete_post_raise id ctx e ctx' :
  ctx_cookie_ok ctx -> delete_post id ctx = (Raise e, ctx') ->
  e ∈ [AttributeError; HTTPException 403; HTTPException 404; IntegrityError].
Proof.
  intros Hok H. destruct (admin_only_raise _ ctx e ctx' Hok H) as [->|[->|(u & Hu & Hid & H')]];
    [decide_it|decide_it|]. clear H. revert H'.
  unfold st_bind, st_db, st_lift. destruct (get_or_404_post (ctx_db ctx) id) as [p|e'] eqn:Ep.
  2:{ apply get_or_404_post_Raise in Ep as ->. intros [= <- _]. decide_it. }
  unfold st_commit, delete_post_row. destruct (post_comments _ _); [done|]. intros [= <- _]. decide_it.
Qed.

Lemma show_post_raise id f ctx e ctx' :
  ctx_cookie_ok ctx -> show_post id f ctx = (Raise e, ctx') -> e ∈ [HTTPException 404].
Proof.
  intros Hok. destruct (ctx_ok_actor ctx Hok) as [a Ha]. unfold actor_of in Ha.
  unfold show_post. st_unfold. destruct (get_or_404_post (ctx_db ctx) id) as [p|e'] eqn:Ep.
  2:{ apply get_or_404_post_Raise in Ep as ->. intros [= <- _]. decide_it. }
  destruct f as [f|]; [|unfold render_post; st_unfold; done].
  rewrite Ha. destruct a as [|u]; cbn [negb is_authenticated]; [done|]. rewrite Ha.
  unfold render_post. st_unfold. done.
Qed.

Section never.
Context `{PS : PasswordScheme}.

Lemma register_no_raise salt f ctx e ctx' : register salt f ctx ≠ (Raise e, ctx').
Proof.
  unfold register. destruct f as [f|]; [|done]. st_unfold.
  destruct (select_user_by_email (ctx_db ctx) (reg_email f)) eqn:E; [done|].
  apply select_user_by_email_None in E. by rewrite insert_user_fresh.
Qed.

Lemma login_no_raise f ctx e ctx' : login f ctx ≠ (Raise e, ctx').
Proof.
  unfold login. destruct f as [f|]; [|done]. st_unfold.
  destruct (select_user_by_email (ctx_db ctx) (login_email f)); [|done].
  by destruct (check_password_hash _ _).
Qed.
End never.

Lemma logout_no_raise ctx e ctx' : ctx_cookie_ok ctx -> logout ctx ≠ (Raise e, ctx').
Proof.
  intros Hok. destruct (ctx_ok_actor ctx Hok) as [a Ha]. unfold actor_of in Ha.
  unfold logout. st_unfold. unfold logout_user. by rewrite Ha.
Qed.

Lemma get_all_posts_no_raise ctx e ctx' : ctx_cookie_ok ctx -> get_all_posts ctx ≠ (Raise e, ctx').
Proof.
  intros Hok. destruct (ctx_ok_actor ctx Hok) as [a Ha]. unfold actor_of in Ha.
  unfold get_all_posts. st_unfold. by rewrite Ha.
Qed.


(** ** User ids are 1, 2, ..., n in registration order *)

Definition users_dense (db : Db) : Prop :=
  map user_id (users db) = seq 1 (length (users db)).

Lemma list_max_seq_1 n : list_max (seq 1 n) = n.
Proof.
  induction n as [|n IH]; [done|]. rewrite seq_S, list_max_app, IH. simpl. lia.
Qed.

Lemma users_step_dense db db' : users_dense db -> users_step db db' -> users_dense db'.
Proof.
  unfold users_dense. intros Hd [H|(e & pw & n & H)]; rewrite H; [done|].
  rewrite map_app, Hd, length_app. simpl. unfold next_rowid. rewrite list_max_seq_1.
  by rewrite Nat.add_1_r, seq_S.
Qed.

(** C21: in every reachable world the user ids are exactly 1..n in
    registration order (SQLite's rowid, users never deleted), so the
    first account ever registered is the admin of [admin_only]. *)
Theorem reachable_users_dense `{PS : PasswordScheme} w :
  reachable w -> users_dense (w_db w) /\
  forall u rest, users (w_db w) = u :: rest -> user_id u = 1.
Proof.
  intros Hr. assert (Hd : users_dense (w_db w)).
  { induction Hr as [|w w' Hr IH Hstep]; [done|].
    destruct Hstep as [env client r w Hs].
    eapply users_step_dense; [done|]. apply store_step_users, serve_inv, reachable_inv, Hr. }
  split; [done|]. intros u rest Hu. unfold users_dense in Hd. rewrite Hu in Hd.
  simpl in Hd. by injection Hd.
Qed.

(** ** Traces *)

(** Serve a list of requests of (client, request) in order. *)
Fixpoint serve_all `{PS : PasswordScheme} (env : Env) (rs : list (nat * Request)) (w : World)
    : World :=
  match rs with
  | [] => w
  | (client, r) :: rs' => serve_all env rs' (serve env client r w).2
  end.

Lemma serve_all_reachable `{PS : PasswordScheme} env rs w :
  is_salt 8 (env_salt env) = true -> reachable w -> reachable (serve_all env rs w).
Proof.
  intros Hs. revert w. induction rs as [|[client r] rs IH]; simpl; intros w Hr; [done|].
  apply IH. eapply reachable_step; [exact Hr|]. by constructor.
Qed.

Definition env0 : Env := mkEnv (mkDate 2024 3 9) "abcdefgh".

(** Client 1 registers the first account, so it is the admin, and
    writes posts "A" and "B"; client 2 registers. *)
Definition trace_setup : list (nat * Request) :=
  [(1, RegisterReq (Some (mkRegisterForm "admin@blog.io" "pw" "Admin")));
   (1, NewPostReq (Some (mkCreatePostForm "A" "a" "img" "text")));
   (1, NewPostReq (Some (mkCreatePostForm "B" "b" "img" "text")));
   (2, RegisterReq (Some (mkRegisterForm "a@blog.io" "pw2" "A user")))].

Definition world_setup : World := serve_all (PS := test_scheme) env0 trace_setup init_world.

Lemma world_setup_reachable : reachable (PS := test_scheme) world_setup.
Proof. apply serve_all_reachable; [reflexivity|constructor]. Qed.


Lemma reachable_users_dense_witness :
  users_dense (w_db world_setup) /\
  forall u rest, users (w_db world_setup) = u :: rest -> user_id u = 1.
Proof. apply (reachable_users_dense (PS := test_scheme)). apply serve_all_reachable; [reflexivity|constructor]. Defined.

(** SQLite reuses the rowid of a deleted last post: after the admin
    deletes "B" (id 2) and writes "C", the new post has id 2, so the URL
    [/post/2] now shows a different post. *)
Example post_id_reused :
  let w := serve_all (PS := test_scheme) env0
             [(1, DeleteReq 2); (1, NewPostReq (Some (mkCreatePostForm "C" "c" "img" "text")))]
             world_setup in
  map (fun p => (post_id p, title p)) (blog_posts (w_db w)) = [(1, "A"); (2, "C")]%string.
Proof. vm_compute. reflexivity. Qed.

(** The scenario of the spec: user A (client 2) comments on post 1,
    which then has exactly one comment, by A; A logs out, and the
    anonymous comment that follows adds nothing and redirects to login. *)
Example comment_scenario :
  let w1 := serve_all (PS := test_scheme) env0
              [(2, ShowPostReq 1 (Some (mkCommentForm "first")))] world_setup in
  let w2 := serve_all (PS := test_scheme) env0 [(2, LogoutReq)] w1 in
  map (fun c => (comment_author_id c, text c)) (post_comments (w_db w1) 1) = [(2, "first")]%string /\
  (serve (PS := test_scheme) env0 2 (ShowPostReq 1 (Some (mkCommentForm "again"))) w2).1 =
    Ret (Redirect EP_login) /\
  post_comments (w_db (serve (PS := test_scheme) env0 2
                         (ShowPostReq 1 (Some (mkCommentForm "again"))) w2).2) 1 =
    post_comments (w_db w1) 1.
Proof. vm_compute. split_and!; reflexivity. Qed.


(** The error signature of a request served whole, in a world whose
    cookies name registered users: registration, login, logout, the
    listing and the static pages never fail; a post view fails only with
    404; the admin routes with the [AttributeError] of an anonymous
    client, 403, 404 (edit, delete) or the [IntegrityError] of their
    commit. *)
Lemma serve_route_errors `{PS : PasswordScheme} env client r w e :
  cookies_ok w -> (serve env client r w).1 = Raise e -> e ∈ route_errors r.
Proof.
  intros Hcs. assert (Hok : ctx_cookie_ok (mkCtx (w_db w) (cookie_of w client)))
    by (by apply cookie_of_ok).
  unfold serve. destruct (dispatch env r _) as [o ctx'] eqn:E. simpl. intros ->.
  destruct r; simpl in E.
  - by apply register_no_raise in E.
  - by apply login_no_raise in E.
  - by apply logout_no_raise in E.
  - by apply get_all_posts_no_raise in E.
  - by eapply show_post_raise.
  - by eapply add_new_post_raise.
  - by eapply edit_post_raise.
  - by eapply delete_post_raise.
  - done.
  - done.
Qed.

(** ** Counted executions: rowids grow by at most one per request *)

Lemma step_store_step `{PS : PasswordScheme} w w' :
  world_inv w -> step w w' -> world_inv w' /\ store_step (w_db w) (w_db w').
Proof. intros Hinv Hs. destruct Hs. by apply serve_inv. Qed.

Lemma nsteps_ids_le `{PS : PasswordScheme} n k w w' :
  world_inv w -> ids_le k (w_db w) -> nsteps step n w w' -> ids_le (n + k) (w_db w').
Proof.
  intros Hinv Hk Hs. revert k Hinv Hk.
  induction Hs as [w|n w1 w2 w3 H12 _ IH]; intros k Hinv Hk; [done|].
  destruct (step_store_step _ _ Hinv H12) as [Hinv' Hst].
  replace (S n + k) with (n + S k) by lia. apply IH; [done|]. by eapply store_step_ids_le.
Qed.

Lemma init_world_ids_le : ids_le 0 (w_db init_world).
Proof. by constructor. Qed.

Lemma next_rowid_le (k : nat) (ids : list nat) :
  Forall (fun i => i <= k) ids -> next_rowid ids <= S k.
Proof. intros H. unfold next_rowid. apply le_n_S, list_max_le, H. Qed.

Lemma next_rowid_bounds (n : nat) (ids : list nat) (max : Z) :
  Forall (fun i => i <= n) ids ->
  next_rowid ids <= S n /\ ((Z.of_nat n < max)%Z -> (Z.of_nat (next_rowid ids) <= max)%Z).
Proof. intros H. pose proof (next_rowid_le n ids H). split; [done|lia]. Qed.

(** SQLite's largest rowid, [2^63 - 1]: until a table holds it, a new row
    gets the largest rowid plus one ([next_rowid]); only then does SQLite
    pick unused rowids at random. *)
Definition sqlite_max_rowid : Z := (2 ^ 63 - 1)%Z.

(** C32: after [n] requests, of any clients in any order, every rowid of
    every table is at most [n] and each table's next rowid at most
    [n + 1]; so while fewer than [2^63 - 1] requests have been served no
    table reaches SQLite's largest rowid, and the rule "largest rowid plus
    one" that [next_rowid] models is the one SQLite applies. *)
Theorem nsteps_rowids_bounded `{PS : PasswordScheme} n w :
  nsteps step n init_world w ->
  ids_le n (w_db w) /\
  Forall (fun ids => next_rowid ids <= S n /\
                     ((Z.of_nat n < sqlite_max_rowid)%Z ->
                      (Z.of_nat (next_rowid ids) <= sqlite_max_rowid)%Z))
    [map user_id (users (w_db w)); map post_id (blog_posts (w_db w));
     map comment_id (comments (w_db w))].
Proof.
  intros Hs. pose proof (nsteps_ids_le n 0 _ _ init_world_inv init_world_ids_le Hs) as Hk.
  rewrite Nat.add_0_r in Hk. split; [done|].
  destruct Hk as [Hu Hp Hc].
  repeat apply Forall_cons_2; [by apply next_rowid_bounds..|apply Forall_nil_2].
Qed.

(** ** A commented post stays forever *)

Lemma rtc_step_comments `{PS : PasswordScheme} w w' :
  world_inv w -> rtc step w w' ->
  world_inv w' /\ exists l, comments (w_db w') = comments (w_db w) ++ l.
Proof.
  intros Hinv Hs. induction Hs as [w|w1 w2 w3 H12 _ IH]; [split; [done|exists []; by rewrite app_nil_r]|].
  destruct (step_store_step _ _ Hinv H12) as [Hinv2 Hst].
  destruct (IH Hinv2) as [Hinv3 [l3 Hl3]]. destruct (store_step_comments _ _ Hst) as [l2 Hl2].
  split; [done|]. exists (l2 ++ l3). by rewrite Hl3, Hl2, app_assoc.
Qed.


(** ** Every client can always log in *)

(** ["x...x@blog.io"] with [n] letters x. *)
Fixpoint pad_email (n : nat) : string :=
  match n with
  | 0 => "@blog.io"
  | S n => String "x"%char (pad_email n)
  end.

(** An address longer than every registered one. *)
Definition fresh_email (db : Db) : string :=
  pad_email (S (list_max (map (fun u => String.length (email u)) (users db)))).

Lemma pad_email_length n : String.length (pad_email n) = n + 8.
Proof. induction n as [|n IH]; [done|]. simpl. by rewrite IH. Qed.

Lemma fresh_email_fresh db : fresh_email db ∉ map email (users db).
Proof.
  intros Hin. apply list_elem_of_fmap in Hin as (u & Hu & Hin).
  assert (H : String.length (email u) <
              S (list_max (map (fun u => String.length (email u)) (users db)))).
  { apply list_max_succ_gt, list_elem_of_fmap. eauto. }
  rewrite <- Hu in H. unfold fresh_email in H. rewrite pad_email_length in H. lia.
Qed.

Lemma cookie_of_insert db (m : gmap nat Cookie) client c :
  cookie_of (mkWorld db (<[client := c]> m)) client = c.
Proof. unfold cookie_of. simpl. by rewrite lookup_insert_eq. Qed.

(** C34: liveness of the session: from any world, any client can reach,
    in one request (registering a fresh address), a world where it is
    logged in as a registered user. *)
Theorem client_can_login `{PS : PasswordScheme} w client :
  exists w', rtc step w w' /\
    exists u, u ∈ users (w_db w') /\
      current_user (w_db w') (cookie_of w' client) = Ret (Authenticated u).
Proof.
  set (f := mkRegisterForm (fresh_email (w_db w)) "password" "Name").
  exists (serve env0 client (RegisterReq (Some f)) w).2. split.
  { apply rtc_once. by constructor. }
  pose proof (register_fresh "abcdefgh" f (mkCtx (w_db w) (cookie_of w client))
                (fresh_email_fresh (w_db w))) as Hr. cbv zeta in Hr.
  unfold serve, dispatch, env_salt, env0. rewrite Hr. cbn [ctx_db ctx_cookie snd w_db].
  eexists. split; [apply elem_of_app; right; by apply list_elem_of_singleton|].
  rewrite cookie_of_insert. unfold current_user, load_user, get_user.
  cbn [login_user session_user_id users].
  rewrite (find_by_snoc_new user_id (users (w_db w)) (mkUser _ _ _ _)); [done|].
  apply next_rowid_not_in.
Qed.


(** ** Witnesses of the counted and permanent properties *)

Lemma serve_all_nsteps `{PS : PasswordScheme} env rs w :
  is_salt 8 (env_salt env) = true -> nsteps step (length rs) w (serve_all env rs w).
Proof.
  intros Hs. revert w. induction rs as [|[client r] rs IH]; intros w; [constructor|].
  simpl. eapply nsteps_l; [by constructor|apply IH].
Qed.

Lemma nsteps_rowids_bounded_witness :
  ids_le 4 (w_db world_setup) /\
  Forall (fun ids => next_rowid ids <= 5 /\
                     ((Z.of_nat 4 < sqlite_max_rowid)%Z ->
                      (Z.of_nat (next_rowid ids) <= sqlite_max_rowid)%Z))
    [map user_id (users (w_db world_setup)); map post_id (blog_posts (w_db world_setup));
     map comment_id (comments (w_db world_setup))].
Proof.
  apply (nsteps_rowids_bounded (PS := test_scheme) 4 world_setup).
  exact (serve_all_nsteps (PS := test_scheme) env0 trace_setup init_world eq_refl).
Defined.

(** Client 2 comments on post 1; then the admin tries to delete it. *)
Definition world_commented : World :=
  serve_all (PS := test_scheme) env0 [(2, ShowPostReq 1 (Some (mkCommentForm "first")))] world_setup.

Definition world_delete_tried : World :=
  serve_all (PS := test_scheme) env0 [(1, DeleteReq 1)] world_commented.


End App.
