(* ===== verification/Threads.v ===== *)
(** * Threads: [register]'s check and insert interleaved with other requests

    [app.run] serves requests on threads, and [register] talks to the
    database twice: the email query (line 141), then, after hashing, the
    insertion and commit (lines 149-151).  Another request can commit in
    between.  Here a registration that passed its query is a pending
    thread; [reg_commit] is its second half (lines 147-154), which
    [reg_end] runs on the database as it is then.  Two clients
    registering the same email can both pass the query; the second commit
    then meets the UNIQUE constraint and the client gets a 500 instead of
    the flash message of line 143.  The database stays well formed
    ([db_wf]) on every interleaving of registrations with whole requests.
    [Races] adds the other handlers that read before they commit, with
    [reg_commit] as the second half of a registration. *)
From stdpp Require Import base list strings gmap.
From S2P Require Import Prelude DateStamp PasswordHash Schema CredentialStore ContentStore Store Session Handlers App.

Module Threads.
Import CredentialStore Store Session Handlers App.

(** A registration between its query and its commit. *)
Record PendingReg := mkPendingReg { pr_client : nat; pr_form : RegisterForm; pr_salt : string }.

Record TWorld := mkTWorld { tw_world : World; tw_pending : list PendingReg }.

Definition tinit : TWorld := mkTWorld init_world [].

(** The first half of [register] for a submitted form: the query found
    no user with the email, so the thread goes on to hash and insert. *)
Definition reg_begin (t : TWorld) (th : PendingReg) : option TWorld :=
  match select_user_by_email (w_db (tw_world t)) (reg_email (pr_form th)) with
  | None => Some (mkTWorld (tw_world t) (tw_pending t ++ [th]))
  | Some _ => None
  end.

(** The second half: [generate_password_hash], [User(...)], add, commit,
    [login_user], redirect (lines 147-154), on the database of now. *)
Definition reg_commit `{PS : PasswordScheme} (th : PendingReg) : St Ctx Page :=
  let f := pr_form th in
  let hash_password := generate_password_hash (reg_password f) (pr_salt th) in
  (new_user <- st_commit (fun db => insert_user db (reg_email f) hash_password (reg_name f)) ;;
   st_login_user new_user ;;;
   st_ret (Redirect EP_get_all_posts))%blog.

Definition reg_end `{PS : PasswordScheme} (th : PendingReg) (w : World) : outcome Page * World :=
  let '(o, ctx') := reg_commit th (mkCtx (w_db w) (cookie_of w (pr_client th))) in
  (o, mkWorld (ctx_db ctx') (<[pr_client th := ctx_cookie ctx']> (w_cookies w))).

Inductive tstep `{PS : PasswordScheme} : TWorld -> TWorld -> Prop :=
| tstep_serve env client r t :
    is_salt 8 (env_salt env) = true ->
    tstep t (mkTWorld (serve env client r (tw_world t)).2 (tw_pending t))
| tstep_begin th t t' :
    is_salt 8 (pr_salt th) = true -> reg_begin t th = Some t' -> tstep t t'
| tstep_end th ths1 ths2 t :
    tw_pending t = ths1 ++ th :: ths2 ->
    tstep t (mkTWorld (reg_end th (tw_world t)).2 (ths1 ++ ths2)).

Inductive treachable `{PS : PasswordScheme} : TWorld -> Prop :=
| treachable_init : treachable tinit
| treachable_step t t' : treachable t -> tstep t t' -> treachable t'.

(** ** The invariant survives every interleaving *)

Lemma reg_end_inv `{PS : PasswordScheme} th w :
  world_inv w -> world_inv (reg_end th w).2.
Proof.
  intros Hinv. unfold reg_end, reg_commit.
  destruct (insert_user (w_db w) (reg_email (pr_form th))
              (generate_password_hash (reg_password (pr_form th)) (pr_salt th))
              (reg_name (pr_form th))) as [[db' u]|e] eqn:E; simpl; unfold st_bind, st_commit;
    simpl; rewrite E; simpl.
  - pose proof (insert_user_wf _ _ _ _ _ _ (inv_db _ Hinv) E) as Hwf.
    assert (Hg : users_grow (w_db w) db').
    { revert E. unfold insert_user. case_bool_decide; [done|]. intros [= <- _]. apply users_grow_snoc. }
    assert (Hu : u ∈ users db').
    { revert E. unfold insert_user. case_bool_decide; [done|]. intros [= <- <-]. simpl.
      apply elem_of_app. right. by apply list_elem_of_singleton. }
    constructor; simpl; [done|]. apply map_Forall_insert_2; [by apply cookie_ok_login|].
    intros i c Hi. eapply cookie_ok_grow; [done|]. by apply (inv_cookies _ Hinv i).
  - constructor; simpl; [apply Hinv|]. apply map_Forall_insert_2; [apply cookie_of_ok, Hinv|].
    apply Hinv.
Qed.


(** ** The race *)

Definition form_e : RegisterForm := mkRegisterForm "same@blog.io" "pw" "First".
Definition form_e' : RegisterForm := mkRegisterForm "same@blog.io" "pw2" "Second".

(** Clients 1 and 2 both pass the query for the same email, then client
    1's thread commits. *)
Definition race_before_second_commit : option TWorld :=
  match reg_begin tinit (mkPendingReg 1 form_e "abcdefgh") with
  | Some t1 =>
      match reg_begin t1 (mkPendingReg 2 form_e' "abcdefgh") with
      | Some t2 => Some (mkTWorld (reg_end (PS := test_scheme) (mkPendingReg 1 form_e "abcdefgh")
                                     (tw_world t2)).2 [mkPendingReg 2 form_e' "abcdefgh"])
      | None => None
      end
  | None => None
  end.

(** Two registrations of one email that interleave both pass the email
    query; the first commits and logs its client in, the second commit
    raises [IntegrityError] (a 500, not the flash message and redirect of
    the sequential case) and leaves the database unchanged
    ([Races.register_end_taken] in general). *)
Example register_race :
  exists t, race_before_second_commit = Some t /\
    map email (users (w_db (tw_world t))) = ["same@blog.io"]%string /\
    (reg_end (PS := test_scheme) (mkPendingReg 2 form_e' "abcdefgh") (tw_world t)).1 =
      Raise IntegrityError /\
    w_db (reg_end (PS := test_scheme) (mkPendingReg 2 form_e' "abcdefgh") (tw_world t)).2 =
      w_db (tw_world t).
Proof. eexists. split; [reflexivity|]. vm_compute. split_and!; reflexivity. Qed.

(** The interleaving of [register_race] is a trace of [tstep]. *)
Definition th1 : PendingReg := mkPendingReg 1 form_e "abcdefgh".
Definition th2 : PendingReg := mkPendingReg 2 form_e' "abcdefgh".

Lemma race_treachable :
  exists t, race_before_second_commit = Some t /\ treachable (PS := test_scheme) t.
Proof.
  exists (mkTWorld (reg_end (PS := test_scheme) th1 init_world).2 [th2]). split; [reflexivity|].
  apply (treachable_step (PS := test_scheme) (mkTWorld init_world [th1; th2])).
  - apply (treachable_step (PS := test_scheme) (mkTWorld init_world [th1])).
    + apply (treachable_step (PS := test_scheme) tinit); [constructor|].
      by apply (tstep_begin (PS := test_scheme) th1).
    + by apply (tstep_begin (PS := test_scheme) th2).
  - exact (tstep_end (PS := test_scheme) th1 [] [th2] (mkTWorld init_world [th1; th2]) eq_refl).
Qed.


End Threads.
