(* ===== verification/Races.v ===== *)
(** * Races: the threaded server

    [app.run(debug=True)] (lines 297-298) serves each request on a thread
    of its own, and SQLite serializes the commits, not the requests.  Four
    handlers read the database and commit later, so another request can
    commit in between:
    - [register] queries the email (line 141), then inserts and commits
      the user (lines 147-154, [Threads.reg_commit]);
    - [show_post] loads the post (line 205), then adds and commits the
      comment (lines 215-217) and renders the post (line 219), whose
      attributes the commit has expired, so that [render_template] reads
      the row again;
    - [edit_post] loads the post (line 258), then flushes the changed
      attributes (lines 267-272, [ContentStore.flush_post_update]) and
      reads [post.id] (line 273), which reloads the expired row;
    - [delete_post] loads the post (line 281) and commits its deletion
      (lines 282-283), where SQLAlchemy's flush reads the post's comments
      as they are then.
    The other routes commit at most once and read nothing they commit on,
    so each of them is one step ([App.serve]).  A [Pending] thread holds
    what its first half read; [rstep] runs a whole request, the first half
    of one of the four, or the second half of a pending thread, in any
    order.  [App.step] is the special case where no request overlaps
    another ([step_rstep], [reachable_rreachable]).

    The theorems of this file are about every interleaving:
    - [rreachable_core]: the database keeps [db_core], every UNIQUE
      column and every author, but not the foreign key [comments.post_id],
      which SQLite does not check; every cookie names a registered user;
    - [rstep_single_commit]: each step is at most one store operation,
      among which a comment on a post deleted meanwhile and the flush of an
      edit ([Store.tstore_step]);
    - [threaded_errors]: the exceptions a step can raise: a whole request
      those of its route, a second half those of its race;
    - [register_end_taken], [comment_end_deleted], [edit_end_deleted]:
      what the second half of a registration, a comment or an edit does
      when another request committed in between;
    - [threaded_commented_post_permanent]: a post that exists and has a
      comment is never deleted. *)
From stdpp Require Import base list strings gmap relations.
From S2P Require Import Prelude DateStamp PasswordHash Schema CredentialStore ContentStore Store Session Handlers App Threads.

Module Races.
Import CredentialStore ContentStore Store Session Handlers App Threads.
Local Open Scope blog_scope.

(** A thread between its read and its commit. *)
Inductive Pending :=
| PReg (th : PendingReg)
| PComment (client : nat) (post : BlogPost) (author : User) (txt : string)
| PDelete (client : nat) (post : BlogPost)
| PEdit (client : nat) (post : BlogPost) (author : User) (form : CreatePostForm).

Record RWorld := mkRWorld { rw_world : World; rw_pending : list Pending }.

Definition rinit : RWorld := mkRWorld init_world [].

Definition pending_client (th : Pending) : nat :=
  match th with
  | PReg r => pr_client r
  | PComment c _ _ _ | PDelete c _ | PEdit c _ _ _ => c
  end.

(** The first half of [register] for a submitted form, lines 133-141,
    when it goes on to insert: the query found no user with the email. *)
Definition register_begin (w : World) (th : PendingReg) : option Pending :=
  match select_user_by_email (w_db w) (reg_email (pr_form th)) with
  | None => Some (PReg th)
  | Some _ => None
  end.

(** The first half of [show_post] with a submitted comment form, lines
    205-211, when it goes on to commit: the post is found and the
    client is logged in. *)
Definition comment_begin (w : World) (client id : nat) (f : CommentForm) : option Pending :=
  match get_or_404_post (w_db w) id, current_user (w_db w) (cookie_of w client) with
  | Ret p, Ret (Authenticated u) => Some (PComment client p u (form_comment f))
  | _, _ => None
  end.

(** The first half of [delete_post], lines 228 and 281, when it goes on
    to commit: the client is the admin and the post is found. *)
Definition delete_begin (w : World) (client id : nat) : option Pending :=
  match current_user (w_db w) (cookie_of w client), get_or_404_post (w_db w) id with
  | Ret (Authenticated u), Ret p => if decide (user_id u = 1) then Some (PDelete client p) else None
  | _, _ => None
  end.

(** The first half of [edit_post], lines 228, 258 and 266, when it goes
    on to commit: the client is the admin, the post is found and the
    form validates. *)
Definition edit_begin (w : World) (client id : nat) (f : CreatePostForm) : option Pending :=
  match current_user (w_db w) (cookie_of w client), get_or_404_post (w_db w) id with
  | Ret (Authenticated u), Ret p => if decide (user_id u = 1) then Some (PEdit client p u f) else None
  | _, _ => None
  end.

(** The expired [requested_post] read again by the template. *)
Definition st_refresh_post (p : BlogPost) : St Ctx BlogPost :=
  db <- st_db ;; st_lift (of_option ObjectDeletedError (get_post db (post_id p))).

(** The second half of [show_post], lines 215-219: add and commit the
    comment, then render the post, read again. *)
Definition comment_end (p : BlogPost) (u : User) (txt : string) : St Ctx Page :=
  st_commit (fun db => Ret (insert_comment db txt u p)) ;;;
  p' <- st_refresh_post p ;;
  render_post p'.

(** The second half of [delete_post], lines 282-284. *)
Definition delete_end (p : BlogPost) : St Ctx Page :=
  st_commit (fun db => outcome_map (fun db' => (db', tt)) (delete_post_row db p)) ;;;
  st_ret (Redirect EP_get_all_posts).

(** The second half of [edit_post], lines 267-273: the flush of the
    changed attributes, then [post.id], which reads the expired post
    again. *)
Definition edit_end (p : BlogPost) (u : User) (f : CreatePostForm) : St Ctx Page :=
  st_commit (fun db => outcome_map (fun db' => (db', tt))
                         (flush_post_update db p (form_title f) (form_subtitle f)
                            (form_img_url f) u (form_body f))) ;;;
  p' <- st_refresh_post p ;;
  st_ret (Redirect (EP_show_post (post_id p'))).

(** The second halves, on the database as it is when they run. *)
Definition pending_end `{PS : PasswordScheme} (th : Pending) : St Ctx Page :=
  match th with
  | PReg r => reg_commit r
  | PComment _ p u txt => comment_end p u txt
  | PDelete _ p => delete_end p
  | PEdit _ p u f => edit_end p u f
  end.

Definition run_end `{PS : PasswordScheme} (th : Pending) (w : World) : outcome Page * World :=
  let '(o, ctx') := pending_end th (mkCtx (w_db w) (cookie_of w (pending_client th))) in
  (o, mkWorld (ctx_db ctx') (<[pending_client th := ctx_cookie ctx']> (w_cookies w))).

Inductive rstep `{PS : PasswordScheme} : RWorld -> RWorld -> Prop :=
| rstep_serve env client r t :
    is_salt 8 (env_salt env) = true ->
    rstep t (mkRWorld (serve env client r (rw_world t)).2 (rw_pending t))
| rstep_register th p t :
    is_salt 8 (pr_salt th) = true -> register_begin (rw_world t) th = Some p ->
    rstep t (mkRWorld (rw_world t) (rw_pending t ++ [p]))
| rstep_comment client id f th t :
    comment_begin (rw_world t) client id f = Some th ->
    rstep t (mkRWorld (rw_world t) (rw_pending t ++ [th]))
| rstep_delete client id th t :
    delete_begin (rw_world t) client id = Some th ->
    rstep t (mkRWorld (rw_world t) (rw_pending t ++ [th]))
| rstep_edit client id f th t :
    edit_begin (rw_world t) client id f = Some th ->
    rstep t (mkRWorld (rw_world t) (rw_pending t ++ [th]))
| rstep_end th ths1 ths2 t :
    rw_pending t = ths1 ++ th :: ths2 ->
    rstep t (mkRWorld (run_end th (rw_world t)).2 (ths1 ++ ths2)).

(** The exceptions the second half of each race can raise. *)
Definition pending_errors (th : Pending) : list exc :=
  match th with
  | PReg _ => [IntegrityError]
  | PComment _ _ _ _ => [ObjectDeletedError]
  | PDelete _ _ => [IntegrityError]
  | PEdit _ _ _ _ => [IntegrityError; StaleDataError; ObjectDeletedError]
  end.

(** What a pending thread read that later steps rely on: the author it
    holds is a registered user. *)
Definition pending_ok (db : Db) (th : Pending) : Prop :=
  match th with
  | PComment _ _ u _ | PEdit _ _ u _ => user_exists db (user_id u)
  | _ => True
  end.

(** The invariant of the threaded server. *)
Record rinv (t : RWorld) : Prop := {
  rinv_db : db_core (w_db (rw_world t));
  rinv_cookies : cookies_ok (rw_world t);
  rinv_pending : Forall (pending_ok (w_db (rw_world t))) (rw_pending t);
}.

(** ** The serial server is a special case *)

Lemma step_rstep `{PS : PasswordScheme} w w' ths :
  step w w' -> rstep (mkRWorld w ths) (mkRWorld w' ths).
Proof. intros [env client r w0 Hs]. exact (rstep_serve env client r (mkRWorld w0 ths) Hs). Qed.

(** Every world the serial server reaches, the threaded server reaches
    with no thread pending. *)
Lemma reachable_rreachable `{PS : PasswordScheme} w : reachable w -> rtc rstep rinit (mkRWorld w []).
Proof. induction 1 as [|w w' _ IH Hs]; [done|]. eapply rtc_r; [exact IH|by apply step_rstep]. Qed.

(** ** The effect of a second half *)

Lemma pending_ok_grow db db' th : users_grow db db' -> pending_ok db th -> pending_ok db' th.
Proof. intros Hg. destruct th; simpl; auto. Qed.

(** A continuation that only reads leaves the state of the commit. *)
Lemma refresh_readonly {A} (k : BlogPost -> St Ctx A) p :
  (forall q c, (k q c).2 = c) -> forall c, (st_bind (st_refresh_post p) k c).2 = c.
Proof.
  intros Hk c. unfold st_refresh_post. st_unfold.
  destruct (get_post (ctx_db c) (post_id p)); simpl; [apply Hk|done].
Qed.

(** The second half of a thread is at most one store operation, and it
    changes its client's cookie at most by [login_user] of a user it
    inserted. *)
Lemma pending_end_effect `{PS : PasswordScheme} th ctx :
  pending_ok (ctx_db ctx) th ->
  tstore_step (ctx_db ctx) (ctx_db (pending_end th ctx).2) /\
  (ctx_cookie (pending_end th ctx).2 = ctx_cookie ctx \/
   exists u, u ∈ users (ctx_db (pending_end th ctx).2) /\
     ctx_cookie (pending_end th ctx).2 = login_user u (ctx_cookie ctx)).
Proof.
  intros Hok. destruct th as [r|client p u txt|client p|client p u f]; simpl in Hok |- *.
  - unfold reg_commit. st_unfold.
    destruct (insert_user _ _ _ _) as [[db' u]|e] eqn:E; simpl; [|split; [do 2 constructor|by left]].
    split; [by do 2 econstructor|right]. exists u. split; [|done].
    revert E. unfold insert_user. case_bool_decide; [done|]. intros [= <- <-].
    simpl. apply elem_of_app. right. by apply list_elem_of_singleton.
  - unfold comment_end. rewrite st_bind_readonly_snd
      by (intros ??; apply refresh_readonly; intros ??; unfold render_post; by st_unfold).
    unfold st_commit. simpl. split; [by apply ts_comment|by left].
  - unfold delete_end. rewrite st_bind_readonly_snd by done. unfold st_commit.
    destruct (delete_post_row (ctx_db ctx) p) as [db'|e] eqn:E; simpl; [|split; [do 2 constructor|by left]].
    split; [by do 2 econstructor|by left].
  - unfold edit_end. rewrite st_bind_readonly_snd by (intros ??; by apply refresh_readonly).
    unfold st_commit.
    destruct (flush_post_update (ctx_db ctx) p _ _ _ u _) as [db'|e] eqn:E; simpl;
      [|split; [do 2 constructor|by left]].
    split; [by eapply ts_flush|by left].
Qed.

Lemma run_end_keeps `{PS : PasswordScheme} th w :
  pending_ok (w_db w) th -> db_core (w_db w) -> cookies_ok w ->
  db_core (w_db (run_end th w).2) /\ cookies_ok (run_end th w).2 /\
  tstore_step (w_db w) (w_db (run_end th w).2).
Proof.
  intros Hok Hc Hcs. unfold run_end.
  pose proof (pending_end_effect th (mkCtx (w_db w) (cookie_of w (pending_client th))) Hok) as [Hs Hck].
  destruct (pending_end th _) as [o ctx'] eqn:E. simpl in *.
  split_and!; [by eapply tstore_step_core| |done].
  apply map_Forall_insert_2.
  - destruct Hck as [->|(u & Hu & ->)]; [|by apply cookie_ok_login].
    eapply cookie_ok_grow; [by apply tstore_step_grow|]. by apply cookie_of_ok.
  - intros i c Hi. eapply cookie_ok_grow; [by apply tstore_step_grow|]. by apply (Hcs i).
Qed.

(** ** The invariant of every interleaving *)

Lemma begin_pending_ok w th :
  (exists client id f, comment_begin w client id f = Some th) \/
  (exists client id f, edit_begin w client id f = Some th) ->
  pending_ok (w_db w) th.
Proof.
  intros [(client & id & f & E)|(client & id & f & E)]; revert E.
  - unfold comment_begin. destruct (get_or_404_post _ _); [|done].
    destruct (current_user _ _) as [[|u]|] eqn:Hu; [done| |done]. intros [= <-]. simpl.
    apply current_user_Ret_user in Hu as [_ Hu]. apply list_elem_of_fmap. eauto.
  - unfold edit_begin. destruct (current_user _ _) as [[|u]|] eqn:Hu; [done| |done].
    destruct (get_or_404_post _ _); [|done]. case_decide; [|done]. intros [= <-]. simpl.
    apply current_user_Ret_user in Hu as [_ Hu]. apply list_elem_of_fmap. eauto.
Qed.

Lemma rstep_rinv `{PS : PasswordScheme} t t' :
  rinv t -> rstep t t' -> rinv t' /\ tstore_step (w_db (rw_world t)) (w_db (rw_world t')).
Proof.
  intros [Hc Hcs Hp] Hs.
  assert (Hbegin : forall th, pending_ok (w_db (rw_world t)) th ->
            rinv (mkRWorld (rw_world t) (rw_pending t ++ [th])) /\
            tstore_step (w_db (rw_world t)) (w_db (rw_world t))).
  { intros th Hth. split; [constructor; simpl; [done|done|]|by do 2 constructor].
    apply Forall_app. split; [done|by apply Forall_singleton]. }
  destruct Hs as [env client r t Hsalt|th p t Hsalt Hb|client id f th t Hb|client id th t Hb|
                  client id f th t Hb|th ths1 ths2 t Hpend].
  - destruct (serve_keeps db_core store_step_core env client r (rw_world t) Hc Hcs) as (Hc' & Hcs' & Hst).
    split; [|by constructor]. constructor; simpl; [done|done|].
    eapply Forall_impl; [exact Hp|]. intros th. apply pending_ok_grow, store_step_grow, Hst.
  - apply Hbegin. revert Hb. unfold register_begin. case_match; [done|]. by intros [= <-].
  - apply Hbegin, begin_pending_ok. left. eauto.
  - apply Hbegin. revert Hb. unfold delete_begin. repeat case_match; try done. by intros [= <-].
  - apply Hbegin, begin_pending_ok. right. eauto.
  - rewrite Hpend in Hp. apply Forall_app in Hp as [Hp1 [Hth Hp2]%Forall_cons].
    destruct (run_end_keeps th (rw_world t) Hth Hc Hcs) as (Hc' & Hcs' & Hst).
    split; [|done]. constructor; simpl; [done|done|].
    apply Forall_app. split; (eapply Forall_impl; [eassumption|]);
      intros th'; apply pending_ok_grow, tstore_step_grow, Hst.
Qed.

Lemma rinit_rinv : rinv rinit.
Proof.
  constructor; simpl; [apply (db_wf_core empty_db), empty_db_wf|apply map_Forall_empty|constructor].
Qed.

Lemma rtc_rinv `{PS : PasswordScheme} t t' : rinv t -> rtc rstep t t' -> rinv t'.
Proof. intros Hi Hs. induction Hs as [|t1 t2 t3 H12 _ IH]; [done|]. apply IH, (rstep_rinv t1 t2 Hi H12). Qed.

(** C3: every world the threaded server reaches from the empty database,
    by any interleaving of whole requests and halves of registrations,
    comments, edits and deletions, keeps every constraint SQLite enforces
    and every author: rowids increase in each table, emails and titles
    are unique, every post's and comment's author is a registered user;
    and every client's cookie names a registered user.  (A comment's post
    may be missing: [comment_end_deleted].) *)
Theorem rreachable_core `{PS : PasswordScheme} t :
  rtc rstep rinit t -> db_core (w_db (rw_world t)) /\ cookies_ok (rw_world t).
Proof. intros Hr. destruct (rtc_rinv rinit t rinit_rinv Hr). done. Qed.

(** C38: refinement of the store's contract (spec, section 5: one
    transaction per write operation) for the threaded server: from a
    reachable world, every step changes the database by at most one store
    operation ([insert_user], [insert_post], [update_post],
    [delete_post_row], [insert_comment] or [flush_post_update]), with an
    author who is a registered user; only a comment's post may be one
    that is gone. *)
Theorem rstep_single_commit `{PS : PasswordScheme} t t' :
  rtc rstep rinit t -> rstep t t' -> tstore_step (w_db (rw_world t)) (w_db (rw_world t')).
Proof. intros Hr Hs. apply (rstep_rinv t t' (rtc_rinv rinit t rinit_rinv Hr) Hs). Qed.

(** ** What a step can raise *)

Lemma run_end_errors `{PS : PasswordScheme} th w e :
  (run_end th w).1 = Raise e -> e ∈ pending_errors th.
Proof.
  unfold run_end. destruct (pending_end th _) as [o ctx'] eqn:E. simpl. intros ->. revert E.
  destruct th; simpl;
    unfold reg_commit, comment_end, delete_end, edit_end, st_refresh_post, render_post,
      delete_post_row, flush_post_update, insert_user, of_option; st_unfold;
    intros H; repeat (case_match; simplify_eq/=); set_solver.
Qed.

(** C17: the error signature of the threaded server.  In a reachable
    world, a request served whole fails only with an exception of its
    route's signature ([App.route_errors]: registration, login, logout,
    the listing and the static pages never fail, a post view only with
    404, the admin routes with [AttributeError], 403, 404 or
    [IntegrityError]), and the second half of a pending thread only with
    the exceptions of its race: [IntegrityError] for a registration whose
    email was taken meanwhile, [ObjectDeletedError] for a comment whose
    post was deleted, [IntegrityError] for a deletion of a post that got
    a comment, and [IntegrityError], [StaleDataError] or
    [ObjectDeletedError] for an edit. *)
Theorem threaded_errors `{PS : PasswordScheme} t :
  rtc rstep rinit t ->
  (forall env client r e, (serve env client r (rw_world t)).1 = Raise e -> e ∈ route_errors r) /\
  (forall th e, th ∈ rw_pending t -> (run_end th (rw_world t)).1 = Raise e -> e ∈ pending_errors th).
Proof.
  intros Hr. split.
  - intros env client r e. apply serve_route_errors, (rinv_cookies _ (rtc_rinv rinit t rinit_rinv Hr)).
  - intros th e _. apply run_end_errors.
Qed.

(** ** What the second halves do after a conflicting commit *)

(** C24: the registration race.  When the email a registration's query
    found free (line 141) was registered by another request before its
    commit (line 151), the second half raises the [IntegrityError] of
    the UNIQUE constraint, a 500 instead of the flash message and
    redirect of lines 142-144, and changes neither the database nor the
    client's session. *)
Theorem register_end_taken `{PS : PasswordScheme} th w :
  reg_email (pr_form th) ∈ map email (users (w_db w)) ->
  (run_end (PReg th) w).1 = Raise IntegrityError /\
  w_db (run_end (PReg th) w).2 = w_db w /\
  cookie_of (run_end (PReg th) w).2 (pr_client th) = cookie_of w (pr_client th).
Proof.
  intros Hin. unfold run_end. simpl. unfold reg_commit, insert_user. st_unfold.
  rewrite bool_decide_eq_true_2 by done. simpl. split_and!; [done|done|apply cookie_of_insert].
Qed.

(** C36: the comment race.  When the post a comment's thread loaded
    (line 205) was deleted before its commit (lines 215-217), the comment
    is still committed, with its author and the deleted post's id (SQLite
    does not check the foreign key), so the database no longer satisfies
    [comments_fk]; the request then fails with [ObjectDeletedError], a
    500, when the template reads the expired post (line 219). *)
Theorem comment_end_deleted `{PS : PasswordScheme} client p u txt w :
  ~ post_exists (w_db w) (post_id p) ->
  (run_end (PComment client p u txt) w).1 = Raise ObjectDeletedError /\
  comments (w_db (run_end (PComment client p u txt) w).2) =
    comments (w_db w) ++ [mkComment (next_rowid (map comment_id (comments (w_db w)))) (user_id u) (post_id p) txt] /\
  ~ comments_fk (w_db (run_end (PComment client p u txt) w).2).
Proof.
  intros Hp. apply get_post_None in Hp as Hg. unfold run_end. simpl.
  unfold comment_end, st_refresh_post, of_option. st_unfold.
  cbn [insert_comment ctx_db fst snd]. unfold get_post in *. cbn [blog_posts].
  rewrite Hg. simpl. split_and!; [done|done|].
  unfold comments_fk. cbn. intros [_ Hf]%Forall_app. exact (Hp (Forall_inv Hf)).
Qed.

(** C31: the edit race.  When the post an edit loaded (line 258) was
    deleted before its commit (line 272), the request fails with a 500
    and changes nothing: with a changed field the UPDATE matches no row
    ([StaleDataError]); with the post's own values no UPDATE is emitted,
    and [post.id] (line 273) cannot reload the deleted row
    ([ObjectDeletedError]). *)
Theorem edit_end_deleted `{PS : PasswordScheme} client p u f w :
  ~ post_exists (w_db w) (post_id p) ->
  (run_end (PEdit client p u f) w).1 =
    Raise (if decide (mkBlogPost (post_id p) (form_title f) (form_subtitle f) (date p)
                        (form_body f) (form_img_url f) (user_id u) = p)
           then ObjectDeletedError else StaleDataError) /\
  w_db (run_end (PEdit client p u f) w).2 = w_db w.
Proof.
  intros Hp. apply get_post_None in Hp as Hg. unfold run_end. simpl.
  unfold edit_end, st_refresh_post, flush_post_update, of_option. st_unfold.
  case_decide; cbn [outcome_map ctx_db]; rewrite Hg; done.
Qed.

(** ** A commented post is never deleted *)

Lemma rtc_rstep_comments `{PS : PasswordScheme} t t' pid :
  rinv t -> post_exists (w_db (rw_world t)) pid -> post_comments (w_db (rw_world t)) pid ≠ [] ->
  rtc rstep t t' ->
  post_exists (w_db (rw_world t')) pid /\
  exists l, comments (w_db (rw_world t')) = comments (w_db (rw_world t)) ++ l.
Proof.
  intros Hi Hp Hc Hs. revert Hi Hp Hc.
  induction Hs as [t|t1 t2 t3 H12 _ IH]; intros Hi Hp Hc; [split; [done|exists []; by rewrite app_nil_r]|].
  destruct (rstep_rinv t1 t2 Hi H12) as [Hi2 Hst].
  pose proof (tstore_step_post_kept _ _ _ Hp Hc Hst) as Hp2.
  destruct (tstore_step_comments _ _ Hst) as [l2 Hl2].
  assert (Hc2 : post_comments (w_db (rw_world t2)) pid ≠ []).
  { unfold post_comments in *. rewrite Hl2, filter_app. by intros [? _]%app_eq_nil. }
  destruct (IH Hi2 Hp2 Hc2) as [Hp3 [l3 Hl3]].
  split; [done|]. exists (l2 ++ l3). by rewrite Hl3, Hl2, app_assoc.
Qed.

(** C22: in every interleaving, a post that exists and has a comment is
    never removed: it exists in every later world, with its comments as
    a prefix of its later comments.  The post must exist: a comment
    committed after its post was deleted ([comment_end_deleted]) makes
    [post_comments] of a missing post non-empty. *)
Theorem threaded_commented_post_permanent `{PS : PasswordScheme} t t' pid :
  rtc rstep rinit t -> post_exists (w_db (rw_world t)) pid ->
  post_comments (w_db (rw_world t)) pid ≠ [] -> rtc rstep t t' ->
  post_exists (w_db (rw_world t')) pid /\
  exists l, post_comments (w_db (rw_world t')) pid = post_comments (w_db (rw_world t)) pid ++ l.
Proof.
  intros Hr Hp Hc Hs.
  destruct (rtc_rstep_comments t t' pid (rtc_rinv rinit t rinit_rinv Hr) Hp Hc Hs) as [Hp' [l Hl]].
  split; [done|]. eexists. unfold post_comments. by rewrite Hl, filter_app.
Qed.

(** ** Witnesses: the races from [App.world_setup] *)

Section race.
#[local] Existing Instance test_scheme.

(** Whole requests served in order are steps of the threaded server. *)
Lemma serve_all_rtc `{PS : PasswordScheme} env rs w ths :
  is_salt 8 (env_salt env) = true ->
  rtc rstep (mkRWorld w ths) (mkRWorld (serve_all env rs w) ths).
Proof.
  intros Hs. revert w. induction rs as [|[client r] rs IH]; intros w; [done|].
  simpl. eapply rtc_l; [|apply IH]. exact (rstep_serve env client r (mkRWorld w ths) Hs).
Qed.

Lemma world_setup_rreachable : rtc rstep rinit (mkRWorld world_setup []).
Proof. exact (serve_all_rtc env0 trace_setup init_world [] eq_refl). Qed.

(** The rows the threads read: post 2 ("B"), the admin and user 2. *)
Definition post_B : BlogPost :=
  default (mkBlogPost 0 "" "" "" "" "" 0) (get_post (w_db world_setup) 2).
Definition user_1 : User := default (mkUser 0 "" "" "") (get_user (w_db world_setup) 1).
Definition user_2 : User := default (mkUser 0 "" "" "") (get_user (w_db world_setup) 2).

(** The admin's request deleting post 2, which has no comment. *)
Definition race_after_delete : World := (serve env0 1 (DeleteReq 2) world_setup).2.

(** Client 2's thread has read post 2 for its comment "nice" when the
    deletion commits; then its comment commits, and the admin writes
    post "C", which SQLite gives the deleted post's id. *)
Definition race_comment : Pending := PComment 2 post_B user_2 "nice".

Definition race_comment_world : World := (run_end race_comment race_after_delete).2.

Definition race_new_post : World :=
  (serve env0 1 (NewPostReq (Some (mkCreatePostForm "C" "c" "img" "text"))) race_comment_world).2.

Lemma race_comment_begin : comment_begin world_setup 2 2 (mkCommentForm "nice") = Some race_comment.
Proof. vm_compute. reflexivity. Qed.

Lemma race_before_comment_end :
  rtc rstep rinit (mkRWorld race_after_delete [race_comment]).
Proof.
  eapply rtc_trans; [exact world_setup_rreachable|].
  eapply rtc_l; [exact (rstep_comment 2 2 _ _ (mkRWorld world_setup []) race_comment_begin)|].
  apply rtc_once. exact (rstep_serve env0 1 (DeleteReq 2) (mkRWorld world_setup [race_comment]) eq_refl).
Qed.

(** The admin opens post 2 for editing, changes its title to "B2", and
    deletes it in another tab before the edit commits. *)
Definition edit_changed : CreatePostForm := mkCreatePostForm "B2" "b" "img" "text".

(** Client 3 queries "a@blog.io" before client 2's registration of the
    same address commits. *)
Definition world_posts : World := serve_all env0 (take 3 trace_setup) init_world.

Definition reg_a : PendingReg := mkPendingReg 3 (mkRegisterForm "a@blog.io" "pw3" "Other") "abcdefgh".

Definition race_reg_world : World :=
  (serve env0 2 (RegisterReq (Some (mkRegisterForm "a@blog.io" "pw2" "A user"))) world_posts).2.

Lemma race_comment_world_rreachable : rtc rstep rinit (mkRWorld race_comment_world []).
Proof.
  eapply rtc_r; [exact race_before_comment_end|].
  exact (rstep_end race_comment [] [] (mkRWorld race_after_delete [race_comment]) eq_refl).
Qed.

Lemma race_new_post_rreachable : rtc rstep rinit (mkRWorld race_new_post []).
Proof.
  eapply rtc_r; [exact race_comment_world_rreachable|].
  exact (rstep_serve env0 1 _ (mkRWorld race_comment_world []) eq_refl).
Qed.

(** After the comment race the constraints SQLite enforces hold, the
    foreign key of [comments] does not, and the next post shows the
    orphan comment. *)
Lemma rreachable_core_witness :
  (db_core (w_db race_comment_world) /\ cookies_ok race_comment_world) /\
  ~ comments_fk (w_db race_comment_world) /\
  map title (blog_posts (w_db race_new_post)) = ["A"; "C"] /\
  map text (post_comments (w_db race_new_post) 2) = ["nice"].
Proof.
  split; [exact (rreachable_core (mkRWorld race_comment_world []) race_comment_world_rreachable)|].
  split_and!; [decide_it|vm_compute; reflexivity..].
Defined.

Lemma rstep_single_commit_witness :
  tstore_step (w_db race_after_delete) (w_db race_comment_world).
Proof.
  exact (rstep_single_commit _ _ race_before_comment_end
           (rstep_end race_comment [] [] (mkRWorld race_after_delete [race_comment]) eq_refl)).
Defined.

Lemma threaded_errors_witness :
  (run_end race_comment race_after_delete).1 = Raise ObjectDeletedError /\
  ObjectDeletedError ∈ pending_errors race_comment.
Proof.
  assert (E : (run_end race_comment race_after_delete).1 = Raise ObjectDeletedError)
    by (vm_compute; reflexivity).
  split; [exact E|].
  apply (proj2 (threaded_errors (mkRWorld race_after_delete [race_comment])
                  race_before_comment_end) race_comment ObjectDeletedError); [by left|exact E].
Defined.

Lemma register_end_taken_witness :
  register_begin world_posts reg_a = Some (PReg reg_a) /\
  (run_end (PReg reg_a) race_reg_world).1 = Raise IntegrityError /\
  w_db (run_end (PReg reg_a) race_reg_world).2 = w_db race_reg_world /\
  cookie_of (run_end (PReg reg_a) race_reg_world).2 3 = cookie_of race_reg_world 3.
Proof.
  split; [vm_compute; reflexivity|]. apply register_end_taken. decide_it.
Defined.

Lemma comment_end_deleted_witness :
  (run_end race_comment race_after_delete).1 = Raise ObjectDeletedError /\
  comments (w_db (run_end race_comment race_after_delete).2) =
    comments (w_db race_after_delete) ++
      [mkComment (next_rowid (map comment_id (comments (w_db race_after_delete)))) (user_id user_2)
         (post_id post_B) "nice"] /\
  ~ comments_fk (w_db (run_end race_comment race_after_delete).2).
Proof. apply comment_end_deleted. decide_it. Defined.

Lemma edit_end_deleted_witness :
  edit_begin world_setup 1 2 edit_changed = Some (PEdit 1 post_B user_1 edit_changed) /\
  (run_end (PEdit 1 post_B user_1 edit_changed) race_after_delete).1 = Raise StaleDataError /\
  w_db (run_end (PEdit 1 post_B user_1 edit_changed) race_after_delete).2 = w_db race_after_delete.
Proof.
  split; [vm_compute; reflexivity|].
  destruct (edit_end_deleted 1 post_B user_1 edit_changed race_after_delete) as [H1 H2]; [decide_it|].
  split; [rewrite H1; vm_compute; reflexivity|exact H2].
Defined.

(** Client 2 comments on post 1; the admin then tries to delete it. *)
Lemma threaded_commented_post_permanent_witness :
  post_exists (w_db world_delete_tried) 1 /\
  exists l, post_comments (w_db world_delete_tried) 1 = post_comments (w_db world_commented) 1 ++ l.
Proof.
  apply (threaded_commented_post_permanent (mkRWorld world_commented []) (mkRWorld world_delete_tried [])).
  - eapply rtc_trans; [exact world_setup_rreachable|]. exact (serve_all_rtc env0 _ _ [] eq_refl).
  - decide_it.
  - vm_compute. discriminate.
  - exact (serve_all_rtc env0 _ _ [] eq_refl).
Defined.

End race.

End Races.
